(** * Gauge value engine and sampling loop of the dashboard (src/main.py)

    A shallow embedding of the host program that drives the six-gauge
    display, and the proofs of the properties its specification states.

    Modelling choices, all of them visible in the definitions below:
    - Python [float] values (temperatures, durations, clock readings) are
      exact rationals [Q]; Python [int] values are [Z].  Equality of
      rationals is [Qeq] ([==]).  NaN and infinities do not exist here.
    - Python exceptions are values of [result]: a function that can raise
      returns [Raise e], and callers propagate it with [bind].
    - The wall clock, the serial port and the two web services are inputs
      of one loop iteration ([TickInput]); what the iteration writes to the
      port is part of its output ([TickOutput]).  *)

From Stdlib Require Import ZArith QArith Qround Bool List String Ascii.
From Stdlib Require Import DecimalString Lia Lqa Sorting.Sorted Sorting.Permutation.
Import ListNotations.

Open Scope Z_scope.
Open Scope Q_scope.

(** ** Exceptions *)

Inductive PyExc : Type :=
| IndexError
| ZeroDivisionError.

Inductive result (A : Type) : Type :=
| Ok (a : A)
| Raise (e : PyExc).

Arguments Ok {A} a.
Arguments Raise {A} e.

Definition bind {A B : Type} (m : result A) (k : A -> result B) : result B :=
  match m with
  | Ok a => k a
  | Raise e => Raise e
  end.

Notation "x <- m ;; k" := (bind m (fun x => k))
  (at level 61, m at next level, right associativity).

(** ** Numbers as Python computes with them *)

Definition Qltb (a b : Q) : bool := negb (Qle_bool b a).

(** [a / b] on floats: raises on a zero divisor. *)
Definition py_div (a b : Q) : result Q :=
  if Qeq_bool b 0 then Raise ZeroDivisionError else Ok (a / b).

(** [round(x)] with one argument: nearest integer, ties to the even one. *)
Definition py_round (x : Q) : Z :=
  let f := Qfloor x in
  match Qcompare (x - inject_Z f) (1 # 2) with
  | Lt => f
  | Gt => (f + 1)%Z
  | Eq => if Z.even f then f else (f + 1)%Z
  end.

(** [min(a, b)] and [max(a, b)]: the first argument wins a tie. *)
Definition py_min (a b : Q) : Q := if Qltb b a then b else a.
Definition py_max (a b : Q) : Q := if Qltb a b then b else a.

(** ** Value mapper (main.py, lines 25-45) *)

Definition clamp100 (x : Q) : Z :=
  Z.max 0 (Z.min 100 (py_round x)).

Definition lerp (a b t : Q) : Q := a + (b - a) * t.

Definition point : Type := (Q * Q)%type.

(** [sorted(points, key=lambda p: p[0])]: a stable sort on the first
    component.  A point is inserted in front of the first point whose key is
    not smaller, so points with equal keys keep their input order. *)
Fixpoint insert_by_x (p : point) (l : list point) : list point :=
  match l with
  | [] => [p]
  | q :: l' => if Qle_bool (fst p) (fst q) then p :: l else q :: insert_by_x p l'
  end.

Definition sorted_by_x (points : list point) : list point :=
  fold_right insert_by_x [] points.

(** The [for] loop over [zip(points, points[1:])]: the first segment that
    contains [x] decides; [None] when the loop ends without returning. *)
Fixpoint scan_segments (x : Q) (points : list point) : result (option Q) :=
  match points with
  | (x0, y0) :: (((x1, y1) :: _) as rest) =>
      if Qle_bool x0 x && Qle_bool x x1 then
        t <- (if negb (Qeq_bool x1 x0) then py_div (x - x0) (x1 - x0) else Ok 0) ;;
        Ok (Some (lerp y0 y1 t))
      else scan_segments x rest
  | _ => Ok None
  end.

Definition piecewise_linear (x : Q) (points : list point) : result Q :=
  let points := sorted_by_x points in
  match points with
  | [] => Raise IndexError
  | p0 :: _ =>
      if Qle_bool x (fst p0) then Ok (snd p0)
      else
        let pl := last points p0 in
        if Qle_bool (fst pl) x then Ok (snd pl)
        else
          r <- scan_segments x points ;;
          match r with
          | Some y => Ok y
          | None => Ok (snd pl)
          end
  end.

(** ** Weather classifier (main.py, lines 83-119) *)

Open Scope string_scope.

Definition code_in (wcode : Z) (codes : list Z) : bool :=
  existsb (Z.eqb wcode) codes.

Definition wmo_to_kind (wcode : Z) (wind_mph : Q) : string :=
  let kind :=
    if (wcode =? 0)%Z then "sunny"
    else if code_in wcode [1; 2; 3; 45; 48]%Z then "cloudy"
    else if code_in wcode [95; 96; 99]%Z then "thunder"
    else if code_in wcode [71; 73; 75; 77; 85; 86]%Z then "snow"
    else if code_in wcode [51; 53; 55; 56; 57; 61; 63; 65; 66; 67; 80; 81; 82]%Z
         then "rain"
    else "cloudy" in
  let kind :=
    if Qle_bool 20 wind_mph && negb (kind =? "thunder") then "wind" else kind in
  let kind :=
    if code_in wcode [96; 99]%Z then "severe" else kind in
  kind.

Definition WEATHER_TICKS : list (string * Z) :=
  [ ("sunny", 95); ("cloudy", 75); ("rain", 57); ("thunder", 45);
    ("snow", 30); ("wind", 20); ("severe", 10) ]%Z.

(** [d.get(key, default)] on a dictionary written as its list of items. *)
Fixpoint dict_get (d : list (string * Z)) (key : string) (default : Z) : Z :=
  match d with
  | [] => default
  | (k, v) :: d' => if k =? key then v else dict_get d' key default
  end.

Definition weather_value (kind : string) : Z :=
  clamp100 (inject_Z (dict_get WEATHER_TICKS kind 75)).

(** ** The other five gauges (main.py, lines 121-177) *)

Definition temp_value (temp_f : Q) : Z :=
  clamp100 (100 - temp_f).

(** [clock] is the reading of [time.time()] taken inside the function. *)
Definition water_value (clock last_water_ts : Q) : result Z :=
  let hours := (clock - last_water_ts) / 3600 in
  if Qle_bool 4 hours then Ok 5%Z
  else
    y <- piecewise_linear hours [(0, 95); (1, 70); (2, 52); (3, 25); (4, 5)] ;;
    Ok (clamp100 y).

Definition stand_value (stand_ms total_ms : Q) : result Z :=
  if Qle_bool total_ms 0 then Ok 100%Z
  else
    ratio <- py_div stand_ms total_ms ;;
    let pct := ratio * 100 in
    let pct := py_max 0 (py_min 40 pct) in
    y <- piecewise_linear pct [(0, 100); (25, 50); (40, 10)] ;;
    Ok (clamp100 y).

Definition event_value (seconds_left : Q) : result Z :=
  let h := seconds_left / 3600 in
  if Qle_bool h 0 then Ok 30%Z
  else if Qle_bool 12 h then Ok 90%Z
  else
    y <- piecewise_linear h [(0, 30); (6, 70); (8, 80); (10, 85); (12, 90)] ;;
    Ok (clamp100 y).

Definition commute_value (minutes : Q) : result Z :=
  let minutes := py_max 12 (py_min 45 minutes) in
  y <- piecewise_linear minutes [(12, 100); (18, 65); (45, 30)] ;;
  Ok (clamp100 y).

(** ** Frame encoding (main.py, lines 189-192) *)

(** [str(n)] for an integer. *)
Definition py_str (n : Z) : string := NilZero.string_of_int (Z.to_int n).

Definition newline : string := String (ascii_of_nat 10) EmptyString.

(** The text handed to [ser.write] by [send_update]. *)
Definition send_update (vals : list Z) : string :=
  "U," ++ String.concat "," (map (fun v => py_str (clamp100 (inject_Z v))) vals)
       ++ newline.

(** ** Inbound text (main.py, line 232, lines 235-239) *)

(** [str.isspace] on one character of code below 256. *)
Definition py_isspace (c : ascii) : bool :=
  let n := nat_of_ascii c in
  ((9 <=? n) && (n <=? 13) || (28 <=? n) && (n <=? 32)
   || (n =? 133) || (n =? 160))%nat.

Fixpoint lstrip (s : string) : string :=
  match s with
  | EmptyString => EmptyString
  | String c s' => if py_isspace c then lstrip s' else s
  end.

Fixpoint rstrip (s : string) : string :=
  match s with
  | EmptyString => EmptyString
  | String c s' =>
      match rstrip s' with
      | EmptyString => if py_isspace c then EmptyString else String c EmptyString
      | r => String c r
      end
  end.

Definition strip (s : string) : string := rstrip (lstrip s).

Definition startswith (s pre : string) : bool := String.prefix pre s.

(** [s.endswith(suf)]: some tail of [s] is [suf]. *)
Fixpoint endswith (s suf : string) : bool :=
  (s =? suf) ||
  match s with
  | EmptyString => false
  | String _ s' => endswith s' suf
  end.

Fixpoint last_char (s : string) : option ascii :=
  match s with
  | EmptyString => None
  | String c EmptyString => Some c
  | String _ s' => last_char s'
  end.

(** ** Sampling loop (main.py, lines 194-287) *)

Definition WEATHER_POLL_SEC : Q := 300.
Definition TRAFFIC_POLL_SEC : Q := 120.
Definition PRINT_EVERY_SEC : Q := 1.

(** What is read once at start-up and never changes afterwards. *)
Record Config : Type := mkConfig {
  ORS_API_KEY : string;
  event_target_epoch : Q
}.

(** The local variables of [main] that live across iterations. *)
Record RuntimeState : Type := mkState {
  last_water_ts : Q;
  standing : bool;
  stand_ms : Q;
  total_ms : Q;
  last_state_ts : Q;
  temp_f : Q;
  wcode : Z;
  wind_mph : Q;
  commute_min : Q;
  last_weather_poll : Q;
  last_traffic_poll : Q;
  last_print : Q
}.

(** Lines 202-214; [t_water] and [t_state] are the two clock readings. *)
Definition initial_state (t_water t_state : Q) : RuntimeState :=
  mkState t_water false 0 0 t_state 50 3%Z 0 18 0 0 0.

Definition set_last_water_ts (v : Q) (s : RuntimeState) : RuntimeState :=
  mkState v (standing s) (stand_ms s) (total_ms s) (last_state_ts s)
          (temp_f s) (wcode s) (wind_mph s) (commute_min s)
          (last_weather_poll s) (last_traffic_poll s) (last_print s).

Definition set_standing (v : bool) (s : RuntimeState) : RuntimeState :=
  mkState (last_water_ts s) v (stand_ms s) (total_ms s) (last_state_ts s)
          (temp_f s) (wcode s) (wind_mph s) (commute_min s)
          (last_weather_poll s) (last_traffic_poll s) (last_print s).

Definition set_stand_ms (v : Q) (s : RuntimeState) : RuntimeState :=
  mkState (last_water_ts s) (standing s) v (total_ms s) (last_state_ts s)
          (temp_f s) (wcode s) (wind_mph s) (commute_min s)
          (last_weather_poll s) (last_traffic_poll s) (last_print s).

Definition set_total_ms (v : Q) (s : RuntimeState) : RuntimeState :=
  mkState (last_water_ts s) (standing s) (stand_ms s) v (last_state_ts s)
          (temp_f s) (wcode s) (wind_mph s) (commute_min s)
          (last_weather_poll s) (last_traffic_poll s) (last_print s).

Definition set_last_state_ts (v : Q) (s : RuntimeState) : RuntimeState :=
  mkState (last_water_ts s) (standing s) (stand_ms s) (total_ms s) v
          (temp_f s) (wcode s) (wind_mph s) (commute_min s)
          (last_weather_poll s) (last_traffic_poll s) (last_print s).

Definition set_weather (w : Q * Z * Q) (s : RuntimeState) : RuntimeState :=
  let '(t, c, v) := w in
  mkState (last_water_ts s) (standing s) (stand_ms s) (total_ms s)
          (last_state_ts s) t c v (commute_min s)
          (last_weather_poll s) (last_traffic_poll s) (last_print s).

Definition set_commute_min (v : Q) (s : RuntimeState) : RuntimeState :=
  mkState (last_water_ts s) (standing s) (stand_ms s) (total_ms s)
          (last_state_ts s) (temp_f s) (wcode s) (wind_mph s) v
          (last_weather_poll s) (last_traffic_poll s) (last_print s).

Definition set_last_weather_poll (v : Q) (s : RuntimeState) : RuntimeState :=
  mkState (last_water_ts s) (standing s) (stand_ms s) (total_ms s)
          (last_state_ts s) (temp_f s) (wcode s) (wind_mph s) (commute_min s)
          v (last_traffic_poll s) (last_print s).

Definition set_last_traffic_poll (v : Q) (s : RuntimeState) : RuntimeState :=
  mkState (last_water_ts s) (standing s) (stand_ms s) (total_ms s)
          (last_state_ts s) (temp_f s) (wcode s) (wind_mph s) (commute_min s)
          (last_weather_poll s) v (last_print s).

Definition set_last_print (v : Q) (s : RuntimeState) : RuntimeState :=
  mkState (last_water_ts s) (standing s) (stand_ms s) (total_ms s)
          (last_state_ts s) (temp_f s) (wcode s) (wind_mph s) (commute_min s)
          (last_weather_poll s) (last_traffic_poll s) v.

(** A line waiting on the serial port, as decoded text (characters of code
    below 256), with the reading [time.time()] returns while it is handled. *)
Definition inbound : Type := (string * Q)%type.

(** What the world supplies to one iteration of [while True]. *)
Record TickInput : Type := mkInput {
  in_now : Q;                          (* time.time() at line 220 *)
  in_waiting : list inbound;           (* what ser.readline() will deliver *)
  in_weather : option (Q * Z * Q);     (* open_meteo_current: None = it raised *)
  in_commute : option Q;               (* ors_route_minutes: None = it raised *)
  in_water_clock : Q                   (* time.time() inside water_value *)
}.

(** What one iteration leaves behind besides the new state. *)
Record TickOutput : Type := mkOutput {
  out_written : string;                (* the bytes given to ser.write *)
  out_unread : list inbound;           (* lines still in the port's buffer *)
  out_weather_called : bool;           (* open_meteo_current was called *)
  out_commute_called : bool;           (* ors_route_minutes was called *)
  out_reported : bool                  (* the status line was printed *)
}.

(** Lines 222-228. *)
Definition accumulate (now : Q) (s : RuntimeState) : RuntimeState :=
  let dt := now - last_state_ts s in
  let s :=
    if Qltb 0 dt then
      let s := set_total_ms (total_ms s + dt * 1000) s in
      if standing s then set_stand_ms (stand_ms s + dt * 1000) s else s
    else s in
  set_last_state_ts now s.

(** Lines 235-240: the body of the drain loop after the emptiness test. *)
Definition handle_line (line : string) (clock : Q) (s : RuntimeState)
  : RuntimeState :=
  if line =? "B,WATER" then set_last_water_ts clock s
  else if startswith line "S," then set_standing (endswith line "1") s
  else s.

(** Lines 231-240.  [ser.in_waiting] is true while lines are waiting; a line
    that is empty once stripped leaves the loop by [break], after having been
    read. *)
Fixpoint drain (waiting : list inbound) (s : RuntimeState)
  : RuntimeState * list inbound :=
  match waiting with
  | [] => (s, [])
  | (raw, clock) :: rest =>
      let line := strip raw in
      if line =? "" then (s, rest)
      else drain rest (handle_line line clock s)
  end.

(** Lines 243-248. *)
Definition poll_weather (now : Q) (fetch : option (Q * Z * Q))
  (s : RuntimeState) : RuntimeState * bool :=
  if Qltb WEATHER_POLL_SEC (now - last_weather_poll s) then
    let s := match fetch with
             | Some w => set_weather w s
             | None => s
             end in
    (set_last_weather_poll now s, true)
  else (s, false).

(** Lines 251-257. *)
Definition poll_commute (cfg : Config) (now : Q) (fetch : option Q)
  (s : RuntimeState) : RuntimeState * bool :=
  if Qltb TRAFFIC_POLL_SEC (now - last_traffic_poll s) then
    let keyed := negb (ORS_API_KEY cfg =? "") in
    let s := if keyed then
               match fetch with
               | Some m => set_commute_min m s
               | None => s
               end
             else s in
    (set_last_traffic_poll now s, keyed)
  else (s, false).

(** Lines 259-270: the six gauge values, in the order they are sent. *)
Definition gauges (cfg : Config) (now water_clock : Q) (s : RuntimeState)
  : result (list Z) :=
  let kind := wmo_to_kind (wcode s) (wind_mph s) in
  let g_weather := weather_value kind in
  let g_temp := temp_value (temp_f s) in
  g_water <- water_value water_clock (last_water_ts s) ;;
  g_stand <- stand_value (stand_ms s) (total_ms s) ;;
  let seconds_left := event_target_epoch cfg - now in
  g_event <- event_value seconds_left ;;
  g_comm <- commute_value (commute_min s) ;;
  Ok [g_weather; g_temp; g_water; g_stand; g_event; g_comm].

(** Lines 273-285, without the text of the status line. *)
Definition report (now : Q) (s : RuntimeState) : RuntimeState * bool :=
  if Qle_bool PRINT_EVERY_SEC (now - last_print s)
  then (set_last_print now s, true)
  else (s, false).

(** One iteration of the loop, lines 220-285. *)
Definition tick (cfg : Config) (i : TickInput) (s : RuntimeState)
  : result (RuntimeState * TickOutput) :=
  let now := in_now i in
  let s := accumulate now s in
  let '(s, unread) := drain (in_waiting i) s in
  let '(s, wx) := poll_weather now (in_weather i) s in
  let '(s, cm) := poll_commute cfg now (in_commute i) s in
  vals <- gauges cfg now (in_water_clock i) s ;;
  let written := send_update vals in
  let '(s, rep) := report now s in
  Ok (s, mkOutput written unread wx cm rep).

(** The loop itself: the iterations for a finite list of inputs, with
    everything written to the port so far. *)
Fixpoint run (cfg : Config) (inputs : list TickInput) (s : RuntimeState)
  : result (RuntimeState * list string) :=
  match inputs with
  | [] => Ok (s, [])
  | i :: inputs' =>
      r <- tick cfg i s ;;
      rest <- run cfg inputs' (fst r) ;;
      Ok (fst rest, out_written (snd r) :: snd rest)
  end.

(** ** The classifier as the specification words it

    A second definition, written from the specification's priority list
    (thunder, snow, rain, clear, generic cloud, anything else) followed by
    its two overrides in their stated order.  It is compared with
    [wmo_to_kind] below. *)

Definition spec_base_category (wcode : Z) : string :=
  if code_in wcode [95; 96; 99]%Z then "thunder"
  else if code_in wcode [71; 73; 75; 77; 85; 86]%Z then "snow"
  else if code_in wcode [51; 53; 55; 56; 57; 61; 63; 65; 66; 67; 80; 81; 82]%Z
       then "rain"
  else if code_in wcode [0]%Z then "sunny"
  else if code_in wcode [1; 2; 3; 45; 48]%Z then "cloudy"
  else "cloudy".

Definition spec_wind_override (wind_mph : Q) (kind : string) : string :=
  if Qle_bool 20 wind_mph && negb (kind =? "thunder") then "wind" else kind.

Definition spec_severe_override (wcode : Z) (kind : string) : string :=
  if code_in wcode [96; 99]%Z then "severe" else kind.

Definition spec_classify (wcode : Z) (wind_mph : Q) : string :=
  spec_severe_override wcode
    (spec_wind_override wind_mph (spec_base_category wcode)).

(** ** Predicates the statements use *)

(** Order of two anchors by their x. *)
Definition x_le (p q : point) : Prop := fst p <= fst q.

(** No two anchors of the list have the same x. *)
Fixpoint unique_xs (points : list point) : bool :=
  match points with
  | [] => true
  | p :: l =>
      negb (existsb (fun q => Qeq_bool (fst q) (fst p)) l) && unique_xs l
  end.

(** The anchors of the hydration curve, as written in [water_value]. *)
Definition water_anchors : list point :=
  [(0, 95); (1, 70); (2, 52); (3, 25); (4, 5)].

(** The outbound line for six values, as the specification writes it. *)
Definition frame_text (w t h p e c : Z) : string :=
  "U," ++ py_str w ++ "," ++ py_str t ++ "," ++ py_str h ++ ","
       ++ py_str p ++ "," ++ py_str e ++ "," ++ py_str c ++ newline.

Definition in_score_range (v : Z) : Prop := (0 <= v <= 100)%Z.

Definition is_frame_line (line : string) : Prop :=
  exists w t h p e c : Z,
    line = frame_text w t h p e c /\
    Forall in_score_range [w; t; h; p; e; c].

(** The invariant of the two time counters. *)
Definition accumulators_ok (s : RuntimeState) : Prop :=
  0 <= stand_ms s /\ stand_ms s <= total_ms s.

(** A waiting line that is empty once stripped. *)
Definition blank (l : inbound) : bool := strip (fst l) =? "".

(** The effect of one waiting line that is not blank. *)
Definition handle (s : RuntimeState) (l : inbound) : RuntimeState :=
  handle_line (strip (fst l)) (snd l) s.

(** The state and the start-up values of the end-to-end example, at an
    arbitrary instant. *)
Definition example_now : Q := 1700000000.

Definition example_config : Config :=
  mkConfig "key" (example_now + 25200).

Definition example_state : RuntimeState :=
  mkState (example_now - 3600) false 500000 1000000 example_now
          72 1%Z 5 20 example_now example_now example_now.

(** Results compared up to equality of rationals. *)
Definition result_rel {A : Type} (R : A -> A -> Prop) (r1 r2 : result A)
  : Prop :=
  match r1, r2 with
  | Ok a, Ok b => R a b
  | Raise e1, Raise e2 => e1 = e2
  | _, _ => False
  end.

Definition option_Qeq (o1 o2 : option Q) : Prop :=
  match o1, o2 with
  | Some a, Some b => a == b
  | None, None => True
  | _, _ => False
  end.

(** Strict order of two anchors by their x. *)
Definition x_lt (p q : point) : Prop := fst p < fst q.

(** How many times a character occurs in a text. *)
Fixpoint count_char (c : ascii) (s : string) : nat :=
  match s with
  | EmptyString => O
  | String c' s' => ((if Ascii.eqb c c' then 1 else 0) + count_char c s')%nat
  end.

(** A test that holds for every score from 0 to 100. *)
Definition all_scores (f : Z -> bool) : bool :=
  forallb f (map Z.of_nat (seq 0 101)).

(** The clock readings of a run never go backwards, starting from [t]. *)
Fixpoint clock_steady (t : Q) (inputs : list TickInput) : Prop :=
  match inputs with
  | [] => True
  | i :: rest => t <= in_now i /\ clock_steady (in_now i) rest
  end.

(** The last clock reading of a run that starts at [t]. *)
Fixpoint last_now (t : Q) (inputs : list TickInput) : Q :=
  match inputs with
  | [] => t
  | i :: rest => last_now (in_now i) rest
  end.

(** The seconds that the accumulation step counts over a run: the sum of
    the positive differences between consecutive clock readings. *)
Fixpoint counted_seconds (t : Q) (inputs : list TickInput) : Q :=
  match inputs with
  | [] => 0
  | i :: rest =>
      (if Qltb 0 (in_now i - t) then in_now i - t else 0)
      + counted_seconds (in_now i) rest
  end.

(** No line is waiting in any iteration of the run. *)
Definition port_silent (inputs : list TickInput) : Prop :=
  Forall (fun i => in_waiting i = []) inputs.


(** A waiting line that is the hydration marker once stripped. *)
Definition is_water (l : inbound) : bool := strip (fst l) =? "B,WATER".

(** ** The countdown label (main.py, lines 180-187)

    [format_1f] stands for Python's formatting of a float with one decimal
    ([f"{hrs:.1f}"]); the label is defined, and its properties hold, for
    any such function. *)
Definition event_short (format_1f : Q -> string) (seconds_left : Q) : string :=
  if Qle_bool seconds_left 0 then "NOW"
  else
    let mins := seconds_left / 60 in
    if Qltb mins 60 then (py_str (py_round mins) ++ "m")%string
    else
      let hrs := mins / 60 in
      (format_1f hrs ++ "h")%string.

(** * Properties *)

Open Scope list_scope.

(** ** Proof steps that recur *)

(** Case analysis on a weather code, one listed code at a time. *)
Ltac split_on_code wcode :=
  repeat match goal with
  | |- context [(wcode =? ?k)%Z] =>
      destruct (Z.eqb_spec wcode k);
      [subst wcode; cbn;
       repeat match goal with
       | |- context [Qle_bool ?a ?b] => destruct (Qle_bool a b)
       end; reflexivity|]
  end.

(** Case analysis on the tests of one step of the loop. *)
Ltac by_cases_on_step :=
  repeat match goal with
  | |- context [if ?b then _ else _] => destruct b eqn:?
  | |- context [match ?o with Some _ => _ | None => _ end] => destruct o
  | |- context [let '(_, _) := ?w in _] => destruct w as [[? ?] ?]
  end;
  simpl; repeat split; solve [reflexivity | congruence].


(** ** Rounding and clamping *)

Lemma py_round_inject_Z (z : Z) : py_round (inject_Z z) = z.
Proof.
  unfold py_round.
  rewrite Qfloor_Z.
  assert (H : Qcompare (inject_Z z - inject_Z z) (1 # 2) = Lt).
  { apply Qlt_alt. setoid_replace (inject_Z z - inject_Z z) with 0 by ring.
    reflexivity. }
  now rewrite H.
Qed.

(** [py_round] is a rounding to a nearest integer, and of the two nearest
    integers of a half it takes the even one. *)
Lemma py_round_nearest (x : Q) :
  - (1 # 2) <= x - inject_Z (py_round x) <= 1 # 2.
Proof.
  unfold py_round.
  pose proof (Qfloor_le x) as Hlo. pose proof (Qlt_floor x) as Hhi.
  rewrite inject_Z_plus in Hhi.
  change (inject_Z 1) with 1 in Hhi.
  destruct (Qcompare (x - inject_Z (Qfloor x)) (1 # 2)) eqn:E.
  - apply Qeq_alt in E.
    destruct (Z.even (Qfloor x));
      rewrite ?inject_Z_plus; change (inject_Z 1) with 1; lra.
  - apply Qlt_alt in E. lra.
  - apply Qgt_alt in E. rewrite inject_Z_plus.
    change (inject_Z 1) with 1. lra.
Qed.

(** A rational strictly within a half of an integer rounds to it. *)
Lemma py_round_unique (x : Q) (z : Z) :
  inject_Z z - (1 # 2) < x -> x < inject_Z z + (1 # 2) -> py_round x = z.
Proof.
  intros Hlo Hhi.
  pose proof (py_round_nearest x) as [N1 N2].
  assert (A : inject_Z (py_round x) < inject_Z (z + 1)).
  { rewrite inject_Z_plus. change (inject_Z 1) with 1. lra. }
  assert (B : inject_Z z < inject_Z (py_round x + 1)).
  { rewrite inject_Z_plus. change (inject_Z 1) with 1. lra. }
  rewrite <- Zlt_Qlt in A, B. lia.
Qed.

Example py_round_ties :
  py_round (5 # 2) = 2%Z /\ py_round (7 # 2) = 4%Z /\
  py_round (-5 # 2) = (-2)%Z /\ py_round (149 # 2) = 74%Z.
Proof. repeat split. Qed.

Lemma clamp100_range (x : Q) : (0 <= clamp100 x <= 100)%Z.
Proof. unfold clamp100. lia. Qed.

Lemma clamp100_inject_Z (z : Z) :
  clamp100 (inject_Z z) = Z.max 0 (Z.min 100 z).
Proof. unfold clamp100. now rewrite py_round_inject_Z. Qed.

Lemma clamp100_fixed (z : Z) :
  (0 <= z <= 100)%Z -> clamp100 (inject_Z z) = z.
Proof. intros H. rewrite clamp100_inject_Z. lia. Qed.

(** C9. [clamp100] is idempotent: clamping a value that was already clamped
    gives it back, for every rational input; and its result always lies
    between 0 and 100. *)
Theorem C9_clamp100_idempotent_bounded :
  forall x : Q,
    clamp100 (inject_Z (clamp100 x)) = clamp100 x /\
    (0 <= clamp100 x <= 100)%Z.
Proof.
  intros x. split.
  - apply clamp100_fixed, clamp100_range.
  - apply clamp100_range.
Qed.

(** ** Comparisons on rationals *)

Lemma Qle_bool_false (a b : Q) : Qle_bool a b = false <-> b < a.
Proof.
  split; intros H.
  - apply Qnot_le_lt. intros C. apply Qle_bool_iff in C. congruence.
  - destruct (Qle_bool a b) eqn:E; [|reflexivity].
    apply Qle_bool_iff in E. exfalso. apply (Qlt_not_le _ _ H E).
Qed.

Lemma Qltb_true (a b : Q) : Qltb a b = true <-> a < b.
Proof.
  unfold Qltb. rewrite negb_true_iff. apply Qle_bool_false.
Qed.

Lemma Qltb_false (a b : Q) : Qltb a b = false <-> b <= a.
Proof.
  unfold Qltb. rewrite negb_false_iff. apply Qle_bool_iff.
Qed.

Lemma Qeq_bool_false (a b : Q) : Qeq_bool a b = false <-> ~ a == b.
Proof.
  split; intros H.
  - intros C. apply Qeq_bool_iff in C. congruence.
  - destruct (Qeq_bool a b) eqn:E; [|reflexivity].
    apply Qeq_bool_iff in E. contradiction.
Qed.

#[local] Instance Qltb_comp : Proper (Qeq ==> Qeq ==> eq) Qltb.
Proof. intros a a' Ha b b' Hb. unfold Qltb. now rewrite Ha, Hb. Qed.

#[local] Instance py_round_comp : Proper (Qeq ==> eq) py_round.
Proof.
  intros x y H. unfold py_round.
  rewrite (Qfloor_comp _ _ H).
  assert (E : x - inject_Z (Qfloor y) == y - inject_Z (Qfloor y))
    by (rewrite H; reflexivity).
  now rewrite (Qcompare_comp _ _ E _ _ (Qeq_refl _)).
Qed.

#[local] Instance clamp100_comp : Proper (Qeq ==> eq) clamp100.
Proof. intros x y H. unfold clamp100. now rewrite H. Qed.

(** ** The sort inside [piecewise_linear] *)

Lemma insert_by_x_perm (p : point) (l : list point) :
  Permutation (p :: l) (insert_by_x p l).
Proof.
  induction l as [|q l IH]; simpl.
  - apply Permutation_refl.
  - destruct (Qle_bool (fst p) (fst q)).
    + apply Permutation_refl.
    + eapply perm_trans; [apply perm_swap|].
      now apply perm_skip.
Qed.

Lemma sorted_by_x_perm (points : list point) :
  Permutation points (sorted_by_x points).
Proof.
  induction points as [|p l IH]; simpl.
  - constructor.
  - eapply perm_trans; [apply perm_skip, IH|].
    apply insert_by_x_perm.
Qed.

Lemma sorted_by_x_In (points : list point) (p : point) :
  In p (sorted_by_x points) <-> In p points.
Proof.
  split; apply Permutation_in.
  - apply Permutation_sym, sorted_by_x_perm.
  - apply sorted_by_x_perm.
Qed.

Lemma insert_by_x_sorted (p : point) (l : list point) :
  StronglySorted x_le l -> StronglySorted x_le (insert_by_x p l).
Proof.
  induction 1 as [|q l Hl IH Hq]; simpl.
  - repeat constructor.
  - destruct (Qle_bool (fst p) (fst q)) eqn:E.
    + apply Qle_bool_iff in E.
      constructor; [now constructor|].
      constructor; [exact E|].
      eapply Forall_impl; [|exact Hq].
      intros r Hr. unfold x_le in *. eapply Qle_trans; eassumption.
    + apply Qle_bool_false in E.
      constructor; [exact IH|].
      eapply Permutation_Forall; [apply insert_by_x_perm|].
      constructor; [|exact Hq].
      now apply Qlt_le_weak.
Qed.

Lemma sorted_by_x_sorted (points : list point) :
  StronglySorted x_le (sorted_by_x points).
Proof.
  induction points as [|p l IH]; simpl.
  - constructor.
  - now apply insert_by_x_sorted.
Qed.

Lemma sorted_by_x_nonempty (points : list point) :
  points <> [] -> sorted_by_x points <> [].
Proof.
  intros H C. apply H.
  apply Permutation_nil. rewrite <- C.
  apply Permutation_sym, sorted_by_x_perm.
Qed.

(** The sort is stable: the points that have a given x come out in the
    order they went in. *)
Lemma insert_by_x_filter (k : Q) (p : point) (l : list point) :
  filter (fun q => Qeq_bool (fst q) k) (insert_by_x p l)
  = filter (fun q => Qeq_bool (fst q) k) (p :: l).
Proof.
  induction l as [|q l IH]; [reflexivity|].
  cbn [insert_by_x]. destruct (Qle_bool (fst p) (fst q)) eqn:E; [reflexivity|].
  apply Qle_bool_false in E.
  cbn [filter] in *. rewrite IH.
  destruct (Qeq_bool (fst p) k) eqn:Ep; [|reflexivity].
  destruct (Qeq_bool (fst q) k) eqn:Eq; [|reflexivity].
  apply Qeq_bool_iff in Ep, Eq. rewrite Ep, Eq in E.
  now apply Qlt_irrefl in E.
Qed.

Lemma sorted_by_x_stable (k : Q) (points : list point) :
  filter (fun q => Qeq_bool (fst q) k) (sorted_by_x points)
  = filter (fun q => Qeq_bool (fst q) k) points.
Proof.
  induction points as [|p l IH]; [reflexivity|].
  cbn [sorted_by_x fold_right]. rewrite insert_by_x_filter.
  cbn [filter]. fold (sorted_by_x l). now rewrite IH.
Qed.

Lemma StronglySorted_split (pre : list point) (a : point) (post : list point) :
  StronglySorted x_le (pre ++ a :: post) ->
  Forall (fun p => fst p <= fst a) pre /\
  Forall (fun q => fst a <= fst q) post.
Proof.
  induction pre as [|p pre IH]; simpl; intros H.
  - split; [constructor|]. now inversion H.
  - inversion H as [|? ? Hs Hf]; subst.
    destruct (IH Hs) as [H1 H2]. split; [|exact H2].
    constructor; [|exact H1].
    rewrite Forall_forall in Hf. apply Hf.
    apply in_or_app. right. now left.
Qed.

Lemma sorted_last_max (l : list point) (d : point) :
  StronglySorted x_le l -> forall q, In q l -> fst q <= fst (last l d).
Proof.
  induction 1 as [|p l Hs IH Hf]; intros q Hin; [contradiction|].
  destruct l as [|p' l'].
  - destruct Hin as [->|[]]. simpl. apply Qle_refl.
  - change (last (p :: p' :: l') d) with (last (p' :: l') d).
    destruct Hin as [->|Hin].
    + eapply Qle_trans; [|apply IH; now left].
      rewrite Forall_forall in Hf. apply Hf. now left.
    + now apply IH.
Qed.

Lemma last_In (l : list point) (d : point) : l <> [] -> In (last l d) l.
Proof.
  induction l as [|p l IH]; intros H; [contradiction|].
  destruct l as [|p' l']; [now left|].
  right. apply IH. discriminate.
Qed.

Lemma StronglySorted_app_r (l1 l2 : list point) :
  StronglySorted x_le (l1 ++ l2) -> StronglySorted x_le l2.
Proof.
  induction l1 as [|p l1 IH]; simpl; intros H; [exact H|].
  apply IH. now inversion H.
Qed.



(** ** The interpolation loop *)

Lemma py_div_ok (a b : Q) : ~ b == 0 -> py_div a b = Ok (a / b).
Proof.
  intros H. unfold py_div. apply Qeq_bool_false in H. now rewrite H.
Qed.

(** The guard [x1 != x0] is what keeps the division from raising. *)
Lemma segment_t_ok (x x0 x1 : Q) :
  exists t,
    (if negb (Qeq_bool x1 x0) then py_div (x - x0) (x1 - x0) else Ok 0) = Ok t.
Proof.
  destruct (Qeq_bool x1 x0) eqn:E; simpl.
  - now exists 0.
  - exists ((x - x0) / (x1 - x0)). apply py_div_ok.
    apply Qeq_bool_false in E. intros C. apply E.
    setoid_replace x1 with ((x1 - x0) + x0) by ring. rewrite C. ring.
Qed.

Lemma scan_segments_total (x : Q) (points : list point) :
  exists r, scan_segments x points = Ok r.
Proof.
  induction points as [|[x0 y0] l IH]; [now exists None|].
  destruct l as [|[x1 y1] l']; [now exists None|].
  simpl. destruct (Qle_bool x0 x && Qle_bool x x1).
  - destruct (segment_t_ok x x0 x1) as [t Ht]. rewrite Ht. simpl.
    now eexists.
  - exact IH.
Qed.

(** [piecewise_linear] raises only on an empty list of anchors. *)
Lemma piecewise_linear_total (x : Q) (points : list point) :
  points <> [] -> exists y, piecewise_linear x points = Ok y.
Proof.
  intros H. unfold piecewise_linear.
  destruct (sorted_by_x points) as [|p0 l] eqn:E.
  - now apply sorted_by_x_nonempty in H.
  - destruct (Qle_bool x (fst p0)); [now eexists|].
    destruct (Qle_bool (fst (last (p0 :: l) p0)) x); [now eexists|].
    destruct (scan_segments_total x (p0 :: l)) as [r Hr]. rewrite Hr.
    destruct r; simpl; now eexists.
Qed.


(** ** [piecewise_linear] at and around the anchors *)

Section Piecewise.

Variable points : list point.

(** At or below the first sorted anchor: its y. *)
Lemma piecewise_linear_low (x : Q) (p0 : point) (l : list point) :
  sorted_by_x points = p0 :: l ->
  x <= fst p0 ->
  piecewise_linear x points = Ok (snd p0).
Proof.
  intros Hs Hx. unfold piecewise_linear. rewrite Hs.
  apply Qle_bool_iff in Hx. now rewrite Hx.
Qed.

(** Above the first sorted anchor and at or above the last: the last y. *)
Lemma piecewise_linear_high (x : Q) (p0 : point) (l : list point) :
  sorted_by_x points = p0 :: l ->
  fst p0 < x ->
  fst (last (p0 :: l) p0) <= x ->
  piecewise_linear x points = Ok (snd (last (p0 :: l) p0)).
Proof.
  intros Hs H0 Hx. unfold piecewise_linear. rewrite Hs.
  apply Qle_bool_false in H0. rewrite H0.
  apply Qle_bool_iff in Hx. now rewrite Hx.
Qed.


End Piecewise.

(** ** Anchors with unique x *)

Lemma unique_xs_inj (points : list point) :
  unique_xs points = true ->
  forall p q, In p points -> In q points -> fst p == fst q -> p = q.
Proof.
  induction points as [|r l IH]; intros U p q Hp Hq E; [contradiction|].
  simpl in U. apply andb_true_iff in U. destruct U as [U1 U2].
  apply negb_true_iff in U1.
  assert (N : forall s, In s l -> ~ fst s == fst r).
  { intros s Hs C. apply Qeq_bool_iff in C.
    assert (X : existsb (fun q0 => Qeq_bool (fst q0) (fst r)) l = true)
      by (apply existsb_exists; now exists s).
    congruence. }
  destruct Hp as [->|Hp], Hq as [->|Hq].
  - reflexivity.
  - exfalso. apply (N q Hq). now symmetry.
  - exfalso. now apply (N p Hp).
  - now apply IH.
Qed.




Section UniqueAnchors.

Variable points : list point.
Hypothesis unique : unique_xs points = true.




End UniqueAnchors.

(** ** Anchors that share an x *)





(** ** Weather classifier *)

Lemma wmo_to_kind_refines_spec (wcode : Z) (wind_mph : Q) :
  wmo_to_kind wcode wind_mph = spec_classify wcode wind_mph.
Proof.
  unfold wmo_to_kind, spec_classify, spec_severe_override, spec_wind_override,
    spec_base_category, code_in, existsb.
  split_on_code wcode.
  reflexivity.
Qed.

Lemma wmo_to_kind_severe (wcode : Z) (wind_mph : Q) :
  wcode = 96%Z \/ wcode = 99%Z -> wmo_to_kind wcode wind_mph = "severe".
Proof.
  intros [->| ->]; unfold wmo_to_kind; cbn;
    destruct (Qle_bool 20 wind_mph); reflexivity.
Qed.

(** C2. For every weather code and wind speed the classifier of the source
    computes what the specification's procedure computes: the base category
    by the priority list, then the wind override (wind of 20 mph or more on
    a category other than thunder), then the severe override (codes 96 and
    99).  Codes 96 and 99 give "severe" whatever the wind, and the three
    sample readings score 95, 10 and 20. *)
Theorem C2_weather_classifier :
  (forall (wcode : Z) (wind_mph : Q),
     wmo_to_kind wcode wind_mph = spec_classify wcode wind_mph) /\
  (forall (wcode : Z) (wind_mph : Q),
     wcode = 96%Z \/ wcode = 99%Z ->
     wmo_to_kind wcode wind_mph = "severe") /\
  (wmo_to_kind 0 5 = "sunny" /\ weather_value (wmo_to_kind 0 5) = 95%Z) /\
  (wmo_to_kind 96 5 = "severe" /\ weather_value (wmo_to_kind 96 5) = 10%Z) /\
  (wmo_to_kind 3 25 = "wind" /\ weather_value (wmo_to_kind 3 25) = 20%Z).
Proof.
  split; [exact wmo_to_kind_refines_spec|].
  split; [exact wmo_to_kind_severe|].
  repeat split; reflexivity.
Qed.

Lemma C2_weather_classifier_witness :
  wmo_to_kind 99 30 = "severe" /\ wmo_to_kind 99 30 = spec_classify 99 30.
Proof.
  split.
  - apply (proj1 (proj2 C2_weather_classifier) 99%Z 30). now right.
  - apply (proj1 C2_weather_classifier).
Defined.

(** ** The gauges do not depend on how a rational is written *)

Lemma scan_segments_comp (x x' : Q) (points : list point) :
  x == x' ->
  result_rel option_Qeq (scan_segments x points) (scan_segments x' points).
Proof.
  intros H. induction points as [|[x0 y0] l IH]; [exact I|].
  destruct l as [|[x1 y1] l']; [exact I|].
  simpl.
  rewrite (Qleb_comp _ _ (Qeq_refl x0) _ _ H).
  rewrite (Qleb_comp _ _ H _ _ (Qeq_refl x1)).
  destruct (Qle_bool x0 x' && Qle_bool x' x1); [|exact IH].
  destruct (Qeq_bool x1 x0) eqn:E; simpl.
  - reflexivity.
  - unfold py_div. destruct (Qeq_bool (x1 - x0) 0); simpl; [reflexivity|].
    unfold lerp. now rewrite H.
Qed.

Lemma piecewise_linear_comp (x x' : Q) (points : list point) :
  x == x' ->
  result_rel Qeq (piecewise_linear x points) (piecewise_linear x' points).
Proof.
  intros H. unfold piecewise_linear.
  destruct (sorted_by_x points) as [|p0 l]; [reflexivity|].
  rewrite (Qleb_comp _ _ H _ _ (Qeq_refl (fst p0))).
  destruct (Qle_bool x' (fst p0)); [simpl; reflexivity|].
  rewrite (Qleb_comp _ _ (Qeq_refl (fst (last (p0 :: l) p0))) _ _ H).
  destruct (Qle_bool (fst (last (p0 :: l) p0)) x'); [simpl; reflexivity|].
  pose proof (scan_segments_comp x x' (p0 :: l) H) as S.
  destruct (scan_segments x (p0 :: l)) as [[y|]|e],
           (scan_segments x' (p0 :: l)) as [[y'|]|e'];
    simpl in *; try contradiction; try reflexivity; assumption.
Qed.

(** The common tail of the five curve gauges. *)
Lemma curve_comp (x x' : Q) (points : list point) :
  x == x' ->
  (y <- piecewise_linear x points ;; Ok (clamp100 y)) =
  (y <- piecewise_linear x' points ;; Ok (clamp100 y)).
Proof.
  intros H. pose proof (piecewise_linear_comp x x' points H) as P.
  destruct (piecewise_linear x points) as [y|e],
           (piecewise_linear x' points) as [y'|e'];
    simpl in *; try contradiction.
  - now rewrite P.
  - now subst.
Qed.

Lemma curve_total (x : Q) (points : list point) :
  points <> [] ->
  exists v, (y <- piecewise_linear x points ;; Ok (clamp100 y)) = Ok v /\
            (0 <= v <= 100)%Z.
Proof.
  intros H. destruct (piecewise_linear_total x points H) as [y Hy].
  rewrite Hy. simpl. eexists. split; [reflexivity|apply clamp100_range].
Qed.

Lemma py_min_comp (a x x' : Q) : x == x' -> py_min a x == py_min a x'.
Proof.
  intros H. unfold py_min. rewrite (Qltb_comp _ _ H _ _ (Qeq_refl a)).
  now destruct (Qltb x' a).
Qed.

Lemma py_max_comp (a x x' : Q) : x == x' -> py_max a x == py_max a x'.
Proof.
  intros H. unfold py_max. rewrite (Qltb_comp _ _ (Qeq_refl a) _ _ H).
  now destruct (Qltb a x').
Qed.

Lemma wmo_to_kind_comp (wcode : Z) (w w' : Q) :
  w == w' -> wmo_to_kind wcode w = wmo_to_kind wcode w'.
Proof.
  intros H. unfold wmo_to_kind.
  now rewrite (Qleb_comp _ _ (Qeq_refl 20) _ _ H).
Qed.

Lemma temp_value_comp (t t' : Q) : t == t' -> temp_value t = temp_value t'.
Proof. intros H. unfold temp_value. now rewrite H. Qed.

Lemma water_value_comp (clock last clock' last' : Q) :
  clock - last == clock' - last' ->
  water_value clock last = water_value clock' last'.
Proof.
  intros H. unfold water_value.
  assert (E : (clock - last) / 3600 == (clock' - last') / 3600)
    by now rewrite H.
  rewrite (Qleb_comp _ _ (Qeq_refl 4) _ _ E).
  destruct (Qle_bool 4 ((clock' - last') / 3600)); [reflexivity|].
  now apply curve_comp.
Qed.

Lemma stand_value_comp (a b a' b' : Q) :
  a == a' -> b == b' -> stand_value a b = stand_value a' b'.
Proof.
  intros Ha Hb. unfold stand_value.
  rewrite (Qleb_comp _ _ Hb _ _ (Qeq_refl 0)).
  destruct (Qle_bool b' 0); [reflexivity|].
  unfold py_div. rewrite (Qeqb_comp _ _ Hb _ _ (Qeq_refl 0)).
  destruct (Qeq_bool b' 0); [reflexivity|]. simpl.
  apply curve_comp. apply py_max_comp, py_min_comp. now rewrite Ha, Hb.
Qed.

Lemma event_value_comp (t t' : Q) : t == t' -> event_value t = event_value t'.
Proof.
  intros H. unfold event_value.
  assert (E : t / 3600 == t' / 3600) by now rewrite H.
  rewrite (Qleb_comp _ _ E _ _ (Qeq_refl 0)).
  rewrite (Qleb_comp _ _ (Qeq_refl 12) _ _ E).
  destruct (Qle_bool (t' / 3600) 0); [reflexivity|].
  destruct (Qle_bool 12 (t' / 3600)); [reflexivity|].
  now apply curve_comp.
Qed.

Lemma commute_value_comp (m m' : Q) :
  m == m' -> commute_value m = commute_value m'.
Proof.
  intros H. unfold commute_value.
  apply curve_comp. now apply py_max_comp, py_min_comp.
Qed.

(** ** Hydration *)

Lemma water_value_at (clock last elapsed : Q) :
  clock - last == elapsed ->
  water_value clock last = water_value elapsed 0.
Proof.
  intros H. apply water_value_comp. rewrite H. ring.
Qed.

(** One hour after the last hydration event, and for the hundred seconds
    that follow, the score is 70: the curve has only dropped from 70 to
    69.5 by then. *)
Lemma water_value_second_hour (clock t0 : Q) :
  3600 <= clock - t0 -> clock - t0 < 3700 ->
  water_value clock t0 = Ok 70%Z.
Proof.
  intros Hlo Hhi.
  rewrite (water_value_at clock t0 (clock - t0)) by reflexivity.
  set (e := clock - t0) in *.
  unfold water_value.
  set (h := (e - 0) / 3600).
  assert (Hh : 1 <= h /\ h < 37 # 36).
  { unfold h. split.
    - apply Qle_shift_div_l; [reflexivity|lra].
    - apply Qlt_shift_div_r; [reflexivity|lra]. }
  destruct Hh as [H1 H2].
  assert (E4 : Qle_bool 4 h = false) by (apply Qle_bool_false; lra).
  rewrite E4. unfold piecewise_linear.
  replace (sorted_by_x [(0, 95); (1, 70); (2, 52); (3, 25); (4, 5)])
    with [(0, 95); (1, 70); (2, 52); (3, 25); (4, 5)] by reflexivity.
  cbn [fst snd List.last].
  assert (E0 : Qle_bool h 0 = false) by (apply Qle_bool_false; lra).
  rewrite E0, E4.
  cbn [scan_segments].
  assert (E0' : Qle_bool 0 h = true) by (apply Qle_bool_iff; lra).
  assert (E1' : Qle_bool 1 h = true) by (apply Qle_bool_iff; lra).
  assert (E2 : Qle_bool h 2 = true) by (apply Qle_bool_iff; lra).
  rewrite E0', E1', E2.
  destruct (Qle_bool h 1) eqn:E1.
  - apply Qle_bool_iff in E1. simpl. f_equal.
    unfold clamp100. rewrite (py_round_unique _ 70); [reflexivity| |];
      unfold lerp; change (inject_Z 70) with 70;
      setoid_replace ((h - 0) / (1 - 0)) with h by field; lra.
  - apply Qle_bool_false in E1. simpl. f_equal.
    unfold clamp100. rewrite (py_round_unique _ 70); [reflexivity| |];
      unfold lerp; change (inject_Z 70) with 70;
      setoid_replace ((h - 1) / (2 - 1)) with (h - 1) by field; lra.
Qed.

(** ** The assembled frame *)

Lemma gauges_comp (cfg : Config) (now wclock : Q) (s : RuntimeState)
  (t w elapsed st tot left m : Q) :
  temp_f s == t -> wind_mph s == w ->
  wclock - last_water_ts s == elapsed ->
  stand_ms s == st -> total_ms s == tot ->
  event_target_epoch cfg - now == left ->
  commute_min s == m ->
  gauges cfg now wclock s =
  (g_water <- water_value elapsed 0 ;;
   g_stand <- stand_value st tot ;;
   g_event <- event_value left ;;
   g_comm <- commute_value m ;;
   Ok [weather_value (wmo_to_kind (wcode s) w); temp_value t;
       g_water; g_stand; g_event; g_comm]).
Proof.
  intros Ht Hw He Hs Htot Hl Hm. unfold gauges.
  rewrite (wmo_to_kind_comp _ _ _ Hw), (temp_value_comp _ _ Ht),
    (water_value_at _ _ _ He), (stand_value_comp _ _ _ _ Hs Htot),
    (event_value_comp _ _ Hl), (commute_value_comp _ _ Hm).
  reflexivity.
Qed.

(** C4 (as amended).  With the cached weather (72 F, code 1, wind 5), the
    last hydration event one hour before the clock reading of
    [water_value] (or up to a hundred seconds more than an hour, which
    covers that reading being taken after [now]), 500000 ms standing out of
    1000000 ms, the event target seven hours ahead and a cached commute of
    20 minutes, the frame is weather 75, temperature 28, hydration 70,
    posture 10, event 75 (half-way between 70 at 6 h and 80 at 8 h) and
    commute 62 (65 - 35 * 2/27 on the 18-to-45 segment, rounded). *)
Theorem C4_end_to_end_frame :
  forall (cfg : Config) (now wclock : Q) (s : RuntimeState),
    temp_f s == 72 -> wcode s = 1%Z -> wind_mph s == 5 ->
    3600 <= wclock - last_water_ts s -> wclock - last_water_ts s < 3700 ->
    stand_ms s == 500000 -> total_ms s == 1000000 ->
    event_target_epoch cfg - now == 25200 ->
    commute_min s == 20 ->
    gauges cfg now wclock s = Ok [75; 28; 70; 10; 75; 62]%Z.
Proof.
  intros cfg now wclock s Ht Hc Hw Hlo Hhi Hs Htot Hl Hm.
  rewrite (gauges_comp cfg now wclock s _ _ _ _ _ _ _
             Ht Hw (Qeq_refl _) Hs Htot Hl Hm), Hc.
  rewrite water_value_second_hour by lra.
  reflexivity.
Qed.

Lemma C4_end_to_end_frame_witness :
  gauges example_config example_now example_now example_state
  = Ok [75; 28; 70; 10; 75; 62]%Z.
Proof.
  apply C4_end_to_end_frame; try reflexivity; vm_compute; discriminate.
Defined.

(** C4, the specification's frame is not the one computed: on the example
    state the frame differs from the listed one, and no reading of its two
    approximate entries within three units of 74 and of 58 fits, since the
    commute gauge reads 62. *)
Lemma C4_frame_counterexample :
  gauges example_config example_now example_now example_state
    <> Ok [75; 28; 70; 10; 74; 58]%Z /\
  ~ (exists e c : Z,
       gauges example_config example_now example_now example_state
       = Ok [75; 28; 70; 10; e; c]%Z /\
       (71 <= e <= 77)%Z /\ (55 <= c <= 61)%Z).
Proof.
  split.
  - vm_compute. discriminate.
  - intros (e & c & H & He & Hc). vm_compute in H.
    injection H as <- <-. lia.
Qed.

(** ** One iteration, step by step *)

Lemma tick_steps (cfg : Config) (i : TickInput) (s : RuntimeState) :
  let s1 := accumulate (in_now i) s in
  let d := drain (in_waiting i) s1 in
  let pw := poll_weather (in_now i) (in_weather i) (fst d) in
  let pc := poll_commute cfg (in_now i) (in_commute i) (fst pw) in
  let rp := report (in_now i) (fst pc) in
  tick cfg i s =
  (vals <- gauges cfg (in_now i) (in_water_clock i) (fst pc) ;;
   Ok (fst rp,
       mkOutput (send_update vals) (snd d) (snd pw) (snd pc) (snd rp))).
Proof.
  unfold tick. cbv zeta.
  destruct (drain (in_waiting i) (accumulate (in_now i) s)) as [s2 unread].
  simpl fst. simpl snd.
  destruct (poll_weather (in_now i) (in_weather i) s2) as [s3 wx].
  simpl fst. simpl snd.
  destruct (poll_commute cfg (in_now i) (in_commute i) s3) as [s4 cm].
  simpl fst. simpl snd.
  destruct (gauges cfg (in_now i) (in_water_clock i) s4) as [vals|e];
    [|reflexivity].
  simpl. now destruct (report (in_now i) s4).
Qed.

Lemma water_value_total (clock last : Q) :
  exists v, water_value clock last = Ok v /\ (0 <= v <= 100)%Z.
Proof.
  unfold water_value.
  destruct (Qle_bool 4 ((clock - last) / 3600)).
  - exists 5%Z. split; [reflexivity|lia].
  - apply curve_total. discriminate.
Qed.

Lemma stand_value_total (st tot : Q) :
  exists v, stand_value st tot = Ok v /\ (0 <= v <= 100)%Z.
Proof.
  unfold stand_value.
  destruct (Qle_bool tot 0) eqn:E.
  - exists 100%Z. split; [reflexivity|lia].
  - rewrite py_div_ok.
    + simpl. apply curve_total. discriminate.
    + apply Qle_bool_false in E. intros C. rewrite C in E.
      now apply Qlt_irrefl in E.
Qed.

Lemma event_value_total (left : Q) :
  exists v, event_value left = Ok v /\ (0 <= v <= 100)%Z.
Proof.
  unfold event_value.
  destruct (Qle_bool (left / 3600) 0).
  - exists 30%Z. split; [reflexivity|lia].
  - destruct (Qle_bool 12 (left / 3600)).
    + exists 90%Z. split; [reflexivity|lia].
    + apply curve_total. discriminate.
Qed.

Lemma commute_value_total (m : Q) :
  exists v, commute_value m = Ok v /\ (0 <= v <= 100)%Z.
Proof. unfold commute_value. apply curve_total. discriminate. Qed.

Lemma weather_value_range (kind : string) : (0 <= weather_value kind <= 100)%Z.
Proof. apply clamp100_range. Qed.

Lemma temp_value_range (t : Q) : (0 <= temp_value t <= 100)%Z.
Proof. apply clamp100_range. Qed.

(** The six values of a frame, each named by the function that makes it. *)
Lemma gauges_total (cfg : Config) (now wclock : Q) (s : RuntimeState) :
  exists h p e c : Z,
    water_value wclock (last_water_ts s) = Ok h /\
    stand_value (stand_ms s) (total_ms s) = Ok p /\
    event_value (event_target_epoch cfg - now) = Ok e /\
    commute_value (commute_min s) = Ok c /\
    gauges cfg now wclock s =
      Ok [weather_value (wmo_to_kind (wcode s) (wind_mph s));
          temp_value (temp_f s); h; p; e; c] /\
    (0 <= h <= 100)%Z /\ (0 <= p <= 100)%Z /\
    (0 <= e <= 100)%Z /\ (0 <= c <= 100)%Z.
Proof.
  destruct (water_value_total wclock (last_water_ts s)) as [h [Hh Rh]].
  destruct (stand_value_total (stand_ms s) (total_ms s)) as [p [Hp Rp]].
  destruct (event_value_total (event_target_epoch cfg - now)) as [e [He Re]].
  destruct (commute_value_total (commute_min s)) as [c [Hc Rc]].
  exists h, p, e, c. unfold gauges. rewrite Hh, Hp, He, Hc. simpl.
  repeat split; assumption || lia.
Qed.

(** No exception leaves an iteration. *)
Lemma tick_total (cfg : Config) (i : TickInput) (s : RuntimeState) :
  exists s' out, tick cfg i s = Ok (s', out).
Proof.
  rewrite tick_steps. cbv zeta.
  match goal with
  | |- context [gauges ?c ?n ?w ?st] =>
      destruct (gauges_total c n w st) as (h & p & e & c' & _ & _ & _ & _ & G & _)
  end.
  rewrite G. simpl. now eexists; eexists.
Qed.

(** ** The outbound line *)

Lemma append_assoc (a b c : string) :
  ((a ++ b) ++ c)%string = (a ++ (b ++ c))%string.
Proof.
  induction a as [|ch a IH]; simpl; [reflexivity|]. now rewrite IH.
Qed.

Lemma concat_cons (sep x y : string) (l : list string) :
  String.concat sep (x :: y :: l)
  = (x ++ sep ++ String.concat sep (y :: l))%string.
Proof. reflexivity. Qed.

Lemma concat_one (sep x : string) : String.concat sep [x] = x.
Proof. reflexivity. Qed.

Lemma send_update_text (w t h p e c : Z) :
  Forall in_score_range [w; t; h; p; e; c] ->
  send_update [w; t; h; p; e; c] = frame_text w t h p e c.
Proof.
  intros H.
  repeat match goal with
  | H : Forall _ (_ :: _) |- _ => inversion H; clear H; subst
  end.
  unfold send_update, frame_text, in_score_range in *. simpl map.
  rewrite !clamp100_fixed by assumption.
  rewrite !concat_cons, concat_one, !append_assoc. reflexivity.
Qed.

Lemma report_keeps (now : Q) (s : RuntimeState) :
  let s' := fst (report now s) in
  last_water_ts s' = last_water_ts s /\ standing s' = standing s /\
  stand_ms s' = stand_ms s /\ total_ms s' = total_ms s /\
  temp_f s' = temp_f s /\ wcode s' = wcode s /\ wind_mph s' = wind_mph s /\
  commute_min s' = commute_min s /\
  last_weather_poll s' = last_weather_poll s /\
  last_traffic_poll s' = last_traffic_poll s.
Proof.
  unfold report. destruct (Qle_bool PRINT_EVERY_SEC (now - last_print s));
    simpl; repeat split; reflexivity.
Qed.

Lemma tick_frame (cfg : Config) (i : TickInput) (s : RuntimeState) :
  exists (s' : RuntimeState) (out : TickOutput) (h p e c : Z),
    tick cfg i s = Ok (s', out) /\
    water_value (in_water_clock i) (last_water_ts s') = Ok h /\
    stand_value (stand_ms s') (total_ms s') = Ok p /\
    event_value (event_target_epoch cfg - in_now i) = Ok e /\
    commute_value (commute_min s') = Ok c /\
    out_written out =
      frame_text (weather_value (wmo_to_kind (wcode s') (wind_mph s')))
                 (temp_value (temp_f s')) h p e c /\
    Forall in_score_range
      [weather_value (wmo_to_kind (wcode s') (wind_mph s'));
       temp_value (temp_f s'); h; p; e; c].
Proof.
  rewrite tick_steps. cbv zeta.
  set (s4 := fst (poll_commute cfg (in_now i) (in_commute i) _)).
  destruct (gauges_total cfg (in_now i) (in_water_clock i) s4)
    as (h & p & e & c & Hh & Hp & He & Hc & G & Rh & Rp & Re & Rc).
  rewrite G. simpl bind.
  destruct (report_keeps (in_now i) s4)
    as (K1 & _ & K3 & K4 & K5 & K6 & K7 & K8 & _).
  eexists; eexists. exists h, p, e, c.
  split; [reflexivity|].
  rewrite K1, K3, K4, K5, K6, K7, K8. simpl out_written.
  assert (R : Forall in_score_range
                [weather_value (wmo_to_kind (wcode s4) (wind_mph s4));
                 temp_value (temp_f s4); h; p; e; c]).
  { repeat constructor; try assumption; try apply clamp100_range;
      unfold in_score_range; lia. }
  repeat (split; [assumption|]).
  split; [|exact R]. now apply send_update_text.
Qed.

Lemma run_frames (cfg : Config) (inputs : list TickInput) :
  forall s, exists s' lines,
    run cfg inputs s = Ok (s', lines) /\
    List.length lines = List.length inputs /\
    Forall is_frame_line lines.
Proof.
  induction inputs as [|i inputs IH]; intros s; simpl.
  - exists s, []. repeat split. constructor.
  - destruct (tick_frame cfg i s)
      as (s1 & out & h & p & e & c & T & _ & _ & _ & _ & W & R).
    rewrite T. simpl. destruct (IH s1) as (s' & lines & Hr & Hl & Hf).
    rewrite Hr. simpl. exists s', (out_written out :: lines).
    split; [reflexivity|]. split; [simpl; now rewrite Hl|].
    constructor; [|exact Hf].
    rewrite W. now repeat eexists.
Qed.

(** C1. Every iteration writes exactly one line to the port: "U,"
    followed by six decimal integers separated by commas and ended by a
    newline.  The six integers are, in this order, the weather,
    temperature, hydration, posture, event and commute gauges of the state
    the iteration has reached, and each lies between 0 and 100.  The same
    holds for every line of any run of iterations. *)
Theorem C1_outbound_line_format :
  (forall (cfg : Config) (i : TickInput) (s : RuntimeState),
     exists (s' : RuntimeState) (out : TickOutput) (h p e c : Z),
       tick cfg i s = Ok (s', out) /\
       water_value (in_water_clock i) (last_water_ts s') = Ok h /\
       stand_value (stand_ms s') (total_ms s') = Ok p /\
       event_value (event_target_epoch cfg - in_now i) = Ok e /\
       commute_value (commute_min s') = Ok c /\
       out_written out =
         frame_text (weather_value (wmo_to_kind (wcode s') (wind_mph s')))
                    (temp_value (temp_f s')) h p e c /\
       Forall in_score_range
         [weather_value (wmo_to_kind (wcode s') (wind_mph s'));
          temp_value (temp_f s'); h; p; e; c]) /\
  (forall (cfg : Config) (inputs : list TickInput) (s : RuntimeState),
     exists s' lines,
       run cfg inputs s = Ok (s', lines) /\
       List.length lines = List.length inputs /\
       Forall is_frame_line lines).
Proof.
  split.
  - exact tick_frame.
  - intros cfg inputs s. apply run_frames.
Qed.

(** The line of the end-to-end example, as it goes out. *)
Example tick_example_line :
  exists s' out,
    tick example_config (mkInput example_now [] None None example_now)
         example_state = Ok (s', out) /\
    out_written out = ("U,75,28,70,10,75,62" ++ newline)%string.
Proof.
  eexists. eexists. split.
  - vm_compute. reflexivity.
  - reflexivity.
Qed.

(** ** What each step of an iteration leaves alone *)

Lemma handle_line_keeps (line : string) (clock : Q) (s : RuntimeState) :
  let s' := handle_line line clock s in
  stand_ms s' = stand_ms s /\ total_ms s' = total_ms s /\
  temp_f s' = temp_f s /\ wcode s' = wcode s /\ wind_mph s' = wind_mph s /\
  commute_min s' = commute_min s /\
  last_weather_poll s' = last_weather_poll s /\
  last_traffic_poll s' = last_traffic_poll s.
Proof. unfold handle_line. by_cases_on_step. Qed.

Lemma drain_keeps (waiting : list inbound) :
  forall s,
    let s' := fst (drain waiting s) in
    stand_ms s' = stand_ms s /\ total_ms s' = total_ms s /\
    temp_f s' = temp_f s /\ wcode s' = wcode s /\ wind_mph s' = wind_mph s /\
    commute_min s' = commute_min s /\
    last_weather_poll s' = last_weather_poll s /\
    last_traffic_poll s' = last_traffic_poll s.
Proof.
  induction waiting as [|[raw clock] rest IH]; intros s; simpl.
  - repeat split; reflexivity.
  - destruct (strip raw =? ""); simpl; [repeat split; reflexivity|].
    destruct (handle_line_keeps (strip raw) clock s)
      as (H1 & H2 & H3 & H4 & H5 & H6 & H7 & H8).
    destruct (IH (handle_line (strip raw) clock s))
      as (I1 & I2 & I3 & I4 & I5 & I6 & I7 & I8).
    simpl in *.
    rewrite I1, I2, I3, I4, I5, I6, I7, I8.
    repeat split; assumption.
Qed.

Lemma accumulate_keeps (now : Q) (s : RuntimeState) :
  let s' := accumulate now s in
  temp_f s' = temp_f s /\ wcode s' = wcode s /\ wind_mph s' = wind_mph s /\
  commute_min s' = commute_min s /\
  last_weather_poll s' = last_weather_poll s /\
  last_traffic_poll s' = last_traffic_poll s /\
  standing s' = standing s /\ last_water_ts s' = last_water_ts s.
Proof. unfold accumulate. simpl. by_cases_on_step. Qed.

Lemma poll_weather_keeps (now : Q) (fetch : option (Q * Z * Q))
  (s : RuntimeState) :
  let s' := fst (poll_weather now fetch s) in
  stand_ms s' = stand_ms s /\ total_ms s' = total_ms s /\
  commute_min s' = commute_min s /\
  last_traffic_poll s' = last_traffic_poll s.
Proof. unfold poll_weather, set_weather. by_cases_on_step. Qed.

Lemma poll_commute_keeps (cfg : Config) (now : Q) (fetch : option Q)
  (s : RuntimeState) :
  let s' := fst (poll_commute cfg now fetch s) in
  stand_ms s' = stand_ms s /\ total_ms s' = total_ms s /\
  temp_f s' = temp_f s /\ wcode s' = wcode s /\ wind_mph s' = wind_mph s /\
  last_weather_poll s' = last_weather_poll s.
Proof. unfold poll_commute. by_cases_on_step. Qed.

(** The state an iteration ends in, as the composition of its steps. *)
Lemma tick_state (cfg : Config) (i : TickInput) (s s' : RuntimeState)
  (out : TickOutput) :
  tick cfg i s = Ok (s', out) ->
  let s1 := accumulate (in_now i) s in
  let d := drain (in_waiting i) s1 in
  let pw := poll_weather (in_now i) (in_weather i) (fst d) in
  let pc := poll_commute cfg (in_now i) (in_commute i) (fst pw) in
  s' = fst (report (in_now i) (fst pc)) /\
  out_unread out = snd d /\
  out_weather_called out = snd pw /\
  out_commute_called out = snd pc.
Proof.
  rewrite tick_steps. cbv zeta.
  destruct (gauges cfg (in_now i) (in_water_clock i) _); simpl; [|discriminate].
  intros H. injection H as <- <-. repeat split; reflexivity.
Qed.

(** ** Standing and total time *)

Lemma accumulate_counters (now : Q) (s : RuntimeState) :
  let dt := now - last_state_ts s in
  let s' := accumulate now s in
  (dt <= 0 -> stand_ms s' = stand_ms s /\ total_ms s' = total_ms s) /\
  (0 < dt ->
   total_ms s' = total_ms s + dt * 1000 /\
   stand_ms s' = if standing s then stand_ms s + dt * 1000 else stand_ms s).
Proof.
  cbv zeta. unfold accumulate. split; intros H.
  - apply Qltb_false in H. rewrite H. simpl. now split.
  - apply Qltb_true in H. rewrite H. simpl.
    destruct (standing s); simpl; now split.
Qed.

Lemma accumulate_invariant (now : Q) (s : RuntimeState) :
  let s' := accumulate now s in
  (accumulators_ok s -> accumulators_ok s') /\
  stand_ms s <= stand_ms s' /\ total_ms s <= total_ms s'.
Proof.
  cbv zeta. unfold accumulators_ok.
  destruct (accumulate_counters now s) as [Hz Hp].
  destruct (Qlt_le_dec 0 (now - last_state_ts s)) as [H|H].
  - destruct (Hp H) as [Et Es]. rewrite Et, Es.
    destruct (standing s); repeat split; intros; lra.
  - destruct (Hz H) as [Es Et]. rewrite Et, Es.
    repeat split; intros; lra.
Qed.

Lemma tick_counters (cfg : Config) (i : TickInput) (s s' : RuntimeState)
  (out : TickOutput) :
  tick cfg i s = Ok (s', out) ->
  stand_ms s' = stand_ms (accumulate (in_now i) s) /\
  total_ms s' = total_ms (accumulate (in_now i) s).
Proof.
  intros H. apply tick_state in H. cbv zeta in H. destruct H as (-> & _).
  match goal with
  | |- context [report ?n ?st] =>
      destruct (report_keeps n st) as (_ & _ & -> & -> & _)
  end.
  match goal with
  | |- context [poll_commute ?c ?n ?f ?st] =>
      destruct (poll_commute_keeps c n f st) as (-> & -> & _)
  end.
  match goal with
  | |- context [poll_weather ?n ?f ?st] =>
      destruct (poll_weather_keeps n f st) as (-> & -> & _)
  end.
  match goal with
  | |- context [drain ?w ?st] =>
      destruct (drain_keeps w st) as (-> & -> & _)
  end.
  now split.
Qed.

Lemma run_counters (cfg : Config) (inputs : list TickInput) :
  forall s s' lines,
    run cfg inputs s = Ok (s', lines) ->
    (accumulators_ok s -> accumulators_ok s') /\
    stand_ms s <= stand_ms s' /\ total_ms s <= total_ms s'.
Proof.
  induction inputs as [|i inputs IH]; intros s s' lines; simpl.
  - intros H. injection H as <- _.
    split; [auto|split; apply Qle_refl].
  - destruct (tick cfg i s) as [[s1 out]|e] eqn:T; simpl; [|discriminate].
    destruct (run cfg inputs s1) as [[s2 rest]|e] eqn:R; simpl; [|discriminate].
    intros H. injection H as <- _.
    destruct (IH _ _ _ R) as (I1 & I2 & I3).
    destruct (tick_counters _ _ _ _ _ T) as (Es & Et).
    destruct (accumulate_invariant (in_now i) s) as (A1 & A2 & A3).
    unfold accumulators_ok in *. rewrite <- Es in A1, A2.
    rewrite <- Et in A1, A3.
    split; [|split].
    + intros K. apply I1. now apply A1.
    + eapply Qle_trans; eassumption.
    + eapply Qle_trans; eassumption.
Qed.

(** C7. The accumulation step keeps [0 <= stand_ms <= total_ms] and never
    decreases either counter.  A clock delta that is zero or negative adds
    nothing; a positive delta is added, in milliseconds, to [total_ms] and,
    only while [standing] holds, to [stand_ms] as well.  No other step of an
    iteration touches the counters, so the invariant and the monotonicity
    hold from iteration to iteration over any run. *)
Theorem C7_accumulation_invariant :
  (forall (now : Q) (s : RuntimeState),
     let dt := now - last_state_ts s in
     let s' := accumulate now s in
     (accumulators_ok s -> accumulators_ok s') /\
     stand_ms s <= stand_ms s' /\ total_ms s <= total_ms s' /\
     (dt <= 0 -> stand_ms s' = stand_ms s /\ total_ms s' = total_ms s) /\
     (0 < dt ->
      total_ms s' = total_ms s + dt * 1000 /\
      stand_ms s' =
        if standing s then stand_ms s + dt * 1000 else stand_ms s) /\
     last_state_ts s' = now) /\
  (forall (cfg : Config) (i : TickInput) (s s' : RuntimeState)
          (out : TickOutput),
     tick cfg i s = Ok (s', out) ->
     stand_ms s' = stand_ms (accumulate (in_now i) s) /\
     total_ms s' = total_ms (accumulate (in_now i) s)) /\
  (forall (cfg : Config) (inputs : list TickInput) (s s' : RuntimeState)
          (lines : list string),
     run cfg inputs s = Ok (s', lines) ->
     (accumulators_ok s -> accumulators_ok s') /\
     stand_ms s <= stand_ms s' /\ total_ms s <= total_ms s').
Proof.
  split; [|split].
  - intros now s dt s'.
    destruct (accumulate_invariant now s) as (A1 & A2 & A3).
    destruct (accumulate_counters now s) as (C1 & C2).
    split; [exact A1|]. split; [exact A2|]. split; [exact A3|].
    split; [exact C1|]. split; [exact C2|]. reflexivity.
  - exact tick_counters.
  - intros cfg inputs. apply run_counters.
Qed.

Lemma C7_accumulation_invariant_witness :
  accumulators_ok (accumulate 12 (mkState 0 true 3000 8000 10 50 3%Z 0 18 0 0 0)) /\
  stand_ms (accumulate 12 (mkState 0 true 3000 8000 10 50 3%Z 0 18 0 0 0))
    = 3000 + (12 - 10) * 1000 /\
  total_ms (accumulate 9 (mkState 0 true 3000 8000 10 50 3%Z 0 18 0 0 0))
    = 8000 /\
  (exists s' out,
     tick example_config (mkInput 12 [] None None 12)
          (mkState 0 true 3000 8000 10 50 3%Z 0 18 0 0 0) = Ok (s', out) /\
     total_ms s' == 10000) /\
  (exists s' lines,
     run example_config [mkInput 12 [] None None 12; mkInput 11 [] None None 11]
         (initial_state 10 10) = Ok (s', lines) /\
     accumulators_ok s').
Proof.
  destruct C7_accumulation_invariant as (A & T & R).
  destruct (A 12 (mkState 0 true 3000 8000 10 50 3%Z 0 18 0 0 0))
    as (A1 & _ & _ & _ & A5 & _).
  destruct (A 9 (mkState 0 true 3000 8000 10 50 3%Z 0 18 0 0 0))
    as (_ & _ & _ & A4 & _).
  split; [|split; [|split; [|split]]].
  - apply A1. unfold accumulators_ok. simpl. lra.
  - refine (proj2 (A5 _)). simpl. lra.
  - refine (proj2 (A4 _)). simpl. lra.
  - destruct (tick_total example_config (mkInput 12 [] None None 12)
                (mkState 0 true 3000 8000 10 50 3%Z 0 18 0 0 0))
      as (s' & out & H).
    exists s', out. split; [exact H|].
    rewrite (proj2 (T _ _ _ _ _ H)). reflexivity.
  - destruct (run_frames example_config
                [mkInput 12 [] None None 12; mkInput 11 [] None None 11]
                (initial_state 10 10)) as (s' & lines & H & _).
    exists s', lines. split; [exact H|].
    refine (proj1 (R _ _ _ _ _ H) _).
    unfold accumulators_ok. simpl. lra.
Defined.

(** ** Polling *)

Lemma poll_weather_due (now : Q) (fetch : option (Q * Z * Q))
  (s : RuntimeState) :
  snd (poll_weather now fetch s) = true <->
  WEATHER_POLL_SEC < now - last_weather_poll s.
Proof.
  unfold poll_weather. rewrite <- Qltb_true.
  destruct (Qltb WEATHER_POLL_SEC (now - last_weather_poll s)); simpl;
    split; congruence.
Qed.


Lemma poll_commute_due (cfg : Config) (now : Q) (fetch : option Q)
  (s : RuntimeState) :
  snd (poll_commute cfg now fetch s) = true <->
  TRAFFIC_POLL_SEC < now - last_traffic_poll s /\ ORS_API_KEY cfg <> "".
Proof.
  unfold poll_commute. rewrite <- Qltb_true.
  destruct (Qltb TRAFFIC_POLL_SEC (now - last_traffic_poll s)); simpl.
  - destruct (String.eqb_spec (ORS_API_KEY cfg) ""); simpl; split.
    + discriminate.
    + intros [_ H]. contradiction.
    + now split.
    + reflexivity.
  - split; [discriminate|]. intros [H _]. discriminate.
Qed.


(** The weather part of an iteration: [poll_weather] runs on a state whose
    cached reading and poll time are still those the iteration began with,
    and nothing after it touches them. *)
Lemma tick_weather (cfg : Config) (i : TickInput) (s s' : RuntimeState)
  (out : TickOutput) :
  tick cfg i s = Ok (s', out) ->
  exists s2,
    (temp_f s2 = temp_f s /\ wcode s2 = wcode s /\ wind_mph s2 = wind_mph s /\
     last_weather_poll s2 = last_weather_poll s) /\
    (let pw := poll_weather (in_now i) (in_weather i) s2 in
     temp_f s' = temp_f (fst pw) /\ wcode s' = wcode (fst pw) /\
     wind_mph s' = wind_mph (fst pw) /\
     last_weather_poll s' = last_weather_poll (fst pw) /\
     out_weather_called out = snd pw).
Proof.
  intros H. apply tick_state in H. cbv zeta in H.
  destruct H as (-> & _ & Hw & _).
  exists (fst (drain (in_waiting i) (accumulate (in_now i) s))).
  split.
  - destruct (drain_keeps (in_waiting i) (accumulate (in_now i) s))
      as (_ & _ & -> & -> & -> & _ & -> & _).
    destruct (accumulate_keeps (in_now i) s)
      as (-> & -> & -> & _ & -> & _).
    repeat split; reflexivity.
  - cbv zeta.
    match goal with
    | |- context [report ?n ?st] =>
        destruct (report_keeps n st)
          as (_ & _ & _ & _ & -> & -> & -> & _ & -> & _)
    end.
    match goal with
    | |- context [poll_commute ?c ?n ?f ?st] =>
        destruct (poll_commute_keeps c n f st)
          as (_ & _ & -> & -> & -> & ->)
    end.
    repeat split; try reflexivity. exact Hw.
Qed.

Lemma tick_commute (cfg : Config) (i : TickInput) (s s' : RuntimeState)
  (out : TickOutput) :
  tick cfg i s = Ok (s', out) ->
  exists s3,
    (commute_min s3 = commute_min s /\
     last_traffic_poll s3 = last_traffic_poll s) /\
    (let pc := poll_commute cfg (in_now i) (in_commute i) s3 in
     commute_min s' = commute_min (fst pc) /\
     last_traffic_poll s' = last_traffic_poll (fst pc) /\
     out_commute_called out = snd pc).
Proof.
  intros H. apply tick_state in H. cbv zeta in H.
  destruct H as (-> & _ & _ & Hc).
  eexists. split; [|cbv zeta; split; [|split; [|exact Hc]]].
  - match goal with
    | |- context [poll_weather ?n ?f ?st] =>
        destruct (poll_weather_keeps n f st) as (_ & _ & -> & ->)
    end.
    destruct (drain_keeps (in_waiting i) (accumulate (in_now i) s))
      as (_ & _ & _ & _ & _ & -> & _ & ->).
    destruct (accumulate_keeps (in_now i) s)
      as (_ & _ & _ & -> & _ & -> & _).
    split; reflexivity.
  - match goal with
    | |- context [report ?n ?st] =>
        destruct (report_keeps n st)
          as (_ & _ & _ & _ & _ & _ & _ & -> & _)
    end.
    reflexivity.
  - match goal with
    | |- context [report ?n ?st] =>
        destruct (report_keeps n st)
          as (_ & _ & _ & _ & _ & _ & _ & _ & _ & ->)
    end.
    reflexivity.
Qed.



Lemma fetch_is_called_when_due (cfg : Config) (i : TickInput)
  (s s' : RuntimeState) (out : TickOutput) :
  tick cfg i s = Ok (s', out) ->
  (out_weather_called out = true <->
   WEATHER_POLL_SEC < in_now i - last_weather_poll s) /\
  (out_commute_called out = true <->
   TRAFFIC_POLL_SEC < in_now i - last_traffic_poll s /\
   ORS_API_KEY cfg <> "").
Proof.
  intros T.
  destruct (tick_weather _ _ _ _ _ T)
    as (sa & (_ & _ & _ & E4) & (_ & _ & _ & _ & F5)).
  destruct (tick_commute _ _ _ _ _ T) as (sb & (_ & E2) & (_ & _ & F3)).
  rewrite F5, F3, poll_weather_due, poll_commute_due, E4, E2.
  split; reflexivity.
Qed.



(** ** Draining the port *)

Lemma drain_cons_nonblank (l : inbound) (rest : list inbound)
  (s : RuntimeState) :
  blank l = false -> drain (l :: rest) s = drain rest (handle s l).
Proof.
  destruct l as [raw clock]. unfold blank, handle. simpl. now intros ->.
Qed.

Lemma drain_cons_blank (l : inbound) (rest : list inbound)
  (s : RuntimeState) :
  blank l = true -> drain (l :: rest) s = (s, rest).
Proof.
  destruct l as [raw clock]. unfold blank. simpl. now intros ->.
Qed.

Lemma drain_app_nonblank (pre : list inbound) :
  forall (rest : list inbound) (s : RuntimeState),
    forallb (fun l => negb (blank l)) pre = true ->
    drain (pre ++ rest) s = drain rest (fold_left handle pre s).
Proof.
  induction pre as [|l pre IH]; intros rest s H; [reflexivity|].
  simpl in H. apply andb_true_iff in H. destruct H as [Hl Hpre].
  apply negb_true_iff in Hl.
  simpl app. rewrite (drain_cons_nonblank _ _ _ Hl). simpl fold_left.
  now apply IH.
Qed.

Lemma handle_line_unrecognized (line : string) (clock : Q)
  (s : RuntimeState) :
  line <> "B,WATER" -> startswith line "S," = false ->
  handle_line line clock s = s.
Proof.
  intros H1 H2. unfold handle_line. rewrite H2.
  destruct (String.eqb_spec line "B,WATER"); [contradiction|reflexivity].
Qed.

(** C6 (as amended).  An iteration reads the waiting lines in order and
    stops after the first line that is empty once stripped, leaving the
    lines behind it in the port for a later iteration.  Up to that point
    every line is handled on the state left by the lines before it: a line
    that is neither the hydration marker nor a posture line changes nothing,
    a hydration marker or posture line is always handled whatever
    unrecognized lines precede it.  When no waiting line is blank, all of
    them are read and handled. *)
Theorem C6_drain_until_blank :
  (forall (waiting : list inbound) (s : RuntimeState),
     forallb (fun l => negb (blank l)) waiting = true ->
     drain waiting s = (fold_left handle waiting s, [])) /\
  (forall (pre : list inbound) (l : inbound) (post : list inbound)
          (s : RuntimeState),
     forallb (fun l => negb (blank l)) pre = true ->
     blank l = false ->
     drain (pre ++ l :: post) s
     = drain post (handle (fold_left handle pre s) l)) /\
  (forall (pre : list inbound) (b : inbound) (rest : list inbound)
          (s : RuntimeState),
     forallb (fun l => negb (blank l)) pre = true ->
     blank b = true ->
     drain (pre ++ b :: rest) s = (fold_left handle pre s, rest)) /\
  (forall (line : string) (clock : Q) (s : RuntimeState),
     line <> "B,WATER" -> startswith line "S," = false ->
     handle_line line clock s = s) /\
  (forall (cfg : Config) (i : TickInput) (s s' : RuntimeState)
          (out : TickOutput),
     tick cfg i s = Ok (s', out) ->
     out_unread out = snd (drain (in_waiting i) (accumulate (in_now i) s))).
Proof.
  split; [|split; [|split; [|split]]].
  - intros waiting s H.
    rewrite <- (app_nil_r waiting) at 1.
    now rewrite (drain_app_nonblank _ _ _ H).
  - intros pre l post s Hpre Hl.
    rewrite (drain_app_nonblank _ _ _ Hpre).
    now apply drain_cons_nonblank.
  - intros pre b rest s Hpre Hb.
    rewrite (drain_app_nonblank _ _ _ Hpre).
    now apply drain_cons_blank.
  - exact handle_line_unrecognized.
  - intros cfg i s s' out T. now apply tick_state in T.
Qed.

(** C6, the specification's sentence does not hold as written: with an
    empty line waiting in front of a posture line, the iteration stops at
    the empty line; the posture line is not handled and stays in the
    port. *)
Lemma C6_blank_line_counterexample :
  ~ (forall (waiting : list inbound) (s : RuntimeState),
       drain waiting s = (fold_left handle waiting s, [])) /\
  drain [("", 5); ("S,1", 5)] (initial_state 0 0)
  = (initial_state 0 0, [("S,1", 5)]) /\
  standing (fold_left handle [("", 5); ("S,1", 5)] (initial_state 0 0)) = true.
Proof.
  split; [|split; reflexivity].
  intros H. specialize (H [("", 5); ("S,1", 5)] (initial_state 0 0)).
  vm_compute in H. discriminate H.
Qed.

Lemma C6_drain_until_blank_witness :
  drain [("??", 1); ("B,WATER", 7); ("noise", 2); ("S,1", 3)]
        (initial_state 0 0)
  = (set_standing true (set_last_water_ts 7 (initial_state 0 0)), []) /\
  drain [("junk", 1); ("S,1", 3); (" ", 4); ("B,WATER", 9)]
        (initial_state 0 0)
  = (set_standing true (initial_state 0 0), [("B,WATER", 9)]) /\
  handle_line "X,1" 4 (initial_state 0 0) = initial_state 0 0 /\
  drain ([("junk", 1)] ++ ("S,1", 3) :: [("S,0", 4)]) (initial_state 0 0)
  = drain [("S,0", 4)]
      (handle (fold_left handle [("junk", 1)] (initial_state 0 0)) ("S,1", 3)).
Proof.
  destruct C6_drain_until_blank as (A & B & C & D & _).
  split; [|split; [|split]].
  - exact (A [("??", 1); ("B,WATER", 7); ("noise", 2); ("S,1", 3)]
              (initial_state 0 0) eq_refl).
  - exact (C [("junk", 1); ("S,1", 3)] (" ", 4) [("B,WATER", 9)]
              (initial_state 0 0) eq_refl eq_refl).
  - apply D; [discriminate|reflexivity].
  - apply (B [("junk", 1)] ("S,1", 3) [("S,0", 4)] (initial_state 0 0)
             eq_refl eq_refl).
Defined.

(** ** Posture lines *)

Lemma endswith_one (s : string) :
  endswith s "1" = true <-> last_char s = Some "1"%char.
Proof.
  induction s as [|c s IH].
  - simpl. split; discriminate.
  - destruct s as [|c' s'].
    + simpl. rewrite orb_false_r.
      destruct (Ascii.eqb_spec c "1"); simpl; split; congruence.
    + change (endswith (String c (String c' s')) "1")
        with ((String c (String c' s') =? "1")
              || endswith (String c' s') "1").
      change (last_char (String c (String c' s')))
        with (last_char (String c' s')).
      assert (E : (String c (String c' s') =? "1") = false).
      { simpl. now destruct (Ascii.eqb c "1"). }
      rewrite E. exact IH.
Qed.

Lemma startswith_posture (line : string) :
  startswith line "S," = true ->
  exists rest, line = String "S" (String "," rest).
Proof.
  unfold startswith.
  destruct line as [|c1 [|c2 rest]]; cbn [String.prefix]; try discriminate.
  - destruct (ascii_dec "S" c1); discriminate.
  - destruct (ascii_dec "S" c1) as [<-|]; [|discriminate].
    destruct (ascii_dec "," c2) as [<-|]; [|discriminate].
    intros _. now exists rest.
Qed.

Lemma handle_line_posture (line : string) (clock : Q) (s : RuntimeState) :
  startswith line "S," = true ->
  handle_line line clock s = set_standing (endswith line "1") s.
Proof.
  intros H. unfold handle_line. rewrite H.
  destruct (startswith_posture line H) as [rest ->]. reflexivity.
Qed.

Lemma strip_posture (raw : string) :
  startswith raw "S," = true -> startswith (strip raw) "S," = true.
Proof.
  intros H. destruct (startswith_posture raw H) as [rest ->].
  unfold strip. cbn [lstrip]. change (py_isspace "S") with false.
  cbv iota.
  change (rstrip (String "S" (String "," rest)))
    with (match match rstrip rest with
                | EmptyString => String "," EmptyString
                | String c r => String "," (String c r)
                end with
          | EmptyString => String "S" EmptyString
          | String c r => String "S" (String c r)
          end).
  now destruct (rstrip rest).
Qed.

(** C10. For every line that begins with "S,", handling it sets
    [standing] to true exactly when the line's last character is '1'; with
    any other last character, and for the line "S," itself, [standing]
    becomes false.  Nothing else in the state changes, and such a line is
    never skipped: the loop goes on with the lines behind it.  Here the
    line is the text after stripping; a received line that begins with "S,"
    still begins with "S," once stripped. *)
Theorem C10_posture_line_trailing_character :
  forall (line : string) (clock : Q) (s : RuntimeState),
    startswith line "S," = true ->
    (standing (handle_line line clock s) = true <->
     last_char line = Some "1"%char) /\
    (last_char line <> Some "1"%char ->
     standing (handle_line line clock s) = false) /\
    (line = "S," -> standing (handle_line line clock s) = false) /\
    handle_line line clock s
      = set_standing (standing (handle_line line clock s)) s /\
    (forall (raw : string) (rest : list inbound),
       strip raw = line ->
       drain ((raw, clock) :: rest) s
       = drain rest (handle_line line clock s)) /\
    (forall raw : string,
       startswith raw "S," = true -> startswith (strip raw) "S," = true).
Proof.
  intros line clock s H.
  rewrite (handle_line_posture line clock s H). simpl standing.
  split; [apply endswith_one|].
  split.
  { intros N. destruct (endswith line "1") eqn:E; [|reflexivity].
    apply endswith_one in E. contradiction. }
  split; [intros ->; reflexivity|].
  split; [reflexivity|].
  split; [|exact strip_posture].
  intros raw rest <-.
  rewrite <- (handle_line_posture _ clock s H).
  apply (drain_cons_nonblank (raw, clock)).
  unfold blank. simpl fst.
  destruct (startswith_posture _ H) as [r ->]. reflexivity.
Qed.

Lemma C10_posture_line_trailing_character_witness :
  standing (handle_line "S,1" 0 (initial_state 0 0)) = true /\
  standing (handle_line "S,0" 0 (set_standing true (initial_state 0 0)))
    = false /\
  standing (handle_line "S,x" 0 (set_standing true (initial_state 0 0)))
    = false /\
  standing (handle_line "S," 0 (set_standing true (initial_state 0 0)))
    = false /\
  startswith (strip ("S,1 " ++ newline)) "S," = true.
Proof.
  destruct (C10_posture_line_trailing_character
              "S,1" 0 (initial_state 0 0) eq_refl) as (A1 & _).
  destruct (C10_posture_line_trailing_character
              "S,0" 0 (set_standing true (initial_state 0 0)) eq_refl)
    as (_ & B2 & _).
  destruct (C10_posture_line_trailing_character
              "S,x" 0 (set_standing true (initial_state 0 0)) eq_refl)
    as (_ & C2 & _).
  destruct (C10_posture_line_trailing_character
              "S," 0 (set_standing true (initial_state 0 0)) eq_refl)
    as (_ & _ & D3 & _ & _ & D6).
  split; [|split; [|split; [|split]]].
  - apply A1. reflexivity.
  - apply B2. simpl. discriminate.
  - apply C2. simpl. discriminate.
  - apply D3. reflexivity.
  - apply D6. reflexivity.
Defined.

(** * Further properties of the value mapper *)

(** ** Rounding and clamping keep the order *)

Lemma py_round_mono (x y : Q) : x <= y -> (py_round x <= py_round y)%Z.
Proof.
  intros H.
  destruct (Z_le_gt_dec (py_round x) (py_round y)) as [L|G]; [exact L|].
  exfalso.
  pose proof (py_round_nearest x) as [X1 X2].
  pose proof (py_round_nearest y) as [Y1 Y2].
  assert (S : inject_Z (py_round y) + 1 <= inject_Z (py_round x)).
  { change 1 with (inject_Z 1). rewrite <- inject_Z_plus.
    rewrite <- Zle_Qle. lia. }
  assert (E : x == y) by lra.
  rewrite (py_round_comp _ _ E) in G. lia.
Qed.

Lemma clamp100_mono (x y : Q) : x <= y -> (clamp100 x <= clamp100 y)%Z.
Proof.
  intros H. apply py_round_mono in H. unfold clamp100. lia.
Qed.

(** A value between two scores is clamped to a score between them. *)
Lemma clamp100_between (lo hi : Z) (x : Q) :
  (0 <= lo)%Z -> (hi <= 100)%Z ->
  inject_Z lo <= x -> x <= inject_Z hi ->
  (lo <= clamp100 x <= hi)%Z.
Proof.
  intros H0 H100 Hlo Hhi.
  assert (L : (lo <= hi)%Z)
    by (rewrite Zle_Qle; eapply Qle_trans; eassumption).
  apply clamp100_mono in Hlo, Hhi.
  rewrite clamp100_inject_Z in Hlo, Hhi. lia.
Qed.

Lemma clamp100_close (x : Q) :
  0 <= x -> x <= 100 ->
  - (1 # 2) <= x - inject_Z (clamp100 x) <= 1 # 2.
Proof.
  intros H0 H100.
  assert (R : (0 <= py_round x <= 100)%Z).
  { apply py_round_mono in H0, H100.
    change 0 with (inject_Z 0) in H0. change 100 with (inject_Z 100) in H100.
    rewrite py_round_inject_Z in H0, H100. lia. }
  unfold clamp100.
  replace (Z.max 0 (Z.min 100 (py_round x))) with (py_round x) by lia.
  apply py_round_nearest.
Qed.

(** X1. [clamp100] keeps the order of its inputs, and for an input that
    already lies between 0 and 100 its result is an integer within one
    half of the input: clamping never moves a valid score by more than the
    rounding does. *)
Theorem X1_clamp100_monotone_and_close :
  (forall x y : Q, x <= y -> (clamp100 x <= clamp100 y)%Z) /\
  (forall x : Q, 0 <= x -> x <= 100 ->
     - (1 # 2) <= x - inject_Z (clamp100 x) <= 1 # 2).
Proof.
  split; [exact clamp100_mono|exact clamp100_close].
Qed.

Lemma X1_clamp100_monotone_and_close_witness :
  (clamp100 (149 # 2) <= clamp100 (151 # 2))%Z /\
  - (1 # 2) <= (149 # 2) - inject_Z (clamp100 (149 # 2)) <= 1 # 2.
Proof.
  destruct X1_clamp100_monotone_and_close as [M C].
  split.
  - apply M. vm_compute. discriminate.
  - apply C; vm_compute; discriminate.
Defined.

(** ** [piecewise_linear] stays within the anchors *)

Lemma lerp_between (lo hi a b t : Q) :
  0 <= t -> t <= 1 -> lo <= a <= hi -> lo <= b <= hi ->
  lo <= lerp a b t <= hi.
Proof.
  intros T0 T1 [A1 A2] [B1 B2]. unfold lerp.
  assert (E : a + (b - a) * t == a * (1 - t) + b * t) by ring.
  rewrite E.
  assert (P1 : lo * (1 - t) <= a * (1 - t))
    by (apply Qmult_le_compat_r; lra).
  assert (P2 : a * (1 - t) <= hi * (1 - t))
    by (apply Qmult_le_compat_r; lra).
  assert (P3 : lo * t <= b * t) by (apply Qmult_le_compat_r; lra).
  assert (P4 : b * t <= hi * t) by (apply Qmult_le_compat_r; lra).
  split; lra.
Qed.

(** Inside a segment the interpolation parameter lies between 0 and 1. *)
Lemma segment_t_range (x x0 x1 : Q) :
  x0 <= x -> x <= x1 -> ~ x1 == x0 ->
  0 <= (x - x0) / (x1 - x0) /\ (x - x0) / (x1 - x0) <= 1.
Proof.
  intros H0 H1 N.
  assert (P : 0 < x1 - x0).
  { destruct (Qlt_le_dec x0 x1) as [L|L]; [lra|].
    exfalso. apply N. lra. }
  split.
  - apply Qle_shift_div_l; [exact P|lra].
  - apply Qle_shift_div_r; [exact P|lra].
Qed.

Lemma scan_segments_range (lo hi x : Q) (points : list point) (y : Q) :
  Forall (fun p => lo <= snd p <= hi) points ->
  scan_segments x points = Ok (Some y) ->
  lo <= y <= hi.
Proof.
  induction points as [|[x0 y0] l IH]; intros F H; [discriminate|].
  destruct l as [|[x1 y1] l']; [discriminate|].
  inversion F as [|? ? F0 F']; subst.
  inversion F' as [|? ? F1 _]; subst. simpl in F0, F1.
  simpl in H.
  destruct (Qle_bool x0 x) eqn:E0; simpl in H; [|now apply IH].
  destruct (Qle_bool x x1) eqn:E1; simpl in H; [|now apply IH].
  apply Qle_bool_iff in E0, E1.
  destruct (Qeq_bool x1 x0) eqn:E; simpl in H.
  - injection H as <-. apply lerp_between; auto; lra.
  - apply Qeq_bool_false in E.
    rewrite py_div_ok in H.
    + simpl in H. injection H as <-.
      destruct (segment_t_range x x0 x1 E0 E1 E).
      now apply lerp_between.
    + intros C. apply E. lra.
Qed.

Lemma piecewise_linear_range (lo hi x : Q) (points : list point) (y : Q) :
  Forall (fun p => lo <= snd p <= hi) points ->
  piecewise_linear x points = Ok y ->
  lo <= y <= hi.
Proof.
  intros F H.
  assert (F' : Forall (fun p => lo <= snd p <= hi) (sorted_by_x points))
    by (eapply Permutation_Forall; [apply sorted_by_x_perm|exact F]).
  unfold piecewise_linear in H.
  destruct (sorted_by_x points) as [|p0 l] eqn:Hs; [discriminate|].
  rewrite Forall_forall in F'.
  destruct (Qle_bool x (fst p0)).
  { injection H as <-. apply F'. now left. }
  destruct (Qle_bool (fst (last (p0 :: l) p0)) x).
  { injection H as <-. apply F'.
    apply (last_In (p0 :: l) p0). discriminate. }
  destruct (scan_segments x (p0 :: l)) as [[y'|]|e] eqn:S; simpl in H.
  - injection H as <-.
    apply (scan_segments_range lo hi x (p0 :: l)); [|exact S].
    now apply Forall_forall.
  - injection H as <-. apply F'.
    apply (last_In (p0 :: l) p0). discriminate.
  - discriminate.
Qed.

(** X2. [piecewise_linear] raises exactly when the list of anchors is
    empty, and then it is an [IndexError]; a zero division never happens,
    whatever the anchors. *)
Theorem X2_piecewise_linear_raises_only_on_empty :
  forall (x : Q) (points : list point),
    (piecewise_linear x points = Raise IndexError <-> points = []) /\
    piecewise_linear x points <> Raise ZeroDivisionError.
Proof.
  intros x points. destruct points as [|p l].
  - split; [split; reflexivity|discriminate].
  - destruct (piecewise_linear_total x (p :: l)) as [y Hy]; [discriminate|].
    rewrite Hy. split; [split; discriminate|discriminate].
Qed.

Lemma X2_piecewise_linear_raises_only_on_empty_witness :
  piecewise_linear 3 [] = Raise IndexError /\
  piecewise_linear 3 [(1, 20); (1, 30)] <> Raise IndexError.
Proof.
  split.
  - apply (proj1 (X2_piecewise_linear_raises_only_on_empty 3 [])).
    reflexivity.
  - intros C.
    apply (proj1 (X2_piecewise_linear_raises_only_on_empty
                    3 [(1, 20); (1, 30)])) in C.
    discriminate C.
Defined.



(** ** [piecewise_linear] between two anchors *)

(** In a sorted list no anchor lies strictly between two neighbours. *)
Lemma neighbours_gap (pre : list point) (a b : point) (post : list point)
  (c : point) :
  StronglySorted x_le (pre ++ a :: b :: post) ->
  In c (pre ++ a :: b :: post) ->
  fst c <= fst a \/ fst b <= fst c.
Proof.
  intros S Hin.
  destruct (StronglySorted_split pre a (b :: post) S) as [Hpre _].
  pose proof (StronglySorted_app_r (pre ++ [a]) (b :: post)) as Sb.
  rewrite <- app_assoc in Sb. specialize (Sb S).
  apply in_app_or in Hin. destruct Hin as [Hin|[<-|[<-|Hin]]].
  - left. rewrite Forall_forall in Hpre. now apply Hpre.
  - left. apply Qle_refl.
  - right. apply Qle_refl.
  - right. inversion Sb as [|? ? _ F]; subst.
    rewrite Forall_forall in F. now apply F.
Qed.

(** The loop stops in the segment whose lower end is the last anchor
    strictly below [x]. *)
Lemma scan_segments_segment (x : Q) (pre : list point) (a b : point)
  (post : list point) :
  StronglySorted x_le (pre ++ a :: b :: post) ->
  fst a < x -> x <= fst b ->
  scan_segments x (pre ++ a :: b :: post)
  = Ok (Some (lerp (snd a) (snd b) ((x - fst a) / (fst b - fst a)))).
Proof.
  intros S Ha Hb. induction pre as [|[x0 y0] pre IH].
  - destruct a as [xa ya], b as [xb yb]. simpl in *.
    assert (E0 : Qle_bool xa x = true) by (apply Qle_bool_iff; lra).
    assert (E1 : Qle_bool x xb = true) by now apply Qle_bool_iff.
    assert (E2 : Qeq_bool xb xa = false)
      by (apply Qeq_bool_false; intros C; lra).
    rewrite E0, E1, E2. simpl.
    rewrite py_div_ok by (intros C; lra). reflexivity.
  - assert (S' : StronglySorted x_le (pre ++ a :: b :: post))
      by (simpl in S; now inversion S).
    destruct (StronglySorted_split pre a (b :: post) S') as [Hpre _].
    destruct pre as [|[x1 y1] pre'].
    + destruct a as [xa ya]. simpl in Ha.
      change (scan_segments x (([(x0, y0)] ++ (xa, ya) :: b :: post)))
        with (if Qle_bool x0 x && Qle_bool x xa
              then t <- (if negb (Qeq_bool xa x0)
                         then py_div (x - x0) (xa - x0) else Ok 0) ;;
                   Ok (Some (lerp y0 ya t))
              else scan_segments x ((xa, ya) :: b :: post)).
      assert (E : Qle_bool x xa = false) by now apply Qle_bool_false.
      rewrite E, andb_false_r. now apply IH.
    + inversion Hpre as [|? ? H1 _]; subst. simpl in H1.
      change (scan_segments x
                (((x0, y0) :: (x1, y1) :: pre') ++ a :: b :: post))
        with (if Qle_bool x0 x && Qle_bool x x1
              then t <- (if negb (Qeq_bool x1 x0)
                         then py_div (x - x0) (x1 - x0) else Ok 0) ;;
                   Ok (Some (lerp y0 y1 t))
              else scan_segments x (((x1, y1) :: pre') ++ a :: b :: post)).
      assert (E : Qle_bool x x1 = false) by (apply Qle_bool_false; lra).
      rewrite E, andb_false_r. now apply IH.
Qed.

(** Strictly inside the range, [x] falls in one segment. *)
Lemma segment_of (x : Q) (l : list point) (d : point) :
  l <> [] ->
  fst (hd d l) < x -> x <= fst (last l d) ->
  exists pre a b post,
    l = pre ++ a :: b :: post /\ fst a < x /\ x <= fst b.
Proof.
  induction l as [|p0 l IH]; intros N H0 Hl; [contradiction|].
  destruct l as [|p1 l'].
  - simpl in *. lra.
  - destruct (Qlt_le_dec (fst p1) x) as [L|L].
    + destruct IH as (pre & a & b & post & E & Ha & Hb);
        [discriminate|exact L|exact Hl|].
      exists (p0 :: pre), a, b, post. rewrite E. now repeat split.
    + exists [], p0, p1, l'. now repeat split.
Qed.

Lemma piecewise_linear_segment (x : Q) (points pre : list point)
  (a b : point) (post : list point) :
  sorted_by_x points = pre ++ a :: b :: post ->
  fst a < x -> x < fst b ->
  piecewise_linear x points
  = Ok (lerp (snd a) (snd b) ((x - fst a) / (fst b - fst a))).
Proof.
  intros Hs Ha Hb.
  pose proof (sorted_by_x_sorted points) as S. rewrite Hs in S.
  assert (H0 : forall d, fst (hd d (pre ++ a :: b :: post)) < x).
  { intros d. destruct pre as [|p0 pre']; [exact Ha|].
    destruct (StronglySorted_split (p0 :: pre') a (b :: post) S) as [F _].
    inversion F; subst. simpl. lra. }
  assert (Hl : forall d, x < fst (last (pre ++ a :: b :: post) d)).
  { intros d. eapply Qlt_le_trans; [exact Hb|].
    apply sorted_last_max; [exact S|].
    apply in_or_app. right. right. now left. }
  pose proof (scan_segments_segment x pre a b post S Ha
                (Qlt_le_weak _ _ Hb)) as Sc.
  unfold piecewise_linear. rewrite Hs.
  destruct (pre ++ a :: b :: post) as [|p0 l] eqn:E.
  { destruct pre; discriminate. }
  specialize (H0 p0). specialize (Hl p0). simpl hd in H0.
  apply Qle_bool_false in H0, Hl. rewrite H0, Hl, Sc. reflexivity.
Qed.

(** X4. Strictly between two anchors that are neighbours once sorted,
    [piecewise_linear] returns the linear interpolation of their y values,
    with parameter [(x - xa) / (xb - xa)]. *)
Theorem X4_piecewise_linear_interpolates :
  forall (x : Q) (points pre : list point) (a b : point) (post : list point),
    sorted_by_x points = pre ++ a :: b :: post ->
    fst a < x -> x < fst b ->
    piecewise_linear x points
    = Ok (snd a + (snd b - snd a) * ((x - fst a) / (fst b - fst a))).
Proof. exact piecewise_linear_segment. Qed.

Lemma X4_piecewise_linear_interpolates_witness :
  piecewise_linear 20 [(45, 30); (12, 100); (18, 65)]
  = Ok (65 + (30 - 65) * ((20 - 18) / (45 - 18))).
Proof.
  apply (X4_piecewise_linear_interpolates
           20 [(45, 30); (12, 100); (18, 65)] [(12, 100)] (18, 65) (45, 30) []).
  - reflexivity.
  - reflexivity.
  - reflexivity.
Defined.

(** ** The input order of the anchors does not matter *)

Lemma unique_xs_NoDup (points : list point) :
  unique_xs points = true -> NoDup points.
Proof.
  induction points as [|p l IH]; intros U; [constructor|].
  simpl in U. apply andb_true_iff in U. destruct U as [U1 U2].
  apply negb_true_iff in U1.
  constructor; [|now apply IH].
  intros Hin.
  assert (X : existsb (fun q => Qeq_bool (fst q) (fst p)) l = true).
  { apply existsb_exists. exists p. split; [exact Hin|].
    apply Qeq_bool_iff. reflexivity. }
  congruence.
Qed.

Lemma sorted_strict (l : list point) :
  StronglySorted x_le l -> NoDup l ->
  (forall p q, In p l -> In q l -> fst p == fst q -> p = q) ->
  StronglySorted x_lt l.
Proof.
  induction 1 as [|p l S IH F]; intros N U; [constructor|].
  inversion N as [|? ? Np Nl]; subst.
  constructor.
  - apply IH; [exact Nl|]. intros a b Ha Hb. apply U; now right.
  - rewrite Forall_forall in *. intros q Hq.
    specialize (F q Hq). unfold x_le, x_lt in *.
    apply Qle_lt_or_eq in F. destruct F as [F|F]; [exact F|].
    exfalso. apply Np.
    rewrite (U p q (or_introl eq_refl) (or_intror Hq) F). exact Hq.
Qed.

(** A strictly sorted list is determined by its elements. *)
Lemma strict_sorted_unique (l1 : list point) :
  forall l2,
    StronglySorted x_lt l1 -> StronglySorted x_lt l2 ->
    Permutation l1 l2 -> l1 = l2.
Proof.
  induction l1 as [|a l1 IH]; intros l2 S1 S2 P.
  - apply Permutation_nil in P. now subst.
  - destruct l2 as [|b l2].
    { apply Permutation_sym, Permutation_nil in P. discriminate. }
    inversion S1 as [|? ? S1' F1]; subst.
    inversion S2 as [|? ? S2' F2]; subst.
    rewrite Forall_forall in F1, F2.
    assert (E : a = b).
    { assert (Ha : In a (b :: l2))
        by (eapply Permutation_in; [exact P|now left]).
      assert (Hb : In b (a :: l1))
        by (eapply Permutation_in; [apply Permutation_sym, P|now left]).
      destruct Ha as [Ha|Ha]; [now symmetry|].
      destruct Hb as [Hb|Hb]; [exact Hb|].
      specialize (F1 b Hb). specialize (F2 a Ha). unfold x_lt in *.
      exfalso. apply (Qlt_irrefl (fst a)). eapply Qlt_trans; eassumption. }
    subst b. f_equal. apply IH; try assumption.
    now apply Permutation_cons_inv in P.
Qed.

Lemma sorted_by_x_order_free (p1 p2 : list point) :
  unique_xs p1 = true -> Permutation p1 p2 ->
  sorted_by_x p1 = sorted_by_x p2.
Proof.
  intros U P.
  assert (U' : forall l, Permutation p1 l ->
                 StronglySorted x_lt (sorted_by_x l)).
  { intros l Pl. apply sorted_strict.
    - apply sorted_by_x_sorted.
    - eapply Permutation_NoDup; [|apply (unique_xs_NoDup p1 U)].
      eapply perm_trans; [exact Pl|apply sorted_by_x_perm].
    - intros a b Ha Hb. apply (unique_xs_inj p1 U).
      + eapply Permutation_in; [apply Permutation_sym, Pl|].
        now apply sorted_by_x_In.
      + eapply Permutation_in; [apply Permutation_sym, Pl|].
        now apply sorted_by_x_In. }
  apply strict_sorted_unique.
  - apply U', Permutation_refl.
  - now apply U'.
  - eapply perm_trans; [apply Permutation_sym, sorted_by_x_perm|].
    eapply perm_trans; [exact P|apply sorted_by_x_perm].
Qed.

(** X5. When the anchors have unique x values, [piecewise_linear] gives
    the same result whatever the order the anchors are listed in, at
    every x. *)
Theorem X5_piecewise_linear_order_independent :
  forall (x : Q) (p1 p2 : list point),
    unique_xs p1 = true -> Permutation p1 p2 ->
    piecewise_linear x p1 = piecewise_linear x p2.
Proof.
  intros x p1 p2 U P. unfold piecewise_linear.
  now rewrite (sorted_by_x_order_free p1 p2 U P).
Qed.

Lemma X5_piecewise_linear_order_independent_witness :
  piecewise_linear 7 [(0, 30); (6, 70); (8, 80)]
  = piecewise_linear 7 [(6, 70); (0, 30); (8, 80)].
Proof.
  apply X5_piecewise_linear_order_independent.
  - reflexivity.
  - apply perm_swap.
Defined.

(** ** [piecewise_linear] follows the direction of its anchors *)

(** The three ways [piecewise_linear] produces its value. *)
Lemma piecewise_linear_cases (x : Q) (points : list point) (p0 : point)
  (l : list point) :
  sorted_by_x points = p0 :: l ->
  (x <= fst p0 /\ piecewise_linear x points = Ok (snd p0)) \/
  (fst p0 < x /\ fst (last (p0 :: l) p0) <= x /\
   piecewise_linear x points = Ok (snd (last (p0 :: l) p0))) \/
  (exists pre a b post,
     p0 :: l = pre ++ a :: b :: post /\ fst a < x /\ x <= fst b /\
     x < fst (last (p0 :: l) p0) /\
     piecewise_linear x points
     = Ok (lerp (snd a) (snd b) ((x - fst a) / (fst b - fst a)))).
Proof.
  intros Hs.
  destruct (Qlt_le_dec (fst p0) x) as [H0|H0].
  - destruct (Qlt_le_dec x (fst (last (p0 :: l) p0))) as [Hl|Hl].
    + right. right.
      destruct (segment_of x (p0 :: l) p0) as (pre & a & b & post & E & Ha & Hb);
        [discriminate|exact H0|now apply Qlt_le_weak|].
      exists pre, a, b, post. repeat split; try assumption.
      pose proof (sorted_by_x_sorted points) as S. rewrite Hs, E in S.
      pose proof (scan_segments_segment x pre a b post S Ha Hb) as Sc.
      unfold piecewise_linear. rewrite Hs.
      apply Qle_bool_false in H0, Hl. rewrite H0, Hl.
      rewrite E, Sc. reflexivity.
    + right. left. repeat split; try assumption.
      now apply (piecewise_linear_high points x p0 l).
  - left. split; [exact H0|].
    now apply (piecewise_linear_low points x p0 l).
Qed.

Section Direction.

(** [sgn] is 1 for anchors that rise and -1 for anchors that fall. *)
Variable sgn : Q.
Variable points : list point.

Hypothesis directed :
  forall c d, In c points -> In d points ->
    fst c <= fst d -> sgn * snd c <= sgn * snd d.

Lemma lerp_above (lo a b t : Q) :
  0 <= t -> t <= 1 -> lo <= sgn * a -> lo <= sgn * b ->
  lo <= sgn * lerp a b t.
Proof.
  intros T0 T1 A B. unfold lerp.
  assert (E : sgn * (a + (b - a) * t)
              == (sgn * a) * (1 - t) + (sgn * b) * t) by ring.
  rewrite E.
  assert (P1 : lo * (1 - t) <= (sgn * a) * (1 - t))
    by (apply Qmult_le_compat_r; lra).
  assert (P2 : lo * t <= (sgn * b) * t) by (apply Qmult_le_compat_r; lra).
  lra.
Qed.

Lemma lerp_below (hi a b t : Q) :
  0 <= t -> t <= 1 -> sgn * a <= hi -> sgn * b <= hi ->
  sgn * lerp a b t <= hi.
Proof.
  intros T0 T1 A B. unfold lerp.
  assert (E : sgn * (a + (b - a) * t)
              == (sgn * a) * (1 - t) + (sgn * b) * t) by ring.
  rewrite E.
  assert (P1 : (sgn * a) * (1 - t) <= hi * (1 - t))
    by (apply Qmult_le_compat_r; lra).
  assert (P2 : (sgn * b) * t <= hi * t) by (apply Qmult_le_compat_r; lra).
  lra.
Qed.

Lemma segment_t (x xa xb : Q) :
  xa < x -> x <= xb ->
  0 <= (x - xa) / (xb - xa) /\ (x - xa) / (xb - xa) <= 1.
Proof.
  intros Ha Hb. apply segment_t_range; lra.
Qed.

Lemma piecewise_linear_directed (x x' y y' : Q) :
  x <= x' ->
  piecewise_linear x points = Ok y ->
  piecewise_linear x' points = Ok y' ->
  sgn * y <= sgn * y'.
Proof.
  intros Hxx Hy Hy'.
  destruct (sorted_by_x points) as [|p0 l] eqn:Hs.
  { unfold piecewise_linear in Hy. rewrite Hs in Hy. discriminate. }
  pose proof (sorted_by_x_sorted points) as S. rewrite Hs in S.
  assert (In' : forall c, In c (p0 :: l) -> In c points).
  { intros c Hc. apply sorted_by_x_In. now rewrite Hs. }
  assert (Dir : forall c d, In c (p0 :: l) -> In d (p0 :: l) ->
                  fst c <= fst d -> sgn * snd c <= sgn * snd d).
  { intros c d Hc Hd. apply directed; now apply In'. }
  assert (Lo : forall c, In c (p0 :: l) -> fst p0 <= fst c).
  { intros c [<-|Hc]; [apply Qle_refl|].
    inversion S as [|? ? _ F]; subst. rewrite Forall_forall in F.
    now apply F. }
  assert (Hi : forall c, In c (p0 :: l) -> fst c <= fst (last (p0 :: l) p0))
    by (intros c Hc; now apply sorted_last_max).
  assert (P0 : In p0 (p0 :: l)) by now left.
  assert (PL : In (last (p0 :: l) p0) (p0 :: l))
    by (apply last_In; discriminate).
  destruct (piecewise_linear_cases x points p0 l Hs)
    as [(C1 & E1)|[(C1 & C2 & E1)|(pre & a & b & post & E & Ha & Hb & Hc & E1)]];
    rewrite E1 in Hy; injection Hy as <-;
    destruct (piecewise_linear_cases x' points p0 l Hs)
      as [(D1 & F1)|[(D1 & D2 & F1)|(pre' & a' & b' & post' & E' & Ha' & Hb' & Hc' & F1)]];
    rewrite F1 in Hy'; injection Hy' as <-.
  - apply Qle_refl.
  - apply Dir; auto.
  - assert (Ia : In a' (p0 :: l))
      by (rewrite E'; apply in_or_app; right; now left).
    assert (Ib : In b' (p0 :: l))
      by (rewrite E'; apply in_or_app; right; right; now left).
    destruct (segment_t x' (fst a') (fst b') Ha' Hb').
    apply lerp_above; auto.
  - exfalso. lra.
  - apply Qle_refl.
  - exfalso. lra.
  - exfalso.
    assert (Ia : In a (p0 :: l))
      by (rewrite E; apply in_or_app; right; now left).
    specialize (Lo a Ia). lra.
  - assert (Ia : In a (p0 :: l))
      by (rewrite E; apply in_or_app; right; now left).
    assert (Ib : In b (p0 :: l))
      by (rewrite E; apply in_or_app; right; right; now left).
    destruct (segment_t x (fst a) (fst b) Ha Hb).
    apply lerp_below; auto.
  - assert (Ia : In a (p0 :: l))
      by (rewrite E; apply in_or_app; right; now left).
    assert (Ib : In b (p0 :: l))
      by (rewrite E; apply in_or_app; right; right; now left).
    assert (Ia' : In a' (p0 :: l))
      by (rewrite E'; apply in_or_app; right; now left).
    assert (Ib' : In b' (p0 :: l))
      by (rewrite E'; apply in_or_app; right; right; now left).
    destruct (segment_t x (fst a) (fst b) Ha Hb) as [T0 T1].
    destruct (segment_t x' (fst a') (fst b') Ha' Hb') as [T0' T1'].
    assert (S1 : StronglySorted x_le (pre ++ a :: b :: post))
      by now rewrite <- E.
    assert (S2 : StronglySorted x_le (pre' ++ a' :: b' :: post'))
      by now rewrite <- E'.
    assert (G1 : forall c, In c (p0 :: l) -> fst c <= fst a \/ fst b <= fst c).
    { intros c Hin. apply (neighbours_gap pre a b post c S1).
      now rewrite <- E. }
    assert (G2 : forall c, In c (p0 :: l) ->
                   fst c <= fst a' \/ fst b' <= fst c).
    { intros c Hin. apply (neighbours_gap pre' a' b' post' c S2).
      now rewrite <- E'. }
    destruct (G1 a' Ia') as [K|K].
    + (* the same segment *)
      assert (Ea : fst a == fst a').
      { destruct (G2 a Ia) as [K'|K']; [now apply Qle_antisym|].
        exfalso. lra. }
      assert (Eb : fst b == fst b').
      { destruct (G2 b Ib) as [K1|K1]; [exfalso; lra|].
        destruct (G1 b' Ib') as [K2|K2]; [exfalso; lra|].
        now apply Qle_antisym. }
      assert (Va : sgn * snd a == sgn * snd a')
        by (apply Qle_antisym; apply Dir; auto; lra).
      assert (Vb : sgn * snd b == sgn * snd b')
        by (apply Qle_antisym; apply Dir; auto; lra).
      assert (Vab : sgn * snd a <= sgn * snd b) by (apply Dir; auto; lra).
      set (t := (x - fst a) / (fst b - fst a)) in *.
      set (t' := (x' - fst a') / (fst b' - fst a')) in *.
      assert (Tt : t <= t').
      { unfold t, t'. rewrite <- Ea, <- Eb.
        apply Qle_shift_div_l; [lra|].
        setoid_replace ((x - fst a) / (fst b - fst a) * (fst b - fst a))
          with (x - fst a) by (field; intros C; lra).
        lra. }
      unfold lerp.
      assert (R1 : sgn * (snd a + (snd b - snd a) * t)
                   == sgn * snd a + (sgn * snd b - sgn * snd a) * t) by ring.
      assert (R2 : sgn * (snd a' + (snd b' - snd a') * t')
                   == sgn * snd a + (sgn * snd b - sgn * snd a) * t')
        by (rewrite Va, Vb; ring).
      rewrite R1, R2.
      assert (M : (sgn * snd b - sgn * snd a) * t
                  <= (sgn * snd b - sgn * snd a) * t').
      { rewrite (Qmult_comm _ t), (Qmult_comm _ t').
        apply Qmult_le_compat_r; lra. }
      lra.
    + (* a later segment *)
      apply Qle_trans with (sgn * snd b).
      * apply lerp_below; auto; [apply Dir; auto; lra|apply Qle_refl].
      * apply Qle_trans with (sgn * snd a'); [now apply Dir|].
        apply lerp_above; auto; [apply Qle_refl|apply Dir; auto; lra].
Qed.

End Direction.

(** Discharges a bound on the y values of a written-out list of anchors. *)
Ltac anchors_in_range :=
  repeat (apply Forall_cons; [simpl; unfold inject_Z; lra|]);
  apply Forall_nil.

(** Discharges the direction of a written-out list of anchors. *)
Ltac anchors_directed :=
  let c := fresh "c" in
  let d := fresh "d" in
  let Hc := fresh "Hc" in
  let Hd := fresh "Hd" in
  intros c d Hc Hd;
  simpl in Hc, Hd;
  repeat match goal with
  | H : _ \/ _ |- _ => destruct H
  | H : False |- _ => destruct H
  end;
  subst; simpl; lra.

Lemma piecewise_linear_rises (points : list point) (x x' y y' : Q) :
  (forall c d, In c points -> In d points ->
     fst c <= fst d -> snd c <= snd d) ->
  x <= x' ->
  piecewise_linear x points = Ok y ->
  piecewise_linear x' points = Ok y' ->
  y <= y'.
Proof.
  intros D Hxx Hy Hy'.
  assert (K : 1 * y <= 1 * y').
  { apply (piecewise_linear_directed 1 points) with (x := x) (x' := x');
      try assumption.
    intros c d Hc Hd Hcd. specialize (D c d Hc Hd Hcd). lra. }
  lra.
Qed.

Lemma piecewise_linear_falls (points : list point) (x x' y y' : Q) :
  (forall c d, In c points -> In d points ->
     fst c <= fst d -> snd d <= snd c) ->
  x <= x' ->
  piecewise_linear x points = Ok y ->
  piecewise_linear x' points = Ok y' ->
  y' <= y.
Proof.
  intros D Hxx Hy Hy'.
  assert (K : (-1) * y <= (-1) * y').
  { apply (piecewise_linear_directed (-1) points) with (x := x) (x' := x');
      try assumption.
    intros c d Hc Hd Hcd. specialize (D c d Hc Hd Hcd). lra. }
  lra.
Qed.



(** * Further properties of the gauges *)

(** ** A clamped curve *)

Lemma curve_range (lo hi : Z) (x : Q) (points : list point) (v : Z) :
  (0 <= lo)%Z -> (hi <= 100)%Z ->
  Forall (fun p => inject_Z lo <= snd p <= inject_Z hi) points ->
  (y <- piecewise_linear x points ;; Ok (clamp100 y)) = Ok v ->
  (lo <= v <= hi)%Z.
Proof.
  intros H0 H100 F H.
  destruct (piecewise_linear x points) as [y|e] eqn:E; [|discriminate].
  simpl in H. injection H as <-.
  destruct (piecewise_linear_range _ _ _ _ _ F E).
  now apply clamp100_between.
Qed.

Lemma curve_falls (points : list point) (x x' : Q) (v v' : Z) :
  (forall c d, In c points -> In d points ->
     fst c <= fst d -> snd d <= snd c) ->
  x <= x' ->
  (y <- piecewise_linear x points ;; Ok (clamp100 y)) = Ok v ->
  (y <- piecewise_linear x' points ;; Ok (clamp100 y)) = Ok v' ->
  (v' <= v)%Z.
Proof.
  intros D Hxx H H'.
  destruct (piecewise_linear x points) as [y|e] eqn:E; [|discriminate].
  destruct (piecewise_linear x' points) as [y'|e'] eqn:E'; [|discriminate].
  simpl in H, H'. injection H as <-. injection H' as <-.
  apply clamp100_mono.
  now apply (piecewise_linear_falls points x x').
Qed.

Lemma curve_rises (points : list point) (x x' : Q) (v v' : Z) :
  (forall c d, In c points -> In d points ->
     fst c <= fst d -> snd c <= snd d) ->
  x <= x' ->
  (y <- piecewise_linear x points ;; Ok (clamp100 y)) = Ok v ->
  (y <- piecewise_linear x' points ;; Ok (clamp100 y)) = Ok v' ->
  (v <= v')%Z.
Proof.
  intros D Hxx H H'.
  destruct (piecewise_linear x points) as [y|e] eqn:E; [|discriminate].
  destruct (piecewise_linear x' points) as [y'|e'] eqn:E'; [|discriminate].
  simpl in H, H'. injection H as <-. injection H' as <-.
  apply clamp100_mono.
  now apply (piecewise_linear_rises points x x').
Qed.

Lemma py_min_spec (a x : Q) :
  py_min a x <= a /\ py_min a x <= x /\ (py_min a x == a \/ py_min a x == x).
Proof.
  unfold py_min. destruct (Qltb x a) eqn:E.
  - apply Qltb_true in E. split; [lra|]. split; [lra|]. now right.
  - apply Qltb_false in E. split; [lra|]. split; [lra|]. now left.
Qed.

Lemma py_max_spec (a x : Q) :
  a <= py_max a x /\ x <= py_max a x /\ (py_max a x == a \/ py_max a x == x).
Proof.
  unfold py_max. destruct (Qltb a x) eqn:E.
  - apply Qltb_true in E. split; [lra|]. split; [lra|]. now right.
  - apply Qltb_false in E. split; [lra|]. split; [lra|]. now left.
Qed.

(** [max(lo, min(hi, x))] keeps the order of its argument. *)
Lemma window_mono (lo hi x x' : Q) :
  x <= x' -> py_max lo (py_min hi x) <= py_max lo (py_min hi x').
Proof.
  intros H.
  destruct (py_min_spec hi x) as (A1 & A2 & [A3|A3]),
           (py_min_spec hi x') as (B1 & B2 & [B3|B3]),
           (py_max_spec lo (py_min hi x)) as (C1 & C2 & [C3|C3]),
           (py_max_spec lo (py_min hi x')) as (D1 & D2 & [D3|D3]); lra.
Qed.

Lemma window_range (lo hi x : Q) :
  lo <= hi -> lo <= py_max lo (py_min hi x) <= hi.
Proof.
  intros H.
  destruct (py_min_spec hi x) as (A1 & A2 & [A3|A3]),
           (py_max_spec lo (py_min hi x)) as (C1 & C2 & [C3|C3]); lra.
Qed.

(** ** Temperature *)

Lemma temp_value_mono (t t' : Q) :
  t <= t' -> (temp_value t' <= temp_value t)%Z.
Proof. intros H. unfold temp_value. apply clamp100_mono. lra. Qed.

(** X7. The temperature gauge never rises when the temperature rises; it
    reads 100 at 0 F and below, 0 at 100 F and above, and exactly
    [100 - t] at a whole number of degrees [t] between 0 and 100. *)
Theorem X7_temperature_gauge :
  (forall t t' : Q, t <= t' -> (temp_value t' <= temp_value t)%Z) /\
  (forall t : Q, t <= 0 -> temp_value t = 100%Z) /\
  (forall t : Q, 100 <= t -> temp_value t = 0%Z) /\
  (forall z : Z, (0 <= z <= 100)%Z -> temp_value (inject_Z z) = (100 - z)%Z).
Proof.
  split; [exact temp_value_mono|]. split; [|split].
  - intros t H. pose proof (temp_value_mono t 0 H) as M.
    pose proof (temp_value_range t). change (temp_value 0) with 100%Z in M.
    lia.
  - intros t H. pose proof (temp_value_mono 100 t H) as M.
    pose proof (temp_value_range t). change (temp_value 100) with 0%Z in M.
    lia.
  - intros z H. unfold temp_value.
    assert (E : 100 - inject_Z z == inject_Z (100 - z)).
    { unfold Z.sub. rewrite inject_Z_plus, inject_Z_opp. reflexivity. }
    rewrite E. apply clamp100_fixed. lia.
Qed.

Lemma X7_temperature_gauge_witness :
  (temp_value 72 <= temp_value 50)%Z /\
  temp_value (-4) = 100%Z /\
  temp_value 113 = 0%Z /\
  temp_value (inject_Z 72) = (100 - 72)%Z.
Proof.
  destruct X7_temperature_gauge as (A & B & C & D).
  split; [|split; [|split]].
  - apply A. vm_compute. discriminate.
  - apply B. vm_compute. discriminate.
  - apply C. vm_compute. discriminate.
  - apply D. lia.
Defined.

(** ** Hydration *)

Lemma water_anchors_range :
  Forall (fun p => inject_Z 5 <= snd p <= inject_Z 95) water_anchors.
Proof. unfold water_anchors. anchors_in_range. Qed.

Lemma water_anchors_fall :
  forall c d, In c water_anchors -> In d water_anchors ->
    fst c <= fst d -> snd d <= snd c.
Proof. unfold water_anchors. anchors_directed. Qed.

Lemma water_value_range (clock t0 : Q) (v : Z) :
  water_value clock t0 = Ok v -> (5 <= v <= 95)%Z.
Proof.
  unfold water_value.
  destruct (Qle_bool 4 ((clock - t0) / 3600)).
  - intros H. injection H as <-. lia.
  - apply curve_range; [lia|lia|exact water_anchors_range].
Qed.

Lemma water_value_falls (c1 l1 c2 l2 : Q) (v1 v2 : Z) :
  c1 - l1 <= c2 - l2 ->
  water_value c1 l1 = Ok v1 -> water_value c2 l2 = Ok v2 ->
  (v2 <= v1)%Z.
Proof.
  intros H H1 H2.
  pose proof (water_value_range _ _ _ H1) as R1.
  assert (Hh : (c1 - l1) / 3600 <= (c2 - l2) / 3600).
  { apply Qle_shift_div_l; [reflexivity|].
    setoid_replace ((c1 - l1) / 3600 * 3600) with (c1 - l1) by field.
    exact H. }
  unfold water_value in H1, H2.
  destruct (Qle_bool 4 ((c2 - l2) / 3600)) eqn:E2.
  - injection H2 as <-. lia.
  - destruct (Qle_bool 4 ((c1 - l1) / 3600)) eqn:E1.
    + apply Qle_bool_iff in E1. apply Qle_bool_false in E2. exfalso. lra.
    + exact (curve_falls _ _ _ _ _ water_anchors_fall Hh H1 H2).
Qed.

Lemma water_value_fresh (clock t0 : Q) :
  clock - t0 <= 0 -> water_value clock t0 = Ok 95%Z.
Proof.
  intros H. unfold water_value.
  assert (Hh : (clock - t0) / 3600 <= 0).
  { apply Qle_shift_div_r; [reflexivity|lra]. }
  assert (E : Qle_bool 4 ((clock - t0) / 3600) = false)
    by (apply Qle_bool_false; lra).
  rewrite E. fold water_anchors.
  rewrite (piecewise_linear_low water_anchors _ (0, 95)
             [(1, 70); (2, 52); (3, 25); (4, 5)] eq_refl Hh).
  reflexivity.
Qed.

(** X8. The hydration gauge always lies between 5 and 95, never rises as
    more time passes since the last hydration event, and reads 95 when no
    time has passed (or the clock reading is earlier than the event). *)
Theorem X8_hydration_gauge :
  (forall (clock t0 : Q) (v : Z),
     water_value clock t0 = Ok v -> (5 <= v <= 95)%Z) /\
  (forall (c1 l1 c2 l2 : Q) (v1 v2 : Z),
     c1 - l1 <= c2 - l2 ->
     water_value c1 l1 = Ok v1 -> water_value c2 l2 = Ok v2 ->
     (v2 <= v1)%Z) /\
  (forall clock t0 : Q,
     clock - t0 <= 0 -> water_value clock t0 = Ok 95%Z).
Proof.
  split; [exact water_value_range|].
  split; [exact water_value_falls|exact water_value_fresh].
Qed.

Lemma X8_hydration_gauge_witness :
  exists v1 v2,
    water_value 5000 0 = Ok v1 /\ water_value 9000 0 = Ok v2 /\
    (5 <= v1 <= 95)%Z /\ (v2 <= v1)%Z /\
    water_value 100 130 = Ok 95%Z.
Proof.
  destruct X8_hydration_gauge as (A & B & C).
  eexists. eexists.
  split; [vm_compute; reflexivity|].
  split; [vm_compute; reflexivity|].
  split; [|split].
  - apply (A 5000 0). vm_compute. reflexivity.
  - apply (B 5000 0 9000 0); [vm_compute; discriminate|reflexivity|reflexivity].
  - apply C. vm_compute. discriminate.
Defined.

(** ** Event countdown *)

Lemma event_anchors_rise :
  forall c d,
    In c [(0, 30); (6, 70); (8, 80); (10, 85); (12, 90)] ->
    In d [(0, 30); (6, 70); (8, 80); (10, 85); (12, 90)] ->
    fst c <= fst d -> snd c <= snd d.
Proof. anchors_directed. Qed.

Lemma event_value_range (left : Q) (v : Z) :
  event_value left = Ok v -> (30 <= v <= 90)%Z.
Proof.
  unfold event_value.
  destruct (Qle_bool (left / 3600) 0); [intros H; injection H as <-; lia|].
  destruct (Qle_bool 12 (left / 3600)); [intros H; injection H as <-; lia|].
  apply curve_range; [lia|lia|anchors_in_range].
Qed.

Lemma event_value_rises (t t' : Q) (v v' : Z) :
  t <= t' -> event_value t = Ok v -> event_value t' = Ok v' -> (v <= v')%Z.
Proof.
  intros H H1 H2.
  pose proof (event_value_range _ _ H1) as R1.
  pose proof (event_value_range _ _ H2) as R2.
  assert (Hh : t / 3600 <= t' / 3600).
  { apply Qle_shift_div_l; [reflexivity|].
    setoid_replace (t / 3600 * 3600) with t by field. exact H. }
  unfold event_value in H1, H2.
  destruct (Qle_bool (t / 3600) 0) eqn:A1.
  { injection H1 as <-. lia. }
  destruct (Qle_bool 12 (t' / 3600)) eqn:B2.
  { destruct (Qle_bool (t' / 3600) 0) eqn:A2.
    - apply Qle_bool_iff in A2, B2. exfalso. lra.
    - injection H2 as <-. lia. }
  apply Qle_bool_false in A1, B2.
  assert (A2 : Qle_bool (t' / 3600) 0 = false) by (apply Qle_bool_false; lra).
  assert (B1 : Qle_bool 12 (t / 3600) = false) by (apply Qle_bool_false; lra).
  rewrite A2 in H2. rewrite B1 in H1.
  exact (curve_rises _ _ _ _ _ event_anchors_rise Hh H1 H2).
Qed.

(** X9. The event gauge always lies between 30 and 90 and never falls as
    the time left grows.  It reads 30 once the target has passed (zero or
    negative seconds left) and 90 from twelve hours left on. *)
Theorem X9_event_gauge :
  (forall (left : Q) (v : Z), event_value left = Ok v -> (30 <= v <= 90)%Z) /\
  (forall (t t' : Q) (v v' : Z),
     t <= t' -> event_value t = Ok v -> event_value t' = Ok v' ->
     (v <= v')%Z) /\
  (forall left : Q, left <= 0 -> event_value left = Ok 30%Z) /\
  (forall left : Q, 43200 <= left -> event_value left = Ok 90%Z).
Proof.
  split; [exact event_value_range|]. split; [exact event_value_rises|].
  split; intros left H; unfold event_value.
  - assert (E : Qle_bool (left / 3600) 0 = true).
    { apply Qle_bool_iff. apply Qle_shift_div_r; [reflexivity|lra]. }
    now rewrite E.
  - assert (Hh : 12 <= left / 3600).
    { apply Qle_shift_div_l; [reflexivity|lra]. }
    assert (E0 : Qle_bool (left / 3600) 0 = false)
      by (apply Qle_bool_false; lra).
    assert (E : Qle_bool 12 (left / 3600) = true) by now apply Qle_bool_iff.
    now rewrite E0, E.
Qed.

Lemma X9_event_gauge_witness :
  exists v v',
    event_value 10000 = Ok v /\ event_value 30000 = Ok v' /\
    (30 <= v <= 90)%Z /\ (v <= v')%Z /\
    event_value (-100) = Ok 30%Z /\ event_value 72000 = Ok 90%Z.
Proof.
  destruct X9_event_gauge as (A & B & C & D).
  eexists. eexists.
  split; [vm_compute; reflexivity|].
  split; [vm_compute; reflexivity|].
  split; [|split; [|split]].
  - apply (A 10000). vm_compute. reflexivity.
  - apply (B 10000 30000); [vm_compute; discriminate|reflexivity|reflexivity].
  - apply C. vm_compute. discriminate.
  - apply D. vm_compute. discriminate.
Defined.

(** ** Commute *)

Lemma commute_anchors_fall :
  forall c d,
    In c [(12, 100); (18, 65); (45, 30)] ->
    In d [(12, 100); (18, 65); (45, 30)] ->
    fst c <= fst d -> snd d <= snd c.
Proof. anchors_directed. Qed.

Lemma commute_value_range (m : Q) (v : Z) :
  commute_value m = Ok v -> (30 <= v <= 100)%Z.
Proof.
  unfold commute_value.
  apply curve_range; [lia|lia|anchors_in_range].
Qed.

Lemma commute_value_falls (m m' : Q) (v v' : Z) :
  m <= m' -> commute_value m = Ok v -> commute_value m' = Ok v' ->
  (v' <= v)%Z.
Proof.
  intros H H1 H2. unfold commute_value in H1, H2.
  exact (curve_falls _ _ _ _ _ commute_anchors_fall
           (window_mono 12 45 m m' H) H1 H2).
Qed.

Lemma commute_value_at (m c : Q) :
  py_max 12 (py_min 45 m) == c -> commute_value m = commute_value c.
Proof.
  intros H. unfold commute_value. apply curve_comp. rewrite H.
  destruct (window_range 12 45 m) as [L U]; [lra|].
  rewrite H in L, U.
  destruct (py_min_spec 45 c) as (A1 & A2 & [A|A]),
           (py_max_spec 12 (py_min 45 c)) as (B1 & B2 & [B|B]); lra.
Qed.

(** X10. The commute gauge always lies between 30 and 100 and never rises
    as the estimate grows.  Estimates of 12 minutes or less read 100 and
    estimates of 45 minutes or more read 30: values outside 12..45 are
    never extrapolated. *)
Theorem X10_commute_gauge :
  (forall (m : Q) (v : Z), commute_value m = Ok v -> (30 <= v <= 100)%Z) /\
  (forall (m m' : Q) (v v' : Z),
     m <= m' -> commute_value m = Ok v -> commute_value m' = Ok v' ->
     (v' <= v)%Z) /\
  (forall m : Q, m <= 12 -> commute_value m = Ok 100%Z) /\
  (forall m : Q, 45 <= m -> commute_value m = Ok 30%Z).
Proof.
  split; [exact commute_value_range|]. split; [exact commute_value_falls|].
  split; intros m H.
  - rewrite (commute_value_at m 12); [reflexivity|].
    destruct (py_min_spec 45 m) as (A1 & A2 & [A|A]),
             (py_max_spec 12 (py_min 45 m)) as (B1 & B2 & [B|B]); lra.
  - rewrite (commute_value_at m 45); [reflexivity|].
    destruct (py_min_spec 45 m) as (A1 & A2 & [A|A]),
             (py_max_spec 12 (py_min 45 m)) as (B1 & B2 & [B|B]); lra.
Qed.

Lemma X10_commute_gauge_witness :
  exists v v',
    commute_value 15 = Ok v /\ commute_value 33 = Ok v' /\
    (30 <= v <= 100)%Z /\ (v' <= v)%Z /\
    commute_value 5 = Ok 100%Z /\ commute_value 100 = Ok 30%Z.
Proof.
  destruct X10_commute_gauge as (A & B & C & D).
  eexists. eexists.
  split; [vm_compute; reflexivity|].
  split; [vm_compute; reflexivity|].
  split; [|split; [|split]].
  - apply (A 15). vm_compute. reflexivity.
  - apply (B 15 33); [vm_compute; discriminate|reflexivity|reflexivity].
  - apply C. vm_compute. discriminate.
  - apply D. vm_compute. discriminate.
Defined.

(** ** Posture *)

Lemma stand_anchors_fall :
  forall c d,
    In c [(0, 100); (25, 50); (40, 10)] ->
    In d [(0, 100); (25, 50); (40, 10)] ->
    fst c <= fst d -> snd d <= snd c.
Proof. anchors_directed. Qed.

Lemma stand_value_running (st tot : Q) :
  0 < tot ->
  stand_value st tot
  = (y <- piecewise_linear (py_max 0 (py_min 40 (st / tot * 100)))
            [(0, 100); (25, 50); (40, 10)] ;;
     Ok (clamp100 y)).
Proof.
  intros H. unfold stand_value.
  assert (E : Qle_bool tot 0 = false) by now apply Qle_bool_false.
  rewrite E, py_div_ok by (intros C; lra). reflexivity.
Qed.

Lemma stand_value_range (st tot : Q) (v : Z) :
  stand_value st tot = Ok v -> (10 <= v <= 100)%Z.
Proof.
  destruct (Qlt_le_dec 0 tot) as [H|H].
  - rewrite (stand_value_running st tot H).
    apply curve_range; [lia|lia|anchors_in_range].
  - unfold stand_value. apply Qle_bool_iff in H. rewrite H.
    intros K. injection K as <-. lia.
Qed.

Lemma share_mono (st st' tot : Q) :
  0 < tot -> st <= st' -> st / tot * 100 <= st' / tot * 100.
Proof.
  intros H Hs.
  assert (K : st / tot <= st' / tot).
  { apply Qle_shift_div_l; [exact H|].
    setoid_replace (st / tot * tot) with st by (field; intros C; lra).
    exact Hs. }
  lra.
Qed.

Lemma stand_value_falls (st st' tot : Q) (v v' : Z) :
  0 < tot -> st <= st' ->
  stand_value st tot = Ok v -> stand_value st' tot = Ok v' ->
  (v' <= v)%Z.
Proof.
  intros H Hs H1 H2.
  rewrite (stand_value_running st tot H) in H1.
  rewrite (stand_value_running st' tot H) in H2.
  exact (curve_falls _ _ _ _ _ stand_anchors_fall
           (window_mono 0 40 _ _ (share_mono st st' tot H Hs)) H1 H2).
Qed.

Lemma stand_value_at (st tot c : Q) :
  0 < tot ->
  py_max 0 (py_min 40 (st / tot * 100)) == c ->
  stand_value st tot
  = (y <- piecewise_linear c [(0, 100); (25, 50); (40, 10)] ;;
     Ok (clamp100 y)).
Proof.
  intros H E. rewrite (stand_value_running _ _ H). now apply curve_comp.
Qed.

(** X11. The posture gauge reads 100 while no time has been accumulated.
    Once time has been accumulated it lies between 10 and 100, never rises
    as the standing time grows, reads 100 with no standing time and reads
    10 as soon as the standing share reaches 40 percent: a larger share is
    not rewarded further. *)
Theorem X11_posture_gauge :
  (forall st tot : Q, tot <= 0 -> stand_value st tot = Ok 100%Z) /\
  (forall (st tot : Q) (v : Z),
     stand_value st tot = Ok v -> (10 <= v <= 100)%Z) /\
  (forall (st st' tot : Q) (v v' : Z),
     0 < tot -> st <= st' ->
     stand_value st tot = Ok v -> stand_value st' tot = Ok v' ->
     (v' <= v)%Z) /\
  (forall st tot : Q,
     0 < tot -> st <= 0 -> stand_value st tot = Ok 100%Z) /\
  (forall st tot : Q,
     0 < tot -> 40 * tot <= 100 * st -> stand_value st tot = Ok 10%Z).
Proof.
  split; [|split; [exact stand_value_range|split;
                   [exact stand_value_falls|split]]].
  - intros st tot H. unfold stand_value.
    apply Qle_bool_iff in H. now rewrite H.
  - intros st tot H Hs.
    rewrite (stand_value_at st tot 0 H); [reflexivity|].
    assert (K : st / tot * 100 <= 0).
    { pose proof (share_mono st 0 tot H Hs) as M.
      setoid_replace (0 / tot * 100) with 0 in M by (field; intros C; lra).
      exact M. }
    destruct (py_min_spec 40 (st / tot * 100)) as (A1 & A2 & [A|A]),
             (py_max_spec 0 (py_min 40 (st / tot * 100)))
               as (B1 & B2 & [B|B]); lra.
  - intros st tot H Hs.
    rewrite (stand_value_at st tot 40 H); [reflexivity|].
    assert (K : 40 <= st / tot * 100).
    { assert (K' : (2 # 5) <= st / tot).
      { apply Qle_shift_div_l; [exact H|]. lra. }
      lra. }
    destruct (py_min_spec 40 (st / tot * 100)) as (A1 & A2 & [A|A]),
             (py_max_spec 0 (py_min 40 (st / tot * 100)))
               as (B1 & B2 & [B|B]); lra.
Qed.

Lemma X11_posture_gauge_witness :
  stand_value 0 0 = Ok 100%Z /\
  (exists v v',
     stand_value 1000 10000 = Ok v /\ stand_value 3000 10000 = Ok v' /\
     (10 <= v <= 100)%Z /\ (v' <= v)%Z) /\
  stand_value 0 5000 = Ok 100%Z /\
  stand_value 9000 10000 = Ok 10%Z.
Proof.
  destruct X11_posture_gauge as (A & B & C & D & E).
  split; [|split; [|split]].
  - apply A. vm_compute. discriminate.
  - eexists. eexists.
    split; [vm_compute; reflexivity|].
    split; [vm_compute; reflexivity|].
    split.
    + apply (B 1000 10000). vm_compute. reflexivity.
    + apply (C 1000 3000 10000);
        [reflexivity|vm_compute; discriminate|reflexivity|reflexivity].
  - apply D; [reflexivity|vm_compute; discriminate].
  - apply E; [reflexivity|vm_compute; discriminate].
Defined.

(** ** Weather *)

(** Case analysis on a weather code, with a closing step for each case. *)
Ltac on_each_code wcode wind close :=
  unfold wmo_to_kind, code_in, existsb;
  repeat match goal with
  | |- context [(wcode =? ?k)%Z] =>
      destruct (Z.eqb_spec wcode k); [subst wcode; cbn; close|]
  end;
  cbn; close.

Ltac close_kind wind :=
  let E := fresh "E" in
  destruct (Qle_bool 20 wind) eqn:E;
  [apply Qle_bool_iff in E|apply Qle_bool_false in E];
  cbn;
  solve [ tauto
        | split; intros; repeat split;
          solve [discriminate | lia | lra | assumption | reflexivity
                | intuition (discriminate || lia || lra)] ].

Lemma wmo_to_kind_is_key (wcode : Z) (wind_mph : Q) :
  In (wmo_to_kind wcode wind_mph) (map fst WEATHER_TICKS).
Proof.
  on_each_code wcode wind_mph
    ltac:(destruct (Qle_bool 20 wind_mph); cbn; tauto).
Qed.

Lemma wmo_to_kind_severe_iff (wcode : Z) (wind_mph : Q) :
  wmo_to_kind wcode wind_mph = "severe" <-> wcode = 96%Z \/ wcode = 99%Z.
Proof. on_each_code wcode wind_mph ltac:(close_kind wind_mph). Qed.

Lemma wmo_to_kind_thunder_iff (wcode : Z) (wind_mph : Q) :
  wmo_to_kind wcode wind_mph = "thunder" <-> wcode = 95%Z.
Proof. on_each_code wcode wind_mph ltac:(close_kind wind_mph). Qed.

Lemma wmo_to_kind_wind_iff (wcode : Z) (wind_mph : Q) :
  wmo_to_kind wcode wind_mph = "wind" <->
  20 <= wind_mph /\ wcode <> 95%Z /\ wcode <> 96%Z /\ wcode <> 99%Z.
Proof. on_each_code wcode wind_mph ltac:(close_kind wind_mph). Qed.

Lemma wmo_to_kind_calm (wcode : Z) (wind_mph : Q) :
  wind_mph < 20 -> wmo_to_kind wcode wind_mph = wmo_to_kind wcode 0.
Proof.
  intros H. unfold wmo_to_kind.
  apply Qle_bool_false in H. rewrite H. reflexivity.
Qed.

(** X12. The classifier's answer is always one of the seven keys of the
    score table.  It is "severe" exactly for codes 96 and 99, "thunder"
    exactly for code 95, and "wind" exactly when the wind is 20 mph or more
    and the code is none of 95, 96, 99; a wind below 20 mph has no effect
    on the answer. *)
Theorem X12_weather_kinds :
  forall (wcode : Z) (wind_mph : Q),
    In (wmo_to_kind wcode wind_mph) (map fst WEATHER_TICKS) /\
    (wmo_to_kind wcode wind_mph = "severe" <->
     wcode = 96%Z \/ wcode = 99%Z) /\
    (wmo_to_kind wcode wind_mph = "thunder" <-> wcode = 95%Z) /\
    (wmo_to_kind wcode wind_mph = "wind" <->
     20 <= wind_mph /\ wcode <> 95%Z /\ wcode <> 96%Z /\ wcode <> 99%Z) /\
    (wind_mph < 20 -> wmo_to_kind wcode wind_mph = wmo_to_kind wcode 0).
Proof.
  intros wcode wind_mph.
  split; [apply wmo_to_kind_is_key|].
  split; [apply wmo_to_kind_severe_iff|].
  split; [apply wmo_to_kind_thunder_iff|].
  split; [apply wmo_to_kind_wind_iff|apply wmo_to_kind_calm].
Qed.

Lemma X12_weather_kinds_witness :
  wmo_to_kind 61 25 = "wind" /\
  wmo_to_kind 95 25 = "thunder" /\
  wmo_to_kind 99 25 = "severe" /\
  wmo_to_kind 61 (39 # 2) = wmo_to_kind 61 0.
Proof.
  destruct (X12_weather_kinds 61 25) as (_ & _ & _ & W & _).
  destruct (X12_weather_kinds 95 25) as (_ & _ & T & _).
  destruct (X12_weather_kinds 99 25) as (_ & S & _).
  destruct (X12_weather_kinds 61 (39 # 2)) as (_ & _ & _ & _ & C).
  split; [|split; [|split]].
  - apply W. split; [vm_compute; discriminate|lia].
  - apply T. reflexivity.
  - apply S. now right.
  - apply C. reflexivity.
Defined.

Lemma dict_get_missing (d : list (string * Z)) (key : string) (default : Z) :
  ~ In key (map fst d) -> dict_get d key default = default.
Proof.
  induction d as [|[k v] d IH]; intros N; [reflexivity|].
  simpl in *. destruct (String.eqb_spec k key) as [E|E].
  - exfalso. apply N. now left.
  - apply IH. intros C. apply N. now right.
Qed.

Lemma weather_value_of_kind (wcode : Z) (wind_mph : Q) :
  In (weather_value (wmo_to_kind wcode wind_mph))
     [95; 75; 57; 45; 30; 20; 10]%Z.
Proof.
  on_each_code wcode wind_mph
    ltac:(destruct (Qle_bool 20 wind_mph); vm_compute; tauto).
Qed.

(** X13. A string that is not a key of the score table scores the default
    75.  The weather gauge of a reading is always one of 95, 75, 57, 45,
    30, 20, 10; it is at most 20 when the wind is 20 mph or more and the
    code is not 95, and at least 30 when the wind is below 20 mph and the
    code is neither 96 nor 99. *)
Theorem X13_weather_gauge :
  (forall kind : string,
     ~ In kind (map fst WEATHER_TICKS) -> weather_value kind = 75%Z) /\
  (forall (wcode : Z) (wind_mph : Q),
     In (weather_value (wmo_to_kind wcode wind_mph))
        [95; 75; 57; 45; 30; 20; 10]%Z) /\
  (forall (wcode : Z) (wind_mph : Q),
     20 <= wind_mph -> wcode <> 95%Z ->
     (weather_value (wmo_to_kind wcode wind_mph) <= 20)%Z) /\
  (forall (wcode : Z) (wind_mph : Q),
     wind_mph < 20 -> wcode <> 96%Z -> wcode <> 99%Z ->
     (30 <= weather_value (wmo_to_kind wcode wind_mph))%Z).
Proof.
  split; [|split; [exact weather_value_of_kind|split]].
  - intros kind N. unfold weather_value.
    now rewrite (dict_get_missing _ _ _ N).
  - intros wcode wind_mph Hw N.
    destruct (Z.eq_dec wcode 96) as [E|N96];
      [rewrite (proj2 (wmo_to_kind_severe_iff wcode wind_mph));
       [vm_compute; discriminate|now left]|].
    destruct (Z.eq_dec wcode 99) as [E|N99];
      [rewrite (proj2 (wmo_to_kind_severe_iff wcode wind_mph));
       [vm_compute; discriminate|now right]|].
    rewrite (proj2 (wmo_to_kind_wind_iff wcode wind_mph));
      [vm_compute; discriminate|now repeat split].
  - intros wcode wind_mph Hw N96 N99.
    pose proof (wmo_to_kind_is_key wcode wind_mph) as K.
    assert (Ns : wmo_to_kind wcode wind_mph <> "severe").
    { intros C. apply wmo_to_kind_severe_iff in C. lia. }
    assert (Nw : wmo_to_kind wcode wind_mph <> "wind").
    { intros C. apply wmo_to_kind_wind_iff in C. destruct C as [C _]. lra. }
    simpl in K.
    destruct K as [K|[K|[K|[K|[K|[K|[K|[]]]]]]]]; rewrite <- K in *;
      try contradiction; vm_compute; discriminate.
Qed.

Lemma X13_weather_gauge_witness :
  weather_value "fog" = 75%Z /\
  (weather_value (wmo_to_kind 71 22) <= 20)%Z /\
  (30 <= weather_value (wmo_to_kind 71 3))%Z.
Proof.
  destruct X13_weather_gauge as (A & _ & C & D).
  split; [|split].
  - apply A. simpl. intros H.
    repeat (destruct H as [H|H]; [discriminate H|]). exact H.
  - apply C; [vm_compute; discriminate|lia].
  - apply D; [reflexivity|lia|lia].
Defined.

(** * Further properties of the outbound line *)

Lemma all_scores_spec (f : Z -> bool) :
  all_scores f = true -> forall n, (0 <= n <= 100)%Z -> f n = true.
Proof.
  unfold all_scores. intros H n Hn.
  rewrite forallb_forall in H. apply H.
  rewrite <- (Z2Nat.id n) by lia.
  apply in_map. apply in_seq. lia.
Qed.

Lemma count_char_app (c : ascii) (a b : string) :
  count_char c (a ++ b)%string = (count_char c a + count_char c b)%nat.
Proof.
  induction a as [|c' a IH]; simpl; [reflexivity|]. rewrite IH. lia.
Qed.

Lemma count_char_concat (c : ascii) (sep : string) (fields : list string) :
  Forall (fun f => count_char c f = O) fields ->
  count_char c (String.concat sep fields)
  = (pred (List.length fields) * count_char c sep)%nat.
Proof.
  induction fields as [|f l IH]; intros F; [reflexivity|].
  inversion F as [|? ? F0 F']; subst.
  destruct l as [|g l'].
  - simpl. rewrite F0. reflexivity.
  - rewrite concat_cons, !count_char_app, F0, (IH F'). simpl. lia.
Qed.

Lemma last_char_app_one (a : string) (c : ascii) :
  last_char (a ++ String c EmptyString)%string = Some c.
Proof.
  induction a as [|c' a IH]; [reflexivity|].
  simpl. rewrite IH. now destruct (a ++ String c EmptyString)%string.
Qed.

Lemma startswith_two (a b : ascii) (s : string) :
  startswith (String a (String b s)) (String a (String b EmptyString)) = true.
Proof.
  unfold startswith. cbn [String.prefix].
  destruct (ascii_dec a a) as [_|N]; [|now elim N].
  destruct (ascii_dec b b) as [_|N]; [now destruct s|now elim N].
Qed.

(** The text of a score has no comma and no newline in it. *)
Lemma score_text_plain (c : ascii) (n : Z) :
  c = ","%char \/ c = ascii_of_nat 10 ->
  (0 <= n <= 100)%Z -> count_char c (py_str n) = O.
Proof.
  intros Hc Hn. apply Nat.eqb_eq.
  apply (all_scores_spec (fun n => Nat.eqb (count_char c (py_str n)) 0));
    [|exact Hn].
  destruct Hc as [-> | ->]; vm_compute; reflexivity.
Qed.

Lemma send_update_fields (c : ascii) (vals : list Z) :
  c = ","%char \/ c = ascii_of_nat 10 ->
  Forall (fun f => count_char c f = O)
         (map (fun v => py_str (clamp100 (inject_Z v))) vals).
Proof.
  intros Hc. apply Forall_forall. intros f Hf.
  apply in_map_iff in Hf. destruct Hf as [v [<- _]].
  apply score_text_plain; [exact Hc|apply clamp100_range].
Qed.

(** X14. Whatever integers it is given, [send_update] writes a line that
    begins with "U,", ends with a newline and contains no other newline,
    and has as many commas as values (one comma for an empty list): the
    fields can always be told apart.  Each field is the decimal text of
    its value clamped to 0..100, so a value outside that range is never
    sent as it is. *)
Theorem X14_send_update_framing :
  forall vals : list Z,
    startswith (send_update vals) "U," = true /\
    last_char (send_update vals) = Some (ascii_of_nat 10) /\
    count_char (ascii_of_nat 10) (send_update vals) = 1%nat /\
    count_char "," (send_update vals) = Nat.max 1 (List.length vals) /\
    send_update vals
    = ("U," ++ String.concat ","
                 (map (fun v => py_str (Z.max 0 (Z.min 100 v))) vals)
            ++ newline)%string.
Proof.
  intros vals. unfold send_update.
  split; [apply startswith_two|].
  split.
  { unfold newline. rewrite <- append_assoc. apply last_char_app_one. }
  split; [|split].
  - rewrite !count_char_app, count_char_concat
      by (apply send_update_fields; now right).
    rewrite length_map.
    change (count_char (ascii_of_nat 10) "U,") with 0%nat.
    change (count_char (ascii_of_nat 10) ",") with 0%nat.
    change (count_char (ascii_of_nat 10) newline) with 1%nat. lia.
  - rewrite !count_char_app, count_char_concat
      by (apply send_update_fields; now left).
    rewrite length_map.
    change (count_char "," "U,") with 1%nat.
    change (count_char "," ",") with 1%nat.
    change (count_char "," newline) with 0%nat. lia.
  - do 3 f_equal. apply map_ext. intros v. now rewrite clamp100_inject_Z.
Qed.

(** * Further properties of the sampling loop *)

(** ** What the later steps leave alone *)

Lemma handle_line_keeps_clock (line : string) (clock : Q) (s : RuntimeState) :
  last_state_ts (handle_line line clock s) = last_state_ts s /\
  last_print (handle_line line clock s) = last_print s.
Proof. unfold handle_line. by_cases_on_step. Qed.

Lemma drain_keeps_clock (waiting : list inbound) :
  forall s,
    last_state_ts (fst (drain waiting s)) = last_state_ts s /\
    last_print (fst (drain waiting s)) = last_print s.
Proof.
  induction waiting as [|[raw clock] rest IH]; intros s; simpl.
  - now split.
  - destruct (strip raw =? ""); simpl; [now split|].
    destruct (IH (handle_line (strip raw) clock s)) as (-> & ->).
    apply handle_line_keeps_clock.
Qed.

Lemma poll_weather_keeps_rest (now : Q) (fetch : option (Q * Z * Q))
  (s : RuntimeState) :
  let s' := fst (poll_weather now fetch s) in
  last_state_ts s' = last_state_ts s /\ last_water_ts s' = last_water_ts s /\
  standing s' = standing s /\ last_print s' = last_print s.
Proof. unfold poll_weather, set_weather. by_cases_on_step. Qed.

Lemma poll_commute_keeps_rest (cfg : Config) (now : Q) (fetch : option Q)
  (s : RuntimeState) :
  let s' := fst (poll_commute cfg now fetch s) in
  last_state_ts s' = last_state_ts s /\ last_water_ts s' = last_water_ts s /\
  standing s' = standing s /\ last_print s' = last_print s.
Proof. unfold poll_commute. by_cases_on_step. Qed.

Lemma report_keeps_clock (now : Q) (s : RuntimeState) :
  last_state_ts (fst (report now s)) = last_state_ts s.
Proof. unfold report. by_cases_on_step. Qed.

(** What an iteration does to the fields that only the first two steps
    write. *)
Lemma tick_front (cfg : Config) (i : TickInput) (s s' : RuntimeState)
  (out : TickOutput) :
  tick cfg i s = Ok (s', out) ->
  let d := fst (drain (in_waiting i) (accumulate (in_now i) s)) in
  last_state_ts s' = in_now i /\
  last_water_ts s' = last_water_ts d /\
  standing s' = standing d.
Proof.
  intros H. apply tick_state in H. cbv zeta in H. destruct H as (-> & _).
  cbv zeta.
  rewrite report_keeps_clock.
  match goal with
  | |- context [report ?n ?st] =>
      destruct (report_keeps n st) as (-> & -> & _)
  end.
  match goal with
  | |- context [poll_commute ?c ?n ?f ?st] =>
      destruct (poll_commute_keeps_rest c n f st) as (-> & -> & -> & _)
  end.
  match goal with
  | |- context [poll_weather ?n ?f ?st] =>
      destruct (poll_weather_keeps_rest n f st) as (-> & -> & -> & _)
  end.
  destruct (drain_keeps_clock (in_waiting i) (accumulate (in_now i) s))
    as (-> & _).
  repeat split; reflexivity.
Qed.

(** ** Time accounting over a run *)

Lemma accumulate_total (now : Q) (s : RuntimeState) :
  total_ms (accumulate now s)
  == total_ms s
     + (if Qltb 0 (now - last_state_ts s) then now - last_state_ts s else 0)
       * 1000.
Proof.
  destruct (accumulate_counters now s) as [Hz Hp].
  destruct (Qltb 0 (now - last_state_ts s)) eqn:E.
  - apply Qltb_true in E. now rewrite (proj1 (Hp E)).
  - apply Qltb_false in E. rewrite (proj2 (Hz E)). ring.
Qed.

Lemma accumulate_stand (now : Q) (s : RuntimeState) :
  stand_ms (accumulate now s)
  == stand_ms s
     + (if standing s
        then (if Qltb 0 (now - last_state_ts s)
              then now - last_state_ts s else 0) * 1000
        else 0).
Proof.
  destruct (accumulate_counters now s) as [Hz Hp].
  destruct (Qltb 0 (now - last_state_ts s)) eqn:E.
  - apply Qltb_true in E. rewrite (proj2 (Hp E)).
    destruct (standing s); ring.
  - apply Qltb_false in E. rewrite (proj1 (Hz E)).
    destruct (standing s); ring.
Qed.

Lemma run_total (cfg : Config) (inputs : list TickInput) :
  forall s s' lines,
    run cfg inputs s = Ok (s', lines) ->
    last_state_ts s' = last_now (last_state_ts s) inputs /\
    total_ms s'
    == total_ms s + counted_seconds (last_state_ts s) inputs * 1000.
Proof.
  induction inputs as [|i inputs IH]; intros s s' lines; simpl.
  - intros H. injection H as <- _. split; [reflexivity|ring].
  - destruct (tick cfg i s) as [[s1 out]|e] eqn:T; simpl; [|discriminate].
    destruct (run cfg inputs s1) as [[s2 rest]|e] eqn:R; simpl; [|discriminate].
    intros H. injection H as <- _.
    destruct (IH _ _ _ R) as (I1 & I2).
    destruct (tick_front _ _ _ _ _ T) as (F1 & _).
    destruct (tick_counters _ _ _ _ _ T) as (_ & Et).
    rewrite F1 in I1, I2. split; [exact I1|].
    rewrite I2, Et, accumulate_total. ring.
Qed.

Lemma steady_counted (inputs : list TickInput) :
  forall t, clock_steady t inputs ->
    counted_seconds t inputs == last_now t inputs - t.
Proof.
  induction inputs as [|i inputs IH]; intros t; simpl.
  - intros _. ring.
  - intros [H S]. rewrite (IH _ S).
    destruct (Qltb 0 (in_now i - t)) eqn:E; [ring|].
    apply Qltb_false in E.
    lra.
Qed.

Lemma run_silent (cfg : Config) (inputs : list TickInput) :
  forall s s' lines,
    port_silent inputs ->
    run cfg inputs s = Ok (s', lines) ->
    standing s' = standing s /\
    stand_ms s'
    == stand_ms s
       + (if standing s
          then counted_seconds (last_state_ts s) inputs * 1000 else 0).
Proof.
  induction inputs as [|i inputs IH]; intros s s' lines P; simpl.
  - intros H. injection H as <- _. split; [reflexivity|].
    destruct (standing s); ring.
  - inversion P as [|? ? Pi P']; subst.
    destruct (tick cfg i s) as [[s1 out]|e] eqn:T; simpl; [|discriminate].
    destruct (run cfg inputs s1) as [[s2 rest]|e] eqn:R; simpl; [|discriminate].
    intros H. injection H as <- _.
    destruct (IH _ _ _ P' R) as (I1 & I2).
    destruct (tick_front _ _ _ _ _ T) as (F1 & _ & F3).
    destruct (tick_counters _ _ _ _ _ T) as (Es & _).
    rewrite Pi in F3. cbn [drain fst] in F3.
    destruct (accumulate_keeps (in_now i) s) as (_ & _ & _ & _ & _ & _ & K & _).
    rewrite K in F3.
    split; [congruence|].
    rewrite I2, F1, F3, Es, accumulate_stand.
    destruct (standing s); ring.
Qed.

(** X15. Over any run of iterations, [last_state_ts] ends at the last
    clock reading and [total_ms] grows by exactly 1000 times the sum of
    the positive differences between consecutive clock readings: after a
    backward jump the count resumes from the earlier reading.  When the
    clock never goes backwards that sum is the time from the first
    [last_state_ts] to the last reading.  While no line arrives from the
    device, the standing flag keeps its value and [stand_ms] grows by the
    same amount if the flag is set and not at all otherwise. *)
Theorem X15_time_accounting :
  (forall (cfg : Config) (inputs : list TickInput) (s s' : RuntimeState)
          (lines : list string),
     run cfg inputs s = Ok (s', lines) ->
     last_state_ts s' = last_now (last_state_ts s) inputs /\
     total_ms s'
     == total_ms s + counted_seconds (last_state_ts s) inputs * 1000) /\
  (forall (t : Q) (inputs : list TickInput),
     clock_steady t inputs ->
     counted_seconds t inputs == last_now t inputs - t) /\
  (forall (cfg : Config) (inputs : list TickInput) (s s' : RuntimeState)
          (lines : list string),
     port_silent inputs ->
     run cfg inputs s = Ok (s', lines) ->
     standing s' = standing s /\
     stand_ms s'
     == stand_ms s
        + (if standing s
           then counted_seconds (last_state_ts s) inputs * 1000 else 0)).
Proof.
  split; [|split].
  - intros cfg inputs. apply run_total.
  - intros t inputs. apply steady_counted.
  - intros cfg inputs. apply run_silent.
Qed.

Lemma X15_time_accounting_witness :
  exists s' lines,
    run example_config
        [mkInput 12 [] None None 12; mkInput 9 [] None None 9;
         mkInput 15 [] None None 15]
        (set_standing true (initial_state 10 10)) = Ok (s', lines) /\
    last_state_ts s' = 15 /\
    total_ms s' == 8000 /\
    stand_ms s' == 8000 /\
    counted_seconds 10 [mkInput 12 [] None None 12; mkInput 15 [] None None 15]
    == 15 - 10.
Proof.
  destruct X15_time_accounting as (A & B & C).
  destruct (run_frames example_config
              [mkInput 12 [] None None 12; mkInput 9 [] None None 9;
               mkInput 15 [] None None 15]
              (set_standing true (initial_state 10 10)))
    as (s' & lines & R & _).
  exists s', lines. split; [exact R|].
  destruct (A _ _ _ _ _ R) as (A1 & A2).
  assert (P : port_silent
                [mkInput 12 [] None None 12; mkInput 9 [] None None 9;
                 mkInput 15 [] None None 15])
    by (repeat constructor).
  destruct (C _ _ _ _ _ P R) as (_ & C2).
  split; [exact A1|]. split; [rewrite A2; reflexivity|].
  split; [rewrite C2; reflexivity|].
  apply (B 10 [mkInput 12 [] None None 12; mkInput 15 [] None None 15]).
  simpl. repeat split; vm_compute; discriminate.
Defined.

(** ** A fetched reading is used at once *)

Lemma poll_weather_result (now : Q) (fetch : option (Q * Z * Q))
  (s : RuntimeState) :
  (snd (poll_weather now fetch s) = false ->
   fst (poll_weather now fetch s) = s) /\
  (forall t c w,
     snd (poll_weather now fetch s) = true -> fetch = Some (t, c, w) ->
     let s' := fst (poll_weather now fetch s) in
     temp_f s' = t /\ wcode s' = c /\ wind_mph s' = w /\
     last_weather_poll s' = now).
Proof.
  unfold poll_weather.
  destruct (Qltb WEATHER_POLL_SEC (now - last_weather_poll s)); simpl.
  - split; [discriminate|]. intros t c w _ ->. simpl. now repeat split.
  - split; [reflexivity|]. discriminate.
Qed.

Lemma poll_commute_result (cfg : Config) (now : Q) (fetch : option Q)
  (s : RuntimeState) :
  (snd (poll_commute cfg now fetch s) = false ->
   commute_min (fst (poll_commute cfg now fetch s)) = commute_min s) /\
  (forall m,
     snd (poll_commute cfg now fetch s) = true -> fetch = Some m ->
     let s' := fst (poll_commute cfg now fetch s) in
     commute_min s' = m /\ last_traffic_poll s' = now).
Proof.
  unfold poll_commute.
  destruct (Qltb TRAFFIC_POLL_SEC (now - last_traffic_poll s)); simpl.
  - destruct (ORS_API_KEY cfg =? ""); simpl.
    + split; [reflexivity|]. discriminate.
    + split; [discriminate|]. intros m _ ->. simpl. now split.
  - split; [reflexivity|]. discriminate.
Qed.

(** The frame of an iteration, given its result. *)
Lemma tick_frame_of (cfg : Config) (i : TickInput) (s s' : RuntimeState)
  (out : TickOutput) :
  tick cfg i s = Ok (s', out) ->
  exists h p e c : Z,
    water_value (in_water_clock i) (last_water_ts s') = Ok h /\
    stand_value (stand_ms s') (total_ms s') = Ok p /\
    event_value (event_target_epoch cfg - in_now i) = Ok e /\
    commute_value (commute_min s') = Ok c /\
    out_written out =
      frame_text (weather_value (wmo_to_kind (wcode s') (wind_mph s')))
                 (temp_value (temp_f s')) h p e c.
Proof.
  intros T.
  destruct (tick_frame cfg i s)
    as (s1 & out1 & h & p & e & c & T1 & Hh & Hp & He & Hc & W & _).
  rewrite T in T1. injection T1 as <- <-.
  exists h, p, e, c. now repeat split.
Qed.

Lemma fresh_weather (cfg : Config) (i : TickInput) (s s' : RuntimeState)
  (out : TickOutput) (t : Q) (c : Z) (w : Q) :
  tick cfg i s = Ok (s', out) ->
  out_weather_called out = true ->
  in_weather i = Some (t, c, w) ->
  (temp_f s' = t /\ wcode s' = c /\ wind_mph s' = w) /\
  last_weather_poll s' = in_now i /\
  exists h p e m : Z,
    out_written out
    = frame_text (weather_value (wmo_to_kind c w)) (temp_value t) h p e m.
Proof.
  intros T Hc Hf.
  destruct (tick_weather _ _ _ _ _ T) as (sa & _ & (F1 & F2 & F3 & F4 & F5)).
  rewrite F5 in Hc.
  destruct (proj2 (poll_weather_result (in_now i) (in_weather i) sa)
              t c w Hc Hf) as (P1 & P2 & P3 & P4).
  assert (E1 : temp_f s' = t) by congruence.
  assert (E2 : wcode s' = c) by congruence.
  assert (E3 : wind_mph s' = w) by congruence.
  split; [now repeat split|]. split; [congruence|].
  destruct (tick_frame_of _ _ _ _ _ T) as (h & p & e & m & _ & _ & _ & _ & W).
  rewrite E1, E2, E3 in W. now exists h, p, e, m.
Qed.

Lemma fresh_commute (cfg : Config) (i : TickInput) (s s' : RuntimeState)
  (out : TickOutput) (m : Q) :
  tick cfg i s = Ok (s', out) ->
  out_commute_called out = true ->
  in_commute i = Some m ->
  commute_min s' = m /\
  last_traffic_poll s' = in_now i /\
  exists v : Z,
    commute_value m = Ok v /\
    exists w t h p e : Z, out_written out = frame_text w t h p e v.
Proof.
  intros T Hc Hf.
  destruct (tick_commute _ _ _ _ _ T) as (sa & _ & (F1 & F2 & F3)).
  rewrite F3 in Hc.
  destruct (proj2 (poll_commute_result cfg (in_now i) (in_commute i) sa)
              m Hc Hf) as (P1 & P2).
  assert (E1 : commute_min s' = m) by congruence.
  split; [exact E1|]. split; [congruence|].
  destruct (tick_frame_of _ _ _ _ _ T) as (h & p & e & v & _ & _ & _ & V & W).
  rewrite E1 in V. exists v. split; [exact V|].
  do 2 eexists. exists h, p, e. exact W.
Qed.

Lemma idle_poll (cfg : Config) (i : TickInput) (s s' : RuntimeState)
  (out : TickOutput) :
  tick cfg i s = Ok (s', out) ->
  (out_weather_called out = false ->
   temp_f s' = temp_f s /\ wcode s' = wcode s /\ wind_mph s' = wind_mph s /\
   last_weather_poll s' = last_weather_poll s) /\
  (out_commute_called out = false -> commute_min s' = commute_min s).
Proof.
  intros T. split; intros Hc.
  - destruct (tick_weather _ _ _ _ _ T)
      as (sa & (E1 & E2 & E3 & E4) & (F1 & F2 & F3 & F4 & F5)).
    rewrite F5 in Hc.
    rewrite (proj1 (poll_weather_result _ _ sa) Hc) in F1, F2, F3, F4.
    repeat split; congruence.
  - destruct (tick_commute _ _ _ _ _ T) as (sa & (E1 & _) & (F1 & _ & F3)).
    rewrite F3 in Hc.
    rewrite (proj1 (poll_commute_result cfg _ _ sa) Hc) in F1.
    congruence.
Qed.

(** X16. When an iteration calls the weather service and the call
    succeeds, the three cached values become the fetched ones, the poll
    time becomes [now], and the line written in that same iteration
    already carries the weather and temperature gauges of the fetched
    reading.  The same holds for the routing service and the commute
    gauge.  In an iteration that does not call a service, the
    corresponding cached values are what they were. *)
Theorem X16_fetched_reading_used_at_once :
  (forall (cfg : Config) (i : TickInput) (s s' : RuntimeState)
          (out : TickOutput) (t : Q) (c : Z) (w : Q),
     tick cfg i s = Ok (s', out) ->
     out_weather_called out = true ->
     in_weather i = Some (t, c, w) ->
     (temp_f s' = t /\ wcode s' = c /\ wind_mph s' = w) /\
     last_weather_poll s' = in_now i /\
     exists h p e m : Z,
       out_written out
       = frame_text (weather_value (wmo_to_kind c w)) (temp_value t)
                    h p e m) /\
  (forall (cfg : Config) (i : TickInput) (s s' : RuntimeState)
          (out : TickOutput) (m : Q),
     tick cfg i s = Ok (s', out) ->
     out_commute_called out = true ->
     in_commute i = Some m ->
     commute_min s' = m /\
     last_traffic_poll s' = in_now i /\
     exists v : Z,
       commute_value m = Ok v /\
       exists w t h p e : Z, out_written out = frame_text w t h p e v) /\
  (forall (cfg : Config) (i : TickInput) (s s' : RuntimeState)
          (out : TickOutput),
     tick cfg i s = Ok (s', out) ->
     (out_weather_called out = false ->
      temp_f s' = temp_f s /\ wcode s' = wcode s /\
      wind_mph s' = wind_mph s /\
      last_weather_poll s' = last_weather_poll s) /\
     (out_commute_called out = false -> commute_min s' = commute_min s)).
Proof.
  split; [exact fresh_weather|]. split; [exact fresh_commute|exact idle_poll].
Qed.

Lemma X16_fetched_reading_used_at_once_witness :
  exists s' out,
    tick example_config
         (mkInput 1000 [] (Some (90, 0%Z, 3)) (Some 45) 1000)
         (initial_state 1000 1000) = Ok (s', out) /\
    (temp_f s' = 90 /\ wcode s' = 0%Z /\ wind_mph s' = 3) /\
    commute_min s' = 45 /\
    (exists h p e m : Z,
       out_written out
       = frame_text (weather_value (wmo_to_kind 0 3)) (temp_value 90)
                    h p e m) /\
    exists s2 out2,
      tick example_config (mkInput 1001 [] None None 1001) s' = Ok (s2, out2) /\
      temp_f s2 = temp_f s'.
Proof.
  destruct X16_fetched_reading_used_at_once as (A & B & C).
  destruct (tick_total example_config
              (mkInput 1000 [] (Some (90, 0%Z, 3)) (Some 45) 1000)
              (initial_state 1000 1000)) as (s' & out & T).
  destruct (tick_total example_config (mkInput 1001 [] None None 1001) s')
    as (s2 & out2 & T2).
  destruct (fetch_is_called_when_due _ _ _ _ _ T) as (Dw & Dc).
  assert (Cw : out_weather_called out = true)
    by (apply Dw; vm_compute; reflexivity).
  assert (Cc : out_commute_called out = true)
    by (apply Dc; split; [vm_compute; reflexivity|discriminate]).
  destruct (A _ _ _ _ _ _ _ _ T Cw eq_refl) as (A1 & A2 & A3).
  destruct (B _ _ _ _ _ _ T Cc eq_refl) as (B1 & _).
  exists s', out. split; [exact T|]. split; [exact A1|].
  split; [exact B1|]. split; [exact A3|].
  exists s2, out2. split; [exact T2|].
  destruct (fetch_is_called_when_due _ _ _ _ _ T2) as (Dw2 & _).
  apply (C _ _ _ _ _ T2).
  destruct (out_weather_called out2) eqn:E; [|reflexivity].
  exfalso. pose proof (proj1 Dw2 eq_refl) as K.
  rewrite A2 in K. vm_compute in K. discriminate K.
Defined.

(** ** Without a routing key *)

Lemma no_key_tick (cfg : Config) (i : TickInput) (s s' : RuntimeState)
  (out : TickOutput) :
  ORS_API_KEY cfg = "" ->
  tick cfg i s = Ok (s', out) ->
  out_commute_called out = false /\ commute_min s' = commute_min s.
Proof.
  intros K T.
  assert (N : out_commute_called out = false).
  { destruct (out_commute_called out) eqn:E; [|reflexivity].
    destruct (fetch_is_called_when_due _ _ _ _ _ T) as (_ & D).
    rewrite E in D. destruct (proj1 D eq_refl) as [_ C]. contradiction. }
  split; [exact N|].
  now apply (proj2 (idle_poll _ _ _ _ _ T)).
Qed.

Lemma no_key_run (cfg : Config) (inputs : list TickInput) :
  forall s s' lines v,
    ORS_API_KEY cfg = "" ->
    commute_value (commute_min s) = Ok v ->
    run cfg inputs s = Ok (s', lines) ->
    commute_min s' = commute_min s /\
    Forall (fun line => exists w t h p e : Z,
                          line = frame_text w t h p e v) lines.
Proof.
  induction inputs as [|i inputs IH]; intros s s' lines v K V; simpl.
  - intros H. injection H as <- <-. split; [reflexivity|constructor].
  - destruct (tick cfg i s) as [[s1 out]|e] eqn:T; simpl; [|discriminate].
    destruct (run cfg inputs s1) as [[s2 rest]|e] eqn:R; simpl; [|discriminate].
    intros H. injection H as <- <-.
    destruct (no_key_tick _ _ _ _ _ K T) as (_ & E).
    assert (V1 : commute_value (commute_min s1) = Ok v) by now rewrite E.
    destruct (IH _ _ _ _ K V1 R) as (I1 & I2).
    split; [congruence|].
    constructor; [|exact I2].
    destruct (tick_frame_of _ _ _ _ _ T) as (h & p & e & c & _ & _ & _ & C & W).
    rewrite V1 in C. injection C as <-.
    do 2 eexists. exists h, p, e. exact W.
Qed.

(** X17. With no routing key configured, no iteration ever calls the
    routing service, the cached commute minutes never change, and every
    line of a run carries the same commute gauge, the one of the value
    the run started with (65 for the start-up value of 18 minutes). *)
Theorem X17_no_key_holds_commute :
  (forall (cfg : Config) (i : TickInput) (s s' : RuntimeState)
          (out : TickOutput),
     ORS_API_KEY cfg = "" ->
     tick cfg i s = Ok (s', out) ->
     out_commute_called out = false /\ commute_min s' = commute_min s) /\
  (forall (cfg : Config) (inputs : list TickInput) (s s' : RuntimeState)
          (lines : list string) (v : Z),
     ORS_API_KEY cfg = "" ->
     commute_value (commute_min s) = Ok v ->
     run cfg inputs s = Ok (s', lines) ->
     commute_min s' = commute_min s /\
     Forall (fun line => exists w t h p e : Z,
                           line = frame_text w t h p e v) lines).
Proof.
  split; [exact no_key_tick|].
  intros cfg inputs. apply no_key_run.
Qed.

Lemma X17_no_key_holds_commute_witness :
  exists s' lines,
    run (mkConfig "" 5000)
        [mkInput 1000 [] None (Some 40) 1000;
         mkInput 2000 [] None (Some 44) 2000]
        (initial_state 1000 1000) = Ok (s', lines) /\
    commute_min s' = 18 /\
    Forall (fun line => exists w t h p e : Z,
                          line = frame_text w t h p e 65) lines.
Proof.
  destruct (run_frames (mkConfig "" 5000)
              [mkInput 1000 [] None (Some 40) 1000;
               mkInput 2000 [] None (Some 44) 2000]
              (initial_state 1000 1000)) as (s' & lines & R & _).
  exists s', lines. split; [exact R|].
  apply (proj2 X17_no_key_holds_commute (mkConfig "" 5000) _
           (initial_state 1000 1000) s' lines 65%Z eq_refl eq_refl R).
Defined.

(** ** What a drain reads and what it leaves *)

Lemma handle_blank (l : inbound) (s : RuntimeState) :
  blank l = true -> handle s l = s.
Proof.
  unfold blank, handle. intros H. apply String.eqb_eq in H. rewrite H.
  reflexivity.
Qed.

Lemma fold_handle_app (a b : list inbound) (s : RuntimeState) :
  fold_left handle (a ++ b) s = fold_left handle b (fold_left handle a s).
Proof. apply fold_left_app. Qed.

Lemma drain_splits (waiting : list inbound) :
  forall s,
    exists consumed,
      waiting = consumed ++ snd (drain waiting s) /\
      fst (drain waiting s) = fold_left handle consumed s /\
      (waiting <> [] -> consumed <> []) /\
      (snd (drain waiting s) <> [] ->
       exists pre b,
         consumed = pre ++ [b] /\ blank b = true /\
         forallb (fun l => negb (blank l)) pre = true).
Proof.
  induction waiting as [|l rest IH]; intros s.
  - exists []. repeat split; try reflexivity; intros H; now elim H.
  - destruct (blank l) eqn:B.
    + rewrite (drain_cons_blank l rest s B). exists [l]. simpl.
      split; [reflexivity|]. split; [now rewrite (handle_blank l s B)|].
      split; [discriminate|]. intros _. exists [], l. now repeat split.
    + rewrite (drain_cons_nonblank l rest s B).
      destruct (IH (handle s l)) as (consumed & E & F & _ & U).
      exists (l :: consumed). simpl.
      split; [now rewrite <- E|]. split; [exact F|].
      split; [discriminate|]. intros N.
      destruct (U N) as (pre & b & E1 & E2 & E3).
      exists (l :: pre), b. rewrite E1. simpl. rewrite B. now repeat split.
Qed.

Lemma drain_progress (waiting : list inbound) (s : RuntimeState) :
  waiting <> [] ->
  (List.length (snd (drain waiting s)) < List.length waiting)%nat.
Proof.
  intros N. destruct (drain_splits waiting s) as (consumed & E & _ & P & _).
  specialize (P N).
  rewrite E at 2. rewrite length_app.
  destruct consumed; [contradiction|simpl; lia].
Qed.

(** X18. A drain reads a front part of the waiting lines and leaves the
    rest, in order.  The state it produces is the one obtained by handling
    the lines it read, one after the other.  If any line was waiting, at
    least one is read, so fewer are left; and lines are left only when
    the last line read was blank and no line before it was. *)
Theorem X18_drain_reads_a_front_part :
  forall (waiting : list inbound) (s : RuntimeState),
    (exists consumed,
       waiting = consumed ++ snd (drain waiting s) /\
       fst (drain waiting s) = fold_left handle consumed s /\
       (snd (drain waiting s) <> [] ->
        exists pre b,
          consumed = pre ++ [b] /\ blank b = true /\
          forallb (fun l => negb (blank l)) pre = true)) /\
    (waiting <> [] ->
     (List.length (snd (drain waiting s)) < List.length waiting)%nat).
Proof.
  intros waiting s. split.
  - destruct (drain_splits waiting s) as (consumed & E & F & _ & U).
    exists consumed. now repeat split.
  - apply drain_progress.
Qed.

Lemma X18_drain_reads_a_front_part_witness :
  Nat.lt
    (List.length
       (snd (drain [("S,1", 1); ("", 2); ("B,WATER", 3)] (initial_state 0 0))))
    3%nat.
Proof.
  apply (proj2 (X18_drain_reads_a_front_part
                  [("S,1", 1); ("", 2); ("B,WATER", 3)] (initial_state 0 0))).
  discriminate.
Defined.

(** ** The last line of a kind decides *)


Lemma handle_water (s : RuntimeState) (l : inbound) :
  last_water_ts (handle s l)
  = if is_water l then snd l else last_water_ts s.
Proof.
  unfold handle, is_water, handle_line.
  destruct (strip (fst l) =? "B,WATER"); [reflexivity|].
  now destruct (startswith (strip (fst l)) "S,").
Qed.


Lemma fold_handle_no_water (ls : list inbound) :
  forall s,
    forallb (fun l => negb (is_water l)) ls = true ->
    last_water_ts (fold_left handle ls s) = last_water_ts s.
Proof.
  induction ls as [|l ls IH]; intros s H; [reflexivity|].
  simpl in H. apply andb_true_iff in H. destruct H as [H1 H2].
  apply negb_true_iff in H1.
  simpl. rewrite (IH _ H2), handle_water, H1. reflexivity.
Qed.







(** ** The hydration button *)

(** For the first 72 seconds after a hydration event the curve has not yet
    dropped to 94.5, so the score is still 95. *)
Lemma water_value_just_reset (clock t0 : Q) :
  clock - t0 < 72 -> water_value clock t0 = Ok 95%Z.
Proof.
  intros Hhi.
  destruct (Qlt_le_dec 0 (clock - t0)) as [Hlo|Hlo];
    [|now apply water_value_fresh].
  rewrite (water_value_at clock t0 (clock - t0)) by reflexivity.
  set (e := clock - t0) in *.
  unfold water_value.
  set (h := (e - 0) / 3600).
  assert (Hh : 0 < h /\ h < 1 # 50).
  { unfold h. split.
    - apply Qlt_shift_div_l; [reflexivity|lra].
    - apply Qlt_shift_div_r; [reflexivity|lra]. }
  destruct Hh as [H1 H2].
  assert (E4 : Qle_bool 4 h = false) by (apply Qle_bool_false; lra).
  rewrite E4. unfold piecewise_linear.
  replace (sorted_by_x [(0, 95); (1, 70); (2, 52); (3, 25); (4, 5)])
    with [(0, 95); (1, 70); (2, 52); (3, 25); (4, 5)] by reflexivity.
  cbn [fst snd List.last].
  assert (E0 : Qle_bool h 0 = false) by (apply Qle_bool_false; lra).
  rewrite E0, E4.
  cbn [scan_segments].
  assert (E0' : Qle_bool 0 h = true) by (apply Qle_bool_iff; lra).
  assert (E1 : Qle_bool h 1 = true) by (apply Qle_bool_iff; lra).
  rewrite E0', E1. simpl. f_equal.
  unfold clamp100. rewrite (py_round_unique _ 95); [reflexivity| |];
    unfold lerp; change (inject_Z 95) with 95;
    setoid_replace ((h - 0) / (1 - 0)) with h by field; lra.
Qed.

Lemma tick_water_button (cfg : Config) (i : TickInput) (s s' : RuntimeState)
  (out : TickOutput) (pre : list inbound) (l : inbound)
  (mid : list inbound) :
  tick cfg i s = Ok (s', out) ->
  in_waiting i = pre ++ l :: mid ++ out_unread out ->
  is_water l = true ->
  forallb (fun l => negb (is_water l)) mid = true ->
  in_water_clock i - snd l < 72 ->
  last_water_ts s' = snd l /\
  exists w t p e c : Z, out_written out = frame_text w t 95 p e c.
Proof.
  intros T W P NP Hc.
  destruct (tick_front _ _ _ _ _ T) as (_ & F2 & _).
  destruct (tick_state _ _ _ _ _ T) as (_ & U & _). cbv zeta in U.
  destruct (drain_splits (in_waiting i) (accumulate (in_now i) s))
    as (consumed & E & F & _).
  rewrite <- U in E.
  assert (C : consumed = pre ++ l :: mid).
  { apply (app_inv_tail (out_unread out)).
    rewrite <- E, W, <- app_assoc. reflexivity. }
  rewrite F, C, fold_handle_app in F2. simpl fold_left in F2.
  rewrite (fold_handle_no_water _ _ NP), handle_water, P in F2.
  split; [exact F2|].
  destruct (tick_frame_of _ _ _ _ _ T) as (h & p & e & c & Hh & _ & _ & _ & Wr).
  rewrite F2, (water_value_just_reset _ _ Hc) in Hh. injection Hh as <-.
  do 2 eexists. exists p, e, c. exact Wr.
Qed.

(** X20. Let the lines read by an iteration (all the waiting lines but the
    ones it leaves unread) contain a hydration marker with no other marker
    read after it; blank or other lines may follow it.  When that marker
    was read less than 72 seconds before the clock reading of the
    hydration gauge, the hydration time is the marker's and the line
    written in that same iteration carries a hydration gauge of 95:
    pressing the button resets the gauge at once. *)
Theorem X20_water_button_resets_gauge :
  forall (cfg : Config) (i : TickInput) (s s' : RuntimeState)
         (out : TickOutput) (pre : list inbound) (l : inbound)
         (mid : list inbound),
    tick cfg i s = Ok (s', out) ->
    in_waiting i = pre ++ l :: mid ++ out_unread out ->
    is_water l = true ->
    forallb (fun l => negb (is_water l)) mid = true ->
    in_water_clock i - snd l < 72 ->
    last_water_ts s' = snd l /\
    exists w t p e c : Z, out_written out = frame_text w t 95 p e c.
Proof. exact tick_water_button. Qed.

Lemma X20_water_button_resets_gauge_witness :
  exists s' out,
    tick example_config
         (mkInput 50000
                  [("S,1", 50000); ("B,WATER ", 50000 + (1 # 100));
                   ("x", 50000 + (1 # 90)); ("", 50000 + (1 # 80));
                   ("B,WATER", 50000 + (1 # 70))]
                  None None (50000 + (1 # 50)))
         (initial_state 1000 1000) = Ok (s', out) /\
    out_unread out = [("B,WATER", 50000 + (1 # 70))] /\
    last_water_ts s' = 50000 + (1 # 100) /\
    exists w t p e c : Z, out_written out = frame_text w t 95 p e c.
Proof.
  destruct (tick_total example_config
              (mkInput 50000
                       [("S,1", 50000); ("B,WATER ", 50000 + (1 # 100));
                        ("x", 50000 + (1 # 90)); ("", 50000 + (1 # 80));
                        ("B,WATER", 50000 + (1 # 70))]
                       None None (50000 + (1 # 50)))
              (initial_state 1000 1000)) as (s' & out & T).
  exists s', out. split; [exact T|].
  assert (U : out_unread out = [("B,WATER", 50000 + (1 # 70))]).
  { destruct (tick_state _ _ _ _ _ T) as (_ & U & _). cbv zeta in U.
    rewrite U. reflexivity. }
  split; [exact U|].
  apply (X20_water_button_resets_gauge _ _ _ _ _
           [("S,1", 50000)] ("B,WATER ", 50000 + (1 # 100))
           [("x", 50000 + (1 # 90)); ("", 50000 + (1 # 80))] T).
  - rewrite U. reflexivity.
  - reflexivity.
  - reflexivity.
  - reflexivity.
Defined.

(** ** The status line is printed at most once a second *)

Lemma accumulate_keeps_print (now : Q) (s : RuntimeState) :
  last_print (accumulate now s) = last_print s.
Proof. unfold accumulate. simpl. by_cases_on_step. Qed.

Lemma tick_report (cfg : Config) (i : TickInput) (s s' : RuntimeState)
  (out : TickOutput) :
  tick cfg i s = Ok (s', out) ->
  (out_reported out = true <-> PRINT_EVERY_SEC <= in_now i - last_print s) /\
  last_print s' = if out_reported out then in_now i else last_print s.
Proof.
  rewrite tick_steps. cbv zeta.
  destruct (gauges cfg (in_now i) (in_water_clock i) _); simpl; [|discriminate].
  intros H. injection H as <- <-. simpl out_reported.
  match goal with
  | |- context [report ?n ?st] =>
      assert (L : last_print st = last_print s)
  end.
  { match goal with
    | |- context [poll_commute ?c ?n ?f ?st] =>
        destruct (poll_commute_keeps_rest c n f st) as (_ & _ & _ & ->)
    end.
    match goal with
    | |- context [poll_weather ?n ?f ?st] =>
        destruct (poll_weather_keeps_rest n f st) as (_ & _ & _ & ->)
    end.
    destruct (drain_keeps_clock (in_waiting i) (accumulate (in_now i) s))
      as (_ & ->).
    apply accumulate_keeps_print. }
  unfold report. rewrite L.
  destruct (Qle_bool PRINT_EVERY_SEC (in_now i - last_print s)) eqn:E; simpl.
  - apply Qle_bool_iff in E. split; [now split|reflexivity].
  - apply Qle_bool_false in E. split; [|exact L].
    split; [discriminate|]. intros C. exfalso. lra.
Qed.

(** X21. An iteration prints the status line exactly when at least one
    second has passed since the last print; if it prints, the print time
    becomes [now], otherwise it is unchanged.  So of two consecutive
    iterations less than a second apart, the second never prints when the
    first did. *)
Theorem X21_status_line_cadence :
  (forall (cfg : Config) (i : TickInput) (s s' : RuntimeState)
          (out : TickOutput),
     tick cfg i s = Ok (s', out) ->
     (out_reported out = true <->
      PRINT_EVERY_SEC <= in_now i - last_print s) /\
     last_print s' = if out_reported out then in_now i else last_print s) /\
  (forall (cfg : Config) (i i2 : TickInput) (s s1 s2 : RuntimeState)
          (out out2 : TickOutput),
     tick cfg i s = Ok (s1, out) ->
     tick cfg i2 s1 = Ok (s2, out2) ->
     out_reported out = true ->
     in_now i2 - in_now i < PRINT_EVERY_SEC ->
     out_reported out2 = false).
Proof.
  split; [exact tick_report|].
  intros cfg i i2 s s1 s2 out out2 T T2 R H.
  destruct (tick_report _ _ _ _ _ T) as (_ & L).
  destruct (tick_report _ _ _ _ _ T2) as (D & _).
  rewrite R in L. rewrite L in D.
  destruct (out_reported out2); [|reflexivity].
  exfalso. pose proof (proj1 D eq_refl) as K. lra.
Qed.

Lemma X21_status_line_cadence_witness :
  exists s1 out s2 out2,
    tick example_config (mkInput 1000 [] None None 1000)
         (initial_state 1000 1000) = Ok (s1, out) /\
    tick example_config (mkInput (2001 # 2) [] None None (2001 # 2)) s1
    = Ok (s2, out2) /\
    out_reported out = true /\ out_reported out2 = false.
Proof.
  destruct X21_status_line_cadence as (A & B).
  destruct (tick_total example_config (mkInput 1000 [] None None 1000)
              (initial_state 1000 1000)) as (s1 & out & T).
  destruct (tick_total example_config
              (mkInput (2001 # 2) [] None None (2001 # 2)) s1)
    as (s2 & out2 & T2).
  exists s1, out, s2, out2.
  assert (R : out_reported out = true).
  { apply (proj1 (A _ _ _ _ _ T)). vm_compute. discriminate. }
  split; [exact T|]. split; [exact T2|]. split; [exact R|].
  apply (B _ _ _ _ _ _ _ _ T T2 R). reflexivity.
Defined.

(** * The countdown label *)

Lemma minutes_range (s : Q) :
  0 < s -> s < 3600 -> 0 < s / 60 /\ s / 60 < 60.
Proof.
  intros H0 H1. split.
  - apply Qlt_shift_div_l; [reflexivity|lra].
  - apply Qlt_shift_div_r; [reflexivity|lra].
Qed.

Lemma event_short_minutes (fmt : Q -> string) (s : Q) :
  0 < s -> s < 3600 ->
  event_short fmt s = (py_str (py_round (s / 60)) ++ "m")%string /\
  (0 <= py_round (s / 60) <= 60)%Z.
Proof.
  intros H0 H1. destruct (minutes_range s H0 H1) as [M0 M1].
  unfold event_short.
  assert (E0 : Qle_bool s 0 = false) by now apply Qle_bool_false.
  assert (E1 : Qltb (s / 60) 60 = true) by now apply Qltb_true.
  rewrite E0, E1. split; [reflexivity|].
  pose proof (py_round_mono 0 (s / 60) (Qlt_le_weak _ _ M0)) as L.
  pose proof (py_round_mono (s / 60) 60 (Qlt_le_weak _ _ M1)) as U.
  change (py_round 0) with 0%Z in L. change (py_round 60) with 60%Z in U.
  lia.
Qed.

Lemma event_short_now (fmt : Q -> string) (s : Q) :
  event_short fmt s = "NOW" <-> s <= 0.
Proof.
  split.
  - intros H. destruct (Qlt_le_dec 0 s) as [P|P]; [|exact P]. exfalso.
    unfold event_short in H.
    assert (E0 : Qle_bool s 0 = false) by now apply Qle_bool_false.
    rewrite E0 in H.
    assert (L : last_char "NOW" = Some "W"%char) by reflexivity.
    rewrite <- H in L.
    destruct (Qltb (s / 60) 60);
      rewrite last_char_app_one in L; discriminate L.
  - intros H. unfold event_short. apply Qle_bool_iff in H. now rewrite H.
Qed.

(** X22. The countdown label is "NOW" exactly when no time is left.  With
    less than an hour left it is a whole number of minutes between 0 and
    60 followed by "m", the minutes being rounded: during the last half
    minute it reads "0m", not "NOW", and from 59.5 minutes on it reads
    "60m".  From one hour on it is the formatted number of hours followed
    by "h". *)
Theorem X22_countdown_label :
  forall (fmt : Q -> string) (s : Q),
    (event_short fmt s = "NOW" <-> s <= 0) /\
    (0 < s -> s < 3600 ->
     event_short fmt s = (py_str (py_round (s / 60)) ++ "m")%string /\
     (0 <= py_round (s / 60) <= 60)%Z) /\
    (0 < s -> s <= 30 -> event_short fmt s = "0m") /\
    (3570 <= s -> s < 3600 -> event_short fmt s = "60m") /\
    (3600 <= s -> event_short fmt s = (fmt (s / 60 / 60) ++ "h")%string).
Proof.
  intros fmt s.
  split; [apply event_short_now|].
  split; [apply event_short_minutes|].
  split; [|split].
  - intros H0 H1.
    destruct (event_short_minutes fmt s H0) as (E & R); [lra|].
    rewrite E.
    assert (M : s / 60 <= 1 # 2)
      by (apply Qle_shift_div_r; [reflexivity|lra]).
    apply py_round_mono in M. change (py_round (1 # 2)) with 0%Z in M.
    replace (py_round (s / 60)) with 0%Z by lia. reflexivity.
  - intros H0 H1.
    destruct (event_short_minutes fmt s) as (E & R); [lra|exact H1|].
    rewrite E.
    assert (M : 119 # 2 <= s / 60)
      by (apply Qle_shift_div_l; [reflexivity|lra]).
    apply py_round_mono in M. change (py_round (119 # 2)) with 60%Z in M.
    replace (py_round (s / 60)) with 60%Z by lia. reflexivity.
  - intros H. unfold event_short.
    assert (E0 : Qle_bool s 0 = false) by (apply Qle_bool_false; lra).
    assert (E1 : Qltb (s / 60) 60 = false).
    { apply Qltb_false. apply Qle_shift_div_l; [reflexivity|lra]. }
    now rewrite E0, E1.
Qed.

Lemma X22_countdown_label_witness :
  event_short (fun _ => "?") (-5) = "NOW" /\
  event_short (fun _ => "?") 20 = "0m" /\
  event_short (fun _ => "?") 3580 = "60m" /\
  event_short (fun _ => "?") 600 = "10m" /\
  event_short (fun _ => "?") 7200 = "?h".
Proof.
  split; [|split; [|split; [|split]]].
  - apply (proj1 (X22_countdown_label (fun _ => "?") (-5))).
    vm_compute. discriminate.
  - apply (proj1 (proj2 (proj2 (X22_countdown_label (fun _ => "?") 20))));
      [reflexivity|vm_compute; discriminate].
  - apply (proj1 (proj2 (proj2 (proj2
             (X22_countdown_label (fun _ => "?") 3580)))));
      [vm_compute; discriminate|reflexivity].
  - rewrite (proj1 (proj1 (proj2 (X22_countdown_label (fun _ => "?") 600))
                      eq_refl eq_refl)).
    reflexivity.
  - rewrite (proj2 (proj2 (proj2 (proj2
               (X22_countdown_label (fun _ => "?") 7200))))); [reflexivity|].
    vm_compute. discriminate.
Defined.

(** * The first frame *)

Lemma stand_value_none (tot : Q) : stand_value 0 tot = Ok 100%Z.
Proof.
  destruct (Qlt_le_dec 0 tot) as [H|H].
  - rewrite (stand_value_at 0 tot 0 H); [reflexivity|].
    assert (K : 0 / tot * 100 == 0) by (field; intros C; lra).
    destruct (py_min_spec 40 (0 / tot * 100)) as (A1 & A2 & [A|A]),
             (py_max_spec 0 (py_min 40 (0 / tot * 100)))
               as (B1 & B2 & [B|B]); lra.
  - unfold stand_value. apply Qle_bool_iff in H. now rewrite H.
Qed.

Lemma accumulate_not_standing (now : Q) (s : RuntimeState) :
  standing s = false -> stand_ms (accumulate now s) = stand_ms s.
Proof.
  intros H. unfold accumulate.
  destruct (Qltb 0 (now - last_state_ts s)); simpl; [|reflexivity].
  rewrite H. reflexivity.
Qed.

(** X23. In the first iteration after start-up, when no line is waiting,
    neither service answers and the hydration clock reading is less than
    72 seconds after the start, the line written carries the start-up
    gauges: weather 75 (cloudy), temperature 50, hydration 95, posture 100
    and commute 65, with the event gauge of the configured target. *)
Theorem X23_first_frame :
  forall (cfg : Config) (i : TickInput) (t_water t_state : Q)
         (s' : RuntimeState) (out : TickOutput),
    tick cfg i (initial_state t_water t_state) = Ok (s', out) ->
    in_waiting i = [] ->
    in_weather i = None ->
    in_commute i = None ->
    in_water_clock i - t_water < 72 ->
    exists e : Z,
      event_value (event_target_epoch cfg - in_now i) = Ok e /\
      out_written out = frame_text 75 50 95 100 e 65.
Proof.
  intros cfg i tw ts s' out T W Fw Fc Hc.
  destruct (tick_frame_of _ _ _ _ _ T) as (h & p & e & c & Hh & Hp & He & Hm & Wr).
  destruct (tick_front _ _ _ _ _ T) as (_ & F2 & _).
  rewrite W in F2. cbn [drain fst] in F2.
  destruct (accumulate_keeps (in_now i) (initial_state tw ts))
    as (_ & _ & _ & _ & _ & _ & _ & K8).
  rewrite K8 in F2. simpl in F2.
  destruct (tick_counters _ _ _ _ _ T) as (Es & _).
  rewrite accumulate_not_standing in Es by reflexivity. simpl in Es.
  destruct (tick_weather _ _ _ _ _ T)
    as (sa & (A1 & A2 & A3 & _) & (B1 & B2 & B3 & _ & _)).
  destruct (tick_commute _ _ _ _ _ T) as (sb & (C1 & _) & (D1 & _ & _)).
  assert (Wt : temp_f s' = 50 /\ wcode s' = 3%Z /\ wind_mph s' = 0).
  { rewrite Fw in *. unfold poll_weather in *.
    destruct (Qltb WEATHER_POLL_SEC (in_now i - last_weather_poll sa));
      simpl in *; repeat split; congruence. }
  assert (Cm : commute_min s' = 18).
  { rewrite Fc in *. unfold poll_commute in *.
    destruct (Qltb TRAFFIC_POLL_SEC (in_now i - last_traffic_poll sb));
      simpl in *; [|congruence].
    destruct (ORS_API_KEY cfg =? ""); simpl in *; congruence. }
  destruct Wt as (W1 & W2 & W3).
  rewrite W1, W2, W3 in Wr. rewrite Cm in Hm.
  rewrite F2, (water_value_just_reset _ _ Hc) in Hh. injection Hh as <-.
  rewrite Es, stand_value_none in Hp. injection Hp as <-.
  change (commute_value 18) with (Ok 65%Z : result Z) in Hm.
  injection Hm as <-.
  exists e. split; [exact He|exact Wr].
Qed.

Lemma X23_first_frame_witness :
  exists s' out e,
    tick example_config (mkInput 1003 [] None None 1003)
         (initial_state 1000 1001) = Ok (s', out) /\
    event_value (event_target_epoch example_config - 1003) = Ok e /\
    out_written out = frame_text 75 50 95 100 e 65.
Proof.
  destruct (tick_total example_config (mkInput 1003 [] None None 1003)
              (initial_state 1000 1001)) as (s' & out & T).
  destruct (X23_first_frame example_config (mkInput 1003 [] None None 1003)
              1000 1001 s' out T eq_refl eq_refl eq_refl eq_refl)
    as (e & He & W).
  exists s', out, e. now repeat split.
Defined.

(** * Hydration, segment by segment *)

(** Inside the curve's range, [piecewise_linear] on the hydration anchors
    returns the interpolation of the segment that contains [h]. *)
Lemma water_segment (h : Q) (pre : list point) (a b : point)
  (post : list point) :
  water_anchors = pre ++ a :: b :: post ->
  0 < h -> h < 4 -> fst a < h -> h <= fst b ->
  piecewise_linear h water_anchors
  = Ok (lerp (snd a) (snd b) ((h - fst a) / (fst b - fst a))).
Proof.
  intros E H0 H4 Ha Hb.
  assert (S : StronglySorted x_le (pre ++ a :: b :: post)).
  { rewrite <- E.
    change water_anchors with (sorted_by_x water_anchors).
    apply sorted_by_x_sorted. }
  pose proof (scan_segments_segment h pre a b post S Ha Hb) as Sc.
  rewrite <- E in Sc.
  unfold piecewise_linear.
  change (sorted_by_x water_anchors) with water_anchors.
  unfold water_anchors at 1 2. cbn [fst snd List.last].
  assert (E0 : Qle_bool h 0 = false) by now apply Qle_bool_false.
  assert (E4 : Qle_bool 4 h = false) by now apply Qle_bool_false.
  rewrite E0, E4. fold water_anchors. rewrite Sc. reflexivity.
Qed.

(** The value of the hydration curve at every point of its range, written
    out segment by segment. *)
Lemma water_curve (h : Q) :
  0 <= h -> h < 4 ->
  exists y,
    piecewise_linear h water_anchors = Ok y /\
    (h <= 1 -> y == 95 - 25 * h) /\
    (1 <= h -> h <= 2 -> y == 70 - 18 * (h - 1)) /\
    (2 <= h -> h <= 3 -> y == 52 - 27 * (h - 2)) /\
    (3 <= h -> y == 25 - 20 * (h - 3)).
Proof.
  intros H0 H4.
  destruct (Qlt_le_dec 0 h) as [P0|P0].
  - destruct (Qlt_le_dec 1 h) as [P1|P1];
      [destruct (Qlt_le_dec 2 h) as [P2|P2];
       [destruct (Qlt_le_dec 3 h) as [P3|P3]|]|].
    + rewrite (water_segment h [(0, 95); (1, 70); (2, 52)] (3, 25) (4, 5) []
                 eq_refl P0 H4 P3 (Qlt_le_weak _ _ H4)).
      eexists. split; [reflexivity|].
      assert (Y : lerp (snd (3, 25)) (snd (4, 5))
                    ((h - fst (3, 25)) / (fst (4, 5) - fst (3, 25)))
                  == 25 - 20 * (h - 3))
        by (unfold lerp; simpl fst; simpl snd; field).
      rewrite Y. repeat split; intros; lra.
    + rewrite (water_segment h [(0, 95); (1, 70)] (2, 52) (3, 25) [(4, 5)]
                 eq_refl P0 H4 P2 P3).
      eexists. split; [reflexivity|].
      assert (Y : lerp (snd (2, 52)) (snd (3, 25))
                    ((h - fst (2, 52)) / (fst (3, 25) - fst (2, 52)))
                  == 52 - 27 * (h - 2))
        by (unfold lerp; simpl fst; simpl snd; field).
      rewrite Y. repeat split; intros; lra.
    + rewrite (water_segment h [(0, 95)] (1, 70) (2, 52) [(3, 25); (4, 5)]
                 eq_refl P0 H4 P1 P2).
      eexists. split; [reflexivity|].
      assert (Y : lerp (snd (1, 70)) (snd (2, 52))
                    ((h - fst (1, 70)) / (fst (2, 52) - fst (1, 70)))
                  == 70 - 18 * (h - 1))
        by (unfold lerp; simpl fst; simpl snd; field).
      rewrite Y. repeat split; intros; lra.
    + rewrite (water_segment h [] (0, 95) (1, 70) [(2, 52); (3, 25); (4, 5)]
                 eq_refl P0 H4 P0 P1).
      eexists. split; [reflexivity|].
      assert (Y : lerp (snd (0, 95)) (snd (1, 70))
                    ((h - fst (0, 95)) / (fst (1, 70) - fst (0, 95)))
                  == 95 - 25 * h)
        by (unfold lerp; simpl fst; simpl snd; field).
      rewrite Y. repeat split; intros; lra.
  - rewrite (piecewise_linear_low water_anchors h (0, 95)
               [(1, 70); (2, 52); (3, 25); (4, 5)] eq_refl P0).
    eexists. split; [reflexivity|]. simpl snd.
    repeat split; intros; lra.
Qed.

Lemma water_value_below_four (clock t0 : Q) :
  (clock - t0) / 3600 < 4 ->
  water_value clock t0
  = (y <- piecewise_linear ((clock - t0) / 3600) water_anchors ;;
     Ok (clamp100 y)).
Proof.
  intros H. unfold water_value.
  apply Qle_bool_false in H. now rewrite H.
Qed.

(** The score is the nearest integer to the value of the curve. *)
Lemma water_value_near (clock t0 y f : Q) :
  (clock - t0) / 3600 < 4 ->
  piecewise_linear ((clock - t0) / 3600) water_anchors = Ok y ->
  y == f ->
  exists v,
    water_value clock t0 = Ok v /\
    - (1 # 2) <= f - inject_Z v <= 1 # 2.
Proof.
  intros H4 Hy Hf.
  rewrite (water_value_below_four clock t0 H4), Hy. simpl.
  exists (clamp100 y). split; [reflexivity|].
  destruct (piecewise_linear_range _ _ _ _ _ water_anchors_range Hy)
    as [L U].
  change (inject_Z 5) with 5 in L. change (inject_Z 95) with 95 in U.
  rewrite <- Hf. apply clamp100_close; lra.
Qed.

Lemma hours_of_seconds (clock t0 h e : Q) :
  e == h * 3600 -> (clock - t0) / 3600 == h -> clock - t0 == e.
Proof.
  intros He Hh. rewrite He, <- Hh. field.
Qed.

(** C3. The hydration score is 5 as soon as four hours or more have passed
    since the last hydration event, without the curve being consulted, and
    this holds for every larger elapsed time.  Below four hours it is the
    clamped value of the anchor curve: 95 when no time has passed, and on
    each of the four segments the integer nearest to the straight line
    between the segment's two anchors (within one half of it): from 95 to
    70 over the first hour, from 70 to 52 over the second, from 52 to 25
    over the third and from 25 to 5 over the fourth.  After 0 h it is 95,
    after 2 h it is 52, after 4 h and after 10 h it is 5. *)
Theorem C3_hydration_floor_and_curve :
  forall clock last : Q,
    let hours := (clock - last) / 3600 in
    (4 <= hours -> water_value clock last = Ok 5%Z) /\
    (hours < 4 ->
     water_value clock last
     = (y <- piecewise_linear hours water_anchors ;; Ok (clamp100 y)) /\
     exists v, water_value clock last = Ok v /\ (0 <= v <= 100)%Z) /\
    (hours <= 0 -> water_value clock last = Ok 95%Z) /\
    (0 <= hours -> hours <= 1 ->
     exists v, water_value clock last = Ok v /\
       - (1 # 2) <= (95 - 25 * hours) - inject_Z v <= 1 # 2) /\
    (1 <= hours -> hours <= 2 ->
     exists v, water_value clock last = Ok v /\
       - (1 # 2) <= (70 - 18 * (hours - 1)) - inject_Z v <= 1 # 2) /\
    (2 <= hours -> hours <= 3 ->
     exists v, water_value clock last = Ok v /\
       - (1 # 2) <= (52 - 27 * (hours - 2)) - inject_Z v <= 1 # 2) /\
    (3 <= hours -> hours < 4 ->
     exists v, water_value clock last = Ok v /\
       - (1 # 2) <= (25 - 20 * (hours - 3)) - inject_Z v <= 1 # 2) /\
    (hours == 0 -> water_value clock last = Ok 95%Z) /\
    (hours == 2 -> water_value clock last = Ok 52%Z) /\
    (hours == 4 -> water_value clock last = Ok 5%Z) /\
    (hours == 10 -> water_value clock last = Ok 5%Z).
Proof.
  intros clock last hours.
  assert (At : forall h e, e == h * 3600 -> hours == h ->
                           water_value clock last = water_value e 0).
  { intros h e He Hh. apply water_value_at.
    now apply (hours_of_seconds clock last h e). }
  assert (Seg : forall f,
            0 <= hours -> hours < 4 ->
            (forall y, piecewise_linear hours water_anchors = Ok y ->
                       (hours <= 1 -> y == 95 - 25 * hours) /\
                       (1 <= hours -> hours <= 2 ->
                        y == 70 - 18 * (hours - 1)) /\
                       (2 <= hours -> hours <= 3 ->
                        y == 52 - 27 * (hours - 2)) /\
                       (3 <= hours -> y == 25 - 20 * (hours - 3)) ->
                       y == f) ->
            exists v, water_value clock last = Ok v /\
              - (1 # 2) <= f - inject_Z v <= 1 # 2).
  { intros f H0 H4 K.
    destruct (water_curve hours H0 H4) as (y & Hy & C).
    apply (water_value_near clock last y f H4 Hy).
    now apply K. }
  split; [|split; [|split; [|split; [|split; [|split; [|split;
    [|split; [|split; [|split]]]]]]]]].
  - intros H. unfold water_value. fold hours.
    apply Qle_bool_iff in H. now rewrite H.
  - intros H.
    assert (E : water_value clock last
                = (y <- piecewise_linear hours water_anchors ;;
                   Ok (clamp100 y)))
      by now apply water_value_below_four.
    split; [exact E|]. rewrite E. apply curve_total. discriminate.
  - intros H. apply water_value_fresh.
    assert (K : clock - last == hours * 3600) by (unfold hours; field).
    rewrite K. lra.
  - intros H0 H1. apply Seg; [exact H0|lra|].
    intros y _ (C1 & _). now apply C1.
  - intros H1 H2. apply Seg; [lra|lra|].
    intros y _ (_ & C2 & _). now apply C2.
  - intros H2 H3. apply Seg; [lra|lra|].
    intros y _ (_ & _ & C3 & _). now apply C3.
  - intros H3 H4. apply Seg; [lra|exact H4|].
    intros y _ (_ & _ & _ & C4). now apply C4.
  - intros H. now rewrite (At 0 0).
  - intros H. now rewrite (At 2 7200).
  - intros H. now rewrite (At 4 14400).
  - intros H. now rewrite (At 10 36000).
Qed.

Lemma C3_hydration_floor_and_curve_witness :
  water_value 1700020000 1700000000 = Ok 5%Z /\
  water_value 1700003600 1700000000 = Ok 70%Z /\
  water_value 1699999990 1700000000 = Ok 95%Z /\
  (exists v, water_value 1700001800 1700000000 = Ok v /\
     - (1 # 2) <= (95 - 25 * ((1700001800 - 1700000000) / 3600)) - inject_Z v <= 1 # 2) /\
  (exists v, water_value 1700005400 1700000000 = Ok v /\
     - (1 # 2) <= (70 - 18 * ((1700005400 - 1700000000) / 3600 - 1)) - inject_Z v <= 1 # 2) /\
  (exists v, water_value 1700009000 1700000000 = Ok v /\
     - (1 # 2) <= (52 - 27 * ((1700009000 - 1700000000) / 3600 - 2)) - inject_Z v <= 1 # 2) /\
  (exists v, water_value 1700012600 1700000000 = Ok v /\
     - (1 # 2) <= (25 - 20 * ((1700012600 - 1700000000) / 3600 - 3)) - inject_Z v <= 1 # 2) /\
  water_value 1700000000 1700000000 = Ok 95%Z /\
  water_value 1700007200 1700000000 = Ok 52%Z /\
  water_value 1700014400 1700000000 = Ok 5%Z /\
  water_value 1700036000 1700000000 = Ok 5%Z.
Proof.
  destruct (C3_hydration_floor_and_curve 1700020000 1700000000)
    as (H1 & _).
  destruct (C3_hydration_floor_and_curve 1700003600 1700000000)
    as (_ & H2 & _).
  destruct (C3_hydration_floor_and_curve 1699999990 1700000000)
    as (_ & _ & H3 & _).
  destruct (C3_hydration_floor_and_curve 1700001800 1700000000)
    as (_ & _ & _ & S1 & _).
  destruct (C3_hydration_floor_and_curve 1700005400 1700000000)
    as (_ & _ & _ & _ & S2 & _).
  destruct (C3_hydration_floor_and_curve 1700009000 1700000000)
    as (_ & _ & _ & _ & _ & S3 & _).
  destruct (C3_hydration_floor_and_curve 1700012600 1700000000)
    as (_ & _ & _ & _ & _ & _ & S4 & _).
  destruct (C3_hydration_floor_and_curve 1700000000 1700000000)
    as (_ & _ & _ & _ & _ & _ & _ & A0 & _).
  destruct (C3_hydration_floor_and_curve 1700007200 1700000000)
    as (_ & _ & _ & _ & _ & _ & _ & _ & A2 & _).
  destruct (C3_hydration_floor_and_curve 1700014400 1700000000)
    as (_ & _ & _ & _ & _ & _ & _ & _ & _ & A4 & _).
  destruct (C3_hydration_floor_and_curve 1700036000 1700000000)
    as (_ & _ & _ & _ & _ & _ & _ & _ & _ & _ & A10).
  split; [|split; [|split; [|split; [|split; [|split; [|split;
    [|split; [|split; [|split]]]]]]]]].
  - apply H1. vm_compute. discriminate.
  - rewrite (proj1 (H2 eq_refl)). reflexivity.
  - apply H3. vm_compute. discriminate.
  - destruct S1 as (v & Hv & B); [vm_compute; discriminate..|].
    exists v. split; [exact Hv|]. exact B.
  - destruct S2 as (v & Hv & B); [vm_compute; discriminate..|].
    exists v. split; [exact Hv|]. exact B.
  - destruct S3 as (v & Hv & B); [vm_compute; discriminate..|].
    exists v. split; [exact Hv|]. exact B.
  - destruct S4 as (v & Hv & B); [vm_compute; discriminate|reflexivity|].
    exists v. split; [exact Hv|]. exact B.
  - apply A0. reflexivity.
  - apply A2. reflexivity.
  - apply A4. reflexivity.
  - apply A10. reflexivity.
Defined.
